(** * Sheets-to-Shopify product sync: a shallow embedding of [script.js]

    The development follows the script top-down:
    - [Js]       the fragment of the host language the script relies on
                 (cell values, truthiness, [toString], [toLowerCase], [trim],
                 [parseInt], [parseFloat], [join]);
    - [Mapper]   [mapRowToProduct] and [isValidProduct];
    - [Sync]     [createShopifyProduct], [updateSyncStatus],
                 [checkForNewProducts], [initializeTracking], [resetTracking],
                 over an explicit world (sheet, script properties, log,
                 requests sent) and an exception-and-state monad;
    - [Project]  [setup] and [clearTriggers], over the project's triggers;
    - [Reading]  what the statements read off headers, rows and passes.

    A string is a sequence of UTF-16 code units below 256, one [ascii] per
    code unit, so that the character 160 is the no-break space U+00A0; on
    these strings [toLowerCase] and [trim] are the host functions.  Code
    units from 256 on are outside the model.  The string literals of this
    development hold ASCII only; a character from 128 on is written by its
    code, as [Example.nbsp] is.  A number is kept as an exact
    signed decimal (every IEEE double is one); [parseInt] and [parseFloat]
    round what they read to the nearest double, ties to even, and overflow to
    an infinity, as the V8 runtime of the host does. *)

From Stdlib Require Import String Ascii List ZArith NArith Bool Lia.
Import ListNotations.

Local Open Scope string_scope.
Local Open Scope Z_scope.

(** ** Host language fragment *)

Module Js.

(** A number: NaN, an infinity, or [(-1)^neg * coef * 10^expo]. *)
Inductive number : Type :=
| NaN
| Infinity (neg : bool)
| Dec (neg : bool) (coef : N) (expo : Z).

(** A thrown exception, by the name and message its [toString] prints. *)
Record exn : Type := Exn { exn_name : string; exn_message : string }.

Definition TypeError (msg : string) : exn := Exn "TypeError" msg.
Definition SyntaxError (msg : string) : exn := Exn "SyntaxError" msg.

(** [Error.prototype.toString]: the name alone when the message is empty,
    the message alone when the name is. *)
Definition exn_toString (e : exn) : string :=
  match exn_name e, exn_message e with
  | EmptyString, msg => msg
  | name, EmptyString => name
  | name, msg => name ++ ": " ++ msg
  end.

(** The result of an expression that may throw. *)
Inductive result (A : Type) : Type :=
| Ok (a : A)
| Throw (e : exn).
Arguments Ok {A} a.
Arguments Throw {A} e.

Definition rbind {A B} (r : result A) (k : A -> result B) : result B :=
  match r with
  | Ok a => k a
  | Throw e => Throw e
  end.

(** What a sheet cell, or an array slot, can hold.  [VDate s] is a [Date]
    object whose [toString()] is [s]; it is the one object [getValues]
    returns. *)
Inductive value : Type :=
| VUndefined
| VNull
| VBool (b : bool)
| VNum (n : number)
| VStr (s : string)
| VDate (s : string).

(** *** Numbers *)

Definition of_Z (z : Z) : number := Dec (z <? 0) (Z.abs_N z) 0.

Definition zero : number := of_Z 0.

Definition is_zero (n : number) : bool :=
  match n with
  | Dec _ c _ => N.eqb c 0
  | _ => false
  end.

Definition is_nan (n : number) : bool :=
  match n with
  | NaN => true
  | _ => false
  end.

(** [!!n] *)
Definition truthy_number (n : number) : bool :=
  negb (is_nan n || is_zero n).

(** *** The Number value of a decimal *)

(** [num / den] rounded to the nearest integer, a tie to the even one. *)
Definition round_half_even (num den : N) : N :=
  let q := (num / den)%N in
  let r := (num mod den)%N in
  if (2 * r <? den)%N then q
  else if (den <? 2 * r)%N then (q + 1)%N
  else if N.even q then q else (q + 1)%N.

(** [num / (den * 2^k)], rounded down and rounded to the nearest. *)
Definition floor_scaled (num den : N) (k : Z) : N :=
  if 0 <=? k then (num / (den * 2 ^ Z.to_N k))%N
  else ((num * 2 ^ Z.to_N (- k)) / den)%N.

Definition round_scaled (num den : N) (k : Z) : N :=
  if 0 <=? k then round_half_even num (den * 2 ^ Z.to_N k)
  else round_half_even (num * 2 ^ Z.to_N (- k)) den.

(** Moves factors of ten from the coefficient to a negative exponent. *)
Fixpoint lift_exponent (fuel : nat) (c : N) (e : Z) : N * Z :=
  match fuel with
  | O => (c, e)
  | S f =>
      if (e <? 0) && (c mod 10 =? 0)%N then lift_exponent f (c / 10)%N (e + 1)
      else (c, e)
  end.

(** [(-1)^neg * q * 2^k] as a decimal: an integer with the exponent 0, any
    other number with a coefficient that does not end in 0. *)
Definition binary (neg : bool) (q : N) (k : Z) : number :=
  if 0 <=? k then Dec neg (q * 2 ^ Z.to_N k) 0
  else
    let ce := lift_exponent (Z.to_nat (- k)) (q * 5 ^ Z.to_N (- k)) k in
    Dec neg (fst ce) (snd ce).

(** The double nearest to [(-1)^neg * num / den], for [num > 0]: with the
    binary exponent [k] that leaves 53 bits, and no less than -1074, the
    quotient by [2^k] is rounded to the nearest integer, a tie to the even
    one; from [2^1024] on the result is an infinity. *)
Definition double_of_ratio (neg : bool) (num den : N) : number :=
  let k0 := Z.of_N (N.log2 num) - Z.of_N (N.log2 den) - 52 in
  let k1 := if (floor_scaled num den k0 <? 2 ^ 52)%N then k0 - 1 else k0 in
  let k := Z.max k1 (-1074) in
  let q := round_scaled num den k in
  if (q =? 0)%N then Dec neg 0 0
  else if (971 <? k) || ((k =? 971) && (2 ^ 53 <=? q)%N) then Infinity neg
  else binary neg q k.

(** The Number value of [(-1)^neg * c * 10^e]. *)
Definition to_double (neg : bool) (c : N) (e : Z) : number :=
  if (c =? 0)%N then Dec neg 0 0
  else if 0 <=? e then double_of_ratio neg (c * 10 ^ Z.to_N e) 1
  else double_of_ratio neg c (10 ^ Z.to_N (- e)).

(** The Number value of an integer. *)
Definition double_of_Z (z : Z) : number := to_double (z <? 0) (Z.abs_N z) 0.

(** *** Characters and strings *)

Definition digit_char (d : N) : ascii := ascii_of_N (48 + d).

Definition is_digit (c : ascii) : bool :=
  let n := N_of_ascii c in ((48 <=? n) && (n <=? 57))%N.

(** The code units below 256 that [toLowerCase] changes: A to Z, and the
    capital letters U+00C0 to U+00DE but for the sign U+00D7.  Each is mapped
    32 places up. *)
Definition is_upper (c : ascii) : bool :=
  let n := N_of_ascii c in
  (((65 <=? n) && (n <=? 90))
   || ((192 <=? n) && (n <=? 222) && negb (n =? 215)))%N.

(** The white space and line terminators of the language below 256: tab,
    line feed, vertical tab, form feed, carriage return, space and the
    no-break space U+00A0.  It is what [trim], [parseInt] and [parseFloat]
    strip. *)
Definition is_space (c : ascii) : bool :=
  let n := N_of_ascii c in
  (((9 <=? n) && (n <=? 13)) || (n =? 32) || (n =? 160))%N.

Definition lower_char (c : ascii) : ascii :=
  if is_upper c then ascii_of_N (N_of_ascii c + 32) else c.

Fixpoint toLowerCase (s : string) : string :=
  match s with
  | EmptyString => EmptyString
  | String c r => String (lower_char c) (toLowerCase r)
  end.

Fixpoint trimStart (s : string) : string :=
  match s with
  | EmptyString => EmptyString
  | String c r => if is_space c then trimStart r else s
  end.

(** [trimEnd], right to left: a space is dropped when all that follows it
    was dropped. *)
Fixpoint trimEnd (s : string) : string :=
  match s with
  | EmptyString => EmptyString
  | String c r =>
      match trimEnd r with
      | EmptyString => if is_space c then EmptyString else String c EmptyString
      | r' => String c r'
      end
  end.

Definition trim (s : string) : string := trimEnd (trimStart s).

Definition is_empty (s : string) : bool :=
  match s with
  | EmptyString => true
  | _ => false
  end.

(** The decimal digits of [n], most significant first; [fuel] bounds the
    number of digits. *)
Fixpoint digits_aux (fuel : nat) (n : N) (acc : string) : string :=
  match fuel with
  | O => acc
  | S f =>
      let acc' := String (digit_char (n mod 10)) acc in
      if (n <? 10)%N then acc' else digits_aux f (n / 10) acc'
  end.

Definition digits (n : N) : string :=
  digits_aux (S (N.to_nat (N.log2 n))) n EmptyString.

Fixpoint zeros (k : nat) : string :=
  match k with
  | O => EmptyString
  | S k' => String "0" (zeros k')
  end.

(** [s.startsWith(p)] *)
Fixpoint starts_with (p s : string) : bool :=
  match p with
  | EmptyString => true
  | String a p' =>
      match s with
      | EmptyString => false
      | String b s' => Ascii.eqb a b && starts_with p' s'
      end
  end.

Definition drop (n : nat) (s : string) : string :=
  substring n (String.length s - n) s.

Definition take (n : nat) (s : string) : string := substring 0 n s.

(** The longest prefix of [s] whose characters satisfy [f], and the rest. *)
Fixpoint span (f : ascii -> bool) (s : string) : string * string :=
  match s with
  | EmptyString => (EmptyString, EmptyString)
  | String c r =>
      if f c then let '(a, b) := span f r in (String c a, b)
      else (EmptyString, s)
  end.

(** *** [Number.prototype.toString] (radix 10) *)

(** Removes the trailing decimal zeros of a non-zero coefficient. *)
Fixpoint strip_zeros (fuel : nat) (c : N) (e : Z) : N * Z :=
  match fuel with
  | O => (c, e)
  | S f =>
      if (c mod 10 =? 0)%N then strip_zeros f (c / 10) (e + 1) else (c, e)
  end.

(** For [c > 0]: with [s] the digits without trailing zeros, [k] their count
    and [n] the position of the decimal point, the four layouts of the
    language standard. *)
Definition finite_toString (c : N) (e : Z) : string :=
  let '(s, e') := strip_zeros (S (N.to_nat (N.log2 c))) c e in
  let ds := digits s in
  let k := Z.of_nat (String.length ds) in
  let n := k + e' in
  if (k <=? n) && (n <=? 21) then ds ++ zeros (Z.to_nat (n - k))
  else if (0 <? n) && (n <=? 21) then
    take (Z.to_nat n) ds ++ "." ++ drop (Z.to_nat n) ds
  else if (-6 <? n) && (n <=? 0) then "0." ++ zeros (Z.to_nat (- n)) ++ ds
  else
    let ex := (if n - 1 <? 0 then "-" else "+") ++ digits (Z.abs_N (n - 1)) in
    if k =? 1 then ds ++ "e" ++ ex
    else take 1 ds ++ "." ++ drop 1 ds ++ "e" ++ ex.

Definition number_toString (x : number) : string :=
  match x with
  | NaN => "NaN"
  | Infinity neg => if neg then "-Infinity" else "Infinity"
  | Dec neg c e =>
      if (c =? 0)%N then "0"
      else (if neg then "-" else EmptyString) ++ finite_toString c e
  end.

(** [toString] of an integer below 1e21, which is what row numbers are. *)
Definition int_toString (z : Z) : string :=
  (if z <? 0 then "-" else EmptyString) ++ digits (Z.abs_N z).

(** *** [parseInt] and [parseFloat] on strings *)

Definition digit_val (radix : N) (c : ascii) : option N :=
  let n := N_of_ascii c in
  let v :=
    if is_digit c then Some (n - 48)%N
    else if ((97 <=? n) && (n <=? 122))%N then Some (n - 87)%N
    else if ((65 <=? n) && (n <=? 90))%N then Some (n - 55)%N
    else None in
  match v with
  | Some d => if (d <? radix)%N then Some d else None
  | None => None
  end.

(** Reads the longest prefix of digits of [radix]; [acc] is [None] until a
    digit was read. *)
Fixpoint parse_digits (radix : N) (s : string) (acc : option N) : option N :=
  match s with
  | EmptyString => acc
  | String c r =>
      match digit_val radix c with
      | Some d =>
          parse_digits radix r
            (Some (match acc with Some a => a * radix + d | None => d end)%N)
      | None => acc
      end
  end.

(** Every character is a decimal digit. *)
Fixpoint all_decimal (s : string) : Prop :=
  match s with
  | EmptyString => True
  | String c r => digit_val 10 c <> None /\ all_decimal r
  end.

Definition read_sign (s : string) : bool * string :=
  match s with
  | String c r =>
      if Ascii.eqb c "-" then (true, r)
      else if Ascii.eqb c "+" then (false, r)
      else (false, s)
  | EmptyString => (false, s)
  end.

(** [parseInt(s)] with no radix argument, as the integer it reads; [None] is
    NaN.  The Number the call returns is [double_of_Z] of that integer.  The
    mapper takes that Number; the watermark arithmetic of the sync loop is
    done on the integer itself, which is the same thing for row numbers, all
    far below 2^53.  The sign of a zero result is not kept: the script only
    uses the result under [|| 0], in a comparison or in an addition, where
    both zeros behave alike. *)
Definition parseInt (s : string) : option Z :=
  let '(neg, s2) := read_sign (trimStart s) in
  let '(radix, s3) :=
    if starts_with "0x" s2 || starts_with "0X" s2 then (16%N, drop 2 s2)
    else (10%N, s2) in
  match parse_digits radix s3 None with
  | None => None
  | Some n => Some (if neg then - Z.of_N n else Z.of_N n)
  end.

Definition digits_value (s : string) : N :=
  match parse_digits 10 s None with
  | Some n => n
  | None => 0%N
  end.

(** The optional exponent part of a decimal literal: [e] or [E], an optional
    sign and at least one digit; anything else is no exponent. *)
Definition read_exponent (s : string) : Z :=
  match s with
  | String c r =>
      if Ascii.eqb c "e" || Ascii.eqb c "E" then
        let '(neg, r') := read_sign r in
        match parse_digits 10 r' None with
        | Some n => if neg then - Z.of_N n else Z.of_N n
        | None => 0
        end
      else 0
  | EmptyString => 0
  end.

(** [parseFloat(s)]: the Number value of the longest prefix that is a
    decimal literal. *)
Definition parseFloat (s : string) : number :=
  let '(neg, s2) := read_sign (trimStart s) in
  if starts_with "Infinity" s2 then Infinity neg
  else
    let '(ip, r1) := span is_digit s2 in
    let '(fp, r2) :=
      if starts_with "." r1 then span is_digit (drop 1 r1)
      else (EmptyString, r1) in
    if is_empty ip && is_empty fp then NaN
    else to_double neg (digits_value (ip ++ fp))
           (read_exponent r2 - Z.of_nat (String.length fp)).

(** *** Conversions and tests on values *)

(** The abstract operation ToString. *)
Definition ToString (v : value) : string :=
  match v with
  | VUndefined => "undefined"
  | VNull => "null"
  | VBool b => if b then "true" else "false"
  | VNum n => number_toString n
  | VStr s => s
  | VDate s => s
  end.

(** The method call [v.toString()]. *)
Definition toString (v : value) : result string :=
  match v with
  | VUndefined =>
      Throw (TypeError "Cannot read properties of undefined (reading 'toString')")
  | VNull =>
      Throw (TypeError "Cannot read properties of null (reading 'toString')")
  | _ => Ok (ToString v)
  end.

(** [!!v] *)
Definition truthy (v : value) : bool :=
  match v with
  | VUndefined | VNull => false
  | VBool b => b
  | VNum n => truthy_number n
  | VStr s => negb (is_empty s)
  | VDate _ => true
  end.

(** [v === 0] *)
Definition is_number_zero (v : value) : bool :=
  match v with
  | VNum n => is_zero n
  | _ => false
  end.

(** [n || 0] on a number. *)
Definition or_zero (n : number) : number :=
  if truthy_number n then n else zero.

(** [arr[i]]: [undefined] outside the array. *)
Definition index {A} (undef : A) (arr : list A) (i : nat) : A :=
  nth i arr undef.

(** [arr.join('')] *)
Fixpoint join (arr : list value) : string :=
  match arr with
  | [] => EmptyString
  | v :: r =>
      (match v with
       | VUndefined | VNull => EmptyString
       | _ => ToString v
       end) ++ join r
  end.

End Js.

(** ** Field mapper and validator *)

Module Mapper.
Import Js.

Notation "x <- r ;; k" := (rbind r (fun x => k))
  (at level 61, r at next level, right associativity).

(** One entry of [product.options]. *)
Record OptionGroup : Type :=
  { name : string; values : list string }.

(** One entry of [product.images]. *)
Record Image : Type := { src : string }.

(** [product.variants[0]]; a field that was never assigned is [None]. *)
Record Variant : Type :=
  { sku : option string;
    barcode : option string;
    price : option string;
    compare_at_price : option string;
    cost : option string;
    inventory_quantity : option number;
    weight : option number;
    weight_unit : option value;
    option1 : option string;
    option2 : option string }.

Record Product : Type :=
  { title : option value;
    body_html : option value;
    vendor : option value;
    product_type : option value;
    tags : option value;
    published : option bool;
    variants : list Variant;
    options : option (list OptionGroup);
    images : option (list Image) }.

(** [{}] *)
Definition empty_variant : Variant :=
  {| sku := None; barcode := None; price := None; compare_at_price := None;
     cost := None; inventory_quantity := None; weight := None;
     weight_unit := None; option1 := None; option2 := None |}.

(** [{ variants: [{}] }] *)
Definition initial_product : Product :=
  {| title := None; body_html := None; vendor := None; product_type := None;
     tags := None; published := None; variants := [empty_variant];
     options := None; images := None |}.

(** Assignments to one property, the others kept. *)
Definition set_title (x : value) (p : Product) : Product :=
  {| title := Some x; body_html := body_html p; vendor := vendor p;
     product_type := product_type p; tags := tags p; published := published p;
     variants := variants p; options := options p; images := images p |}.
Definition set_body_html (x : value) (p : Product) : Product :=
  {| title := title p; body_html := Some x; vendor := vendor p;
     product_type := product_type p; tags := tags p; published := published p;
     variants := variants p; options := options p; images := images p |}.
Definition set_vendor (x : value) (p : Product) : Product :=
  {| title := title p; body_html := body_html p; vendor := Some x;
     product_type := product_type p; tags := tags p; published := published p;
     variants := variants p; options := options p; images := images p |}.
Definition set_product_type (x : value) (p : Product) : Product :=
  {| title := title p; body_html := body_html p; vendor := vendor p;
     product_type := Some x; tags := tags p; published := published p;
     variants := variants p; options := options p; images := images p |}.
Definition set_tags (x : value) (p : Product) : Product :=
  {| title := title p; body_html := body_html p; vendor := vendor p;
     product_type := product_type p; tags := Some x; published := published p;
     variants := variants p; options := options p; images := images p |}.
Definition set_published (x : bool) (p : Product) : Product :=
  {| title := title p; body_html := body_html p; vendor := vendor p;
     product_type := product_type p; tags := tags p; published := Some x;
     variants := variants p; options := options p; images := images p |}.
Definition set_variants (x : list Variant) (p : Product) : Product :=
  {| title := title p; body_html := body_html p; vendor := vendor p;
     product_type := product_type p; tags := tags p; published := published p;
     variants := x; options := options p; images := images p |}.
Definition set_options (x : list OptionGroup) (p : Product) : Product :=
  {| title := title p; body_html := body_html p; vendor := vendor p;
     product_type := product_type p; tags := tags p; published := published p;
     variants := variants p; options := Some x; images := images p |}.
Definition set_images (x : list Image) (p : Product) : Product :=
  {| title := title p; body_html := body_html p; vendor := vendor p;
     product_type := product_type p; tags := tags p; published := published p;
     variants := variants p; options := options p; images := Some x |}.

Definition set_sku (x : string) (v : Variant) : Variant :=
  {| sku := Some x; barcode := barcode v; price := price v;
     compare_at_price := compare_at_price v; cost := cost v;
     inventory_quantity := inventory_quantity v; weight := weight v;
     weight_unit := weight_unit v; option1 := option1 v; option2 := option2 v |}.
Definition set_barcode (x : string) (v : Variant) : Variant :=
  {| sku := sku v; barcode := Some x; price := price v;
     compare_at_price := compare_at_price v; cost := cost v;
     inventory_quantity := inventory_quantity v; weight := weight v;
     weight_unit := weight_unit v; option1 := option1 v; option2 := option2 v |}.
Definition set_price (x : string) (v : Variant) : Variant :=
  {| sku := sku v; barcode := barcode v; price := Some x;
     compare_at_price := compare_at_price v; cost := cost v;
     inventory_quantity := inventory_quantity v; weight := weight v;
     weight_unit := weight_unit v; option1 := option1 v; option2 := option2 v |}.
Definition set_compare_at_price (x : string) (v : Variant) : Variant :=
  {| sku := sku v; barcode := barcode v; price := price v;
     compare_at_price := Some x; cost := cost v;
     inventory_quantity := inventory_quantity v; weight := weight v;
     weight_unit := weight_unit v; option1 := option1 v; option2 := option2 v |}.
Definition set_cost (x : string) (v : Variant) : Variant :=
  {| sku := sku v; barcode := barcode v; price := price v;
     compare_at_price := compare_at_price v; cost := Some x;
     inventory_quantity := inventory_quantity v; weight := weight v;
     weight_unit := weight_unit v; option1 := option1 v; option2 := option2 v |}.
Definition set_inventory_quantity (x : number) (v : Variant) : Variant :=
  {| sku := sku v; barcode := barcode v; price := price v;
     compare_at_price := compare_at_price v; cost := cost v;
     inventory_quantity := Some x; weight := weight v;
     weight_unit := weight_unit v; option1 := option1 v; option2 := option2 v |}.
Definition set_weight (x : number) (v : Variant) : Variant :=
  {| sku := sku v; barcode := barcode v; price := price v;
     compare_at_price := compare_at_price v; cost := cost v;
     inventory_quantity := inventory_quantity v; weight := Some x;
     weight_unit := weight_unit v; option1 := option1 v; option2 := option2 v |}.
Definition set_weight_unit (x : value) (v : Variant) : Variant :=
  {| sku := sku v; barcode := barcode v; price := price v;
     compare_at_price := compare_at_price v; cost := cost v;
     inventory_quantity := inventory_quantity v; weight := weight v;
     weight_unit := Some x; option1 := option1 v; option2 := option2 v |}.
Definition set_option1 (x : string) (v : Variant) : Variant :=
  {| sku := sku v; barcode := barcode v; price := price v;
     compare_at_price := compare_at_price v; cost := cost v;
     inventory_quantity := inventory_quantity v; weight := weight v;
     weight_unit := weight_unit v; option1 := Some x; option2 := option2 v |}.
Definition set_option2 (x : string) (v : Variant) : Variant :=
  {| sku := sku v; barcode := barcode v; price := price v;
     compare_at_price := compare_at_price v; cost := cost v;
     inventory_quantity := inventory_quantity v; weight := weight v;
     weight_unit := weight_unit v; option1 := option1 v; option2 := Some x |}.

(** [product.variants[0].f = x]: a TypeError when the array has no first
    element. *)
Definition on_variant0 (f : Variant -> Variant) (p : Product) : result Product :=
  match variants p with
  | v :: vs => Ok (set_variants (f v :: vs) p)
  | [] => Throw (TypeError "Cannot set properties of undefined")
  end.

(** The groups of case labels of the [switch], one per property written. *)
Inductive field : Type :=
| FTitle | FBodyHtml | FVendor | FProductType | FTags | FPublished
| FSku | FBarcode | FPrice | FCompareAtPrice | FCost
| FInventoryQuantity | FWeight | FWeightUnit
| FOption1 | FOption2 | FImages.

Definition field_eq_dec (f g : field) : {f = g} + {f <> g}.
Proof. decide equality. Defined.

Definition one_of (labels : list string) (h : string) : bool :=
  existsb (String.eqb h) labels.

(** The case label that [headerLower] is strictly equal to, if any. *)
Definition canonical (headerLower : string) : option field :=
  if one_of ["title"; "product name"; "name"] headerLower then Some FTitle
  else if one_of ["description"; "body"; "body_html"] headerLower then Some FBodyHtml
  else if one_of ["vendor"; "brand"; "manufacturer"] headerLower then Some FVendor
  else if one_of ["product type"; "type"; "category"] headerLower then Some FProductType
  else if one_of ["tags"; "keywords"] headerLower then Some FTags
  else if one_of ["published"; "status"] headerLower then Some FPublished
  else if one_of ["sku"; "product code"] headerLower then Some FSku
  else if one_of ["barcode"; "upc"; "ean"; "isbn"; "gtin"] headerLower then Some FBarcode
  else if one_of ["price"; "retail price"] headerLower then Some FPrice
  else if one_of ["compare at price"; "compare price"; "msrp"] headerLower
       then Some FCompareAtPrice
  else if one_of ["cost"; "cost price"] headerLower then Some FCost
  else if one_of ["inventory"; "quantity"; "stock"] headerLower
       then Some FInventoryQuantity
  else if one_of ["weight"] headerLower then Some FWeight
  else if one_of ["weight unit"] headerLower then Some FWeightUnit
  else if one_of ["option1"; "size"] headerLower then Some FOption1
  else if one_of ["option2"; "color"] headerLower then Some FOption2
  else if one_of ["image"; "image url"; "product image"] headerLower then Some FImages
  else None.

(** The case labels that select [f]. *)
Definition aliases (f : field) : list string :=
  match f with
  | FTitle => ["title"; "product name"; "name"]
  | FBodyHtml => ["description"; "body"; "body_html"]
  | FVendor => ["vendor"; "brand"; "manufacturer"]
  | FProductType => ["product type"; "type"; "category"]
  | FTags => ["tags"; "keywords"]
  | FPublished => ["published"; "status"]
  | FSku => ["sku"; "product code"]
  | FBarcode => ["barcode"; "upc"; "ean"; "isbn"; "gtin"]
  | FPrice => ["price"; "retail price"]
  | FCompareAtPrice => ["compare at price"; "compare price"; "msrp"]
  | FCost => ["cost"; "cost price"]
  | FInventoryQuantity => ["inventory"; "quantity"; "stock"]
  | FWeight => ["weight"]
  | FWeightUnit => ["weight unit"]
  | FOption1 => ["option1"; "size"]
  | FOption2 => ["option2"; "color"]
  | FImages => ["image"; "image url"; "product image"]
  end.

(** [value === s] for a string literal [s]. *)
Definition is_string (s : string) (v : value) : bool :=
  match v with
  | VStr t => String.eqb t s
  | _ => false
  end.

(** [value === true] *)
Definition is_true (v : value) : bool :=
  match v with
  | VBool b => b
  | _ => false
  end.

(** The right-hand side of the [published] case. *)
Definition published_of (v : value) : bool :=
  is_true v || is_string "true" v || is_string "yes" v || is_string "published" v.

(** [parseInt(value)] as a number. *)
Definition parseInt_value (v : value) : number :=
  match parseInt (ToString v) with
  | Some z => double_of_Z z
  | None => NaN
  end.

(** [parseFloat(value)] *)
Definition parseFloat_value (v : value) : number := parseFloat (ToString v).

(** The body of the case of [f]. *)
Definition assign (f : field) (value : value) (product : Product)
  : result Product :=
  match f with
  | FTitle => Ok (set_title value product)
  | FBodyHtml => Ok (set_body_html value product)
  | FVendor => Ok (set_vendor value product)
  | FProductType => Ok (set_product_type value product)
  | FTags => Ok (set_tags value product)
  | FPublished => Ok (set_published (published_of value) product)
  | FSku => s <- toString value ;; on_variant0 (set_sku s) product
  | FBarcode => s <- toString value ;; on_variant0 (set_barcode s) product
  | FPrice => s <- toString value ;; on_variant0 (set_price s) product
  | FCompareAtPrice =>
      s <- toString value ;; on_variant0 (set_compare_at_price s) product
  | FCost => s <- toString value ;; on_variant0 (set_cost s) product
  | FInventoryQuantity =>
      on_variant0 (set_inventory_quantity (or_zero (parseInt_value value))) product
  | FWeight =>
      on_variant0 (set_weight (or_zero (parseFloat_value value))) product
  | FWeightUnit => on_variant0 (set_weight_unit value) product
  | FOption1 =>
      s <- toString value ;;
      product1 <- on_variant0 (set_option1 s) product ;;
      match options product1 with
      | None =>
          s' <- toString value ;;
          Ok (set_options [ {| name := "Size"; values := [s'] |} ] product1)
      | Some _ => Ok product1
      end
  | FOption2 =>
      s <- toString value ;;
      product1 <- on_variant0 (set_option2 s) product ;;
      let product2 :=
        match options product1 with
        | None =>
            set_options [ {| name := "Size"; values := ["Default"] |} ] product1
        | Some _ => product1
        end in
      match options product2 with
      | Some opts =>
          if (length opts <? 2)%nat then
            s' <- toString value ;;
            Ok (set_options (opts ++ [ {| name := "Color"; values := [s'] |} ])
                  product2)
          else Ok product2
      | None => Throw (TypeError "Cannot read properties of undefined (reading 'length')")
      end
  | FImages =>
      if truthy value then
        s <- toString value ;;
        if negb (is_empty (trim s)) then
          s' <- toString value ;;
          Ok (set_images [ {| src := trim s' |} ] product)
        else Ok product
      else Ok product
  end.

(** [!value && value !== 0], the guard that ends the callback early. *)
Definition skipped (value : value) : bool :=
  negb (truthy value) && negb (is_number_zero value).

(** The callback of [headers.forEach], for one [header] and the cell
    [rowData[index]] under it. *)
Definition mapColumn (product : Product) (header value : value)
  : result Product :=
  if skipped value then Ok product
  else
    h <- toString header ;;
    let headerLower := trim (toLowerCase h) in
    match canonical headerLower with
    | Some f => assign f value product
    | None => Ok product
    end.

(** [headers.forEach((header, index) => ...)] from position [index] on. *)
Fixpoint forEach (headers : list value) (index : nat) (rowData : list value)
  (product : Product) : result Product :=
  match headers with
  | [] => Ok product
  | header :: rest =>
      product' <- mapColumn product header (Js.index VUndefined rowData index) ;;
      forEach rest (S index) rowData product'
  end.

Definition mapRowToProduct (headers rowData : list value) : result Product :=
  forEach headers 0 rowData initial_product.

(** [!!product.title] *)
Definition isValidProduct (product : Product) : bool :=
  match title product with
  | Some t => truthy t
  | None => false
  end.

(** *** Reading a mapped product *)

(** What a property of the product can hold. *)
Inductive fval : Type :=
| FRaw (v : value)
| FText (s : string)
| FFlag (b : bool)
| FNumber (n : number)
| FImageList (l : list Image).

(** [product.variants[0]] *)
Definition variant0 (p : Product) : option Variant := hd_error (variants p).

Definition of_variant0 {A} (get : Variant -> option A) (p : Product) : option A :=
  match variant0 p with
  | Some v => get v
  | None => None
  end.

(** The property that the case of [f] assigns; [None] when it is unset. *)
Definition read_field (f : field) (p : Product) : option fval :=
  match f with
  | FTitle => option_map FRaw (title p)
  | FBodyHtml => option_map FRaw (body_html p)
  | FVendor => option_map FRaw (vendor p)
  | FProductType => option_map FRaw (product_type p)
  | FTags => option_map FRaw (tags p)
  | FPublished => option_map FFlag (published p)
  | FSku => option_map FText (of_variant0 sku p)
  | FBarcode => option_map FText (of_variant0 barcode p)
  | FPrice => option_map FText (of_variant0 price p)
  | FCompareAtPrice => option_map FText (of_variant0 compare_at_price p)
  | FCost => option_map FText (of_variant0 cost p)
  | FInventoryQuantity => option_map FNumber (of_variant0 inventory_quantity p)
  | FWeight => option_map FNumber (of_variant0 weight p)
  | FWeightUnit => option_map FRaw (of_variant0 weight_unit p)
  | FOption1 => option_map FText (of_variant0 option1 p)
  | FOption2 => option_map FText (of_variant0 option2 p)
  | FImages => option_map FImageList (images p)
  end.

(** The cell [value] as the case of [f] converts it for that property;
    [None] when the case assigns nothing, which only the image case does. *)
Definition converted (f : field) (value : value) : option fval :=
  match f with
  | FTitle | FBodyHtml | FVendor | FProductType | FTags | FWeightUnit =>
      Some (FRaw value)
  | FPublished => Some (FFlag (published_of value))
  | FSku | FBarcode | FPrice | FCompareAtPrice | FCost | FOption1 | FOption2 =>
      Some (FText (ToString value))
  | FInventoryQuantity => Some (FNumber (or_zero (parseInt_value value)))
  | FWeight => Some (FNumber (or_zero (parseFloat_value value)))
  | FImages =>
      if truthy value && negb (is_empty (trim (ToString value)))
      then Some (FImageList [ {| src := trim (ToString value) |} ])
      else None
  end.

(** The case that the column under [header] selects. *)
Definition header_field (header : value) : option field :=
  match toString header with
  | Ok h => canonical (trim (toLowerCase h))
  | Throw _ => None
  end.

(** The column under [header] holding [value] runs the case of [f]. *)
Definition writes (f : field) (header value : value) : bool :=
  negb (skipped value) &&
  match header_field header with
  | Some g => if field_eq_dec f g then true else false
  | None => false
  end.

(** The product after the callback ran on the first [n] columns. *)
Definition after_columns (headers rowData : list value) (n : nat)
  : result Product :=
  forEach (firstn n headers) 0 rowData initial_product.

(** The options sequence after an option1 or size cell [s]. *)
Definition seed_size (s : string) (opts : option (list OptionGroup))
  : list OptionGroup :=
  match opts with
  | None => [ {| name := "Size"; values := [s] |} ]
  | Some o => o
  end.

(** The options sequence after an option2 or color cell [s]. *)
Definition seed_color (s : string) (opts : option (list OptionGroup))
  : list OptionGroup :=
  let o := match opts with
           | None => [ {| name := "Size"; values := ["Default"] |} ]
           | Some o => o
           end in
  if (length o <? 2)%nat then o ++ [ {| name := "Color"; values := [s] |} ]
  else o.

(** A cell that is falsy. *)
Definition falsy (v : value) : bool := negb (truthy v).

(** A header on which [toString()] can be called. *)
Definition header_defined (h : value) : bool :=
  match h with
  | VUndefined | VNull => false
  | _ => true
  end.

(** [rowData[i]] *)
Definition cell (rowData : list value) (i : nat) : value :=
  Js.index VUndefined rowData i.

End Mapper.

(** ** Sync loop and catalog client *)

Module Sync.
Import Js Mapper.

(** *** Configuration *)

Definition SHOPIFY_STORE : string := "your-store.myshopify.com".
Definition SHOPIFY_ACCESS_TOKEN : string := "your-access-token".
Definition TIMESTAMP_COLUMN : string := "K".

(** *** The world the script runs in *)

(** The active sheet.  [rows] is its data range, from row 1 (the headers) to
    the last row with content, with all its columns, [TIMESTAMP_COLUMN]
    among them; a row may be shorter than the range is wide, the cells it
    lacks being empty.  [status_column] is the trace of the calls of
    [setValue] on [TIMESTAMP_COLUMN]: row number and text, in the order of the
    calls. *)
Record Sheet : Type :=
  { rows : list (list value);
    status_column : list (Z * string) }.

(** The argument of [UrlFetchApp.fetch]. *)
Record Request : Type :=
  { url : string;
    method : string;
    contentType : string;
    access_token : string;
    payload : string;
    muteHttpExceptions : bool }.

Record HTTPResponse : Type :=
  { getResponseCode : Z;
    getContentText : string }.

Record World : Type :=
  { sheet : Sheet;
    properties : list (string * string);
    log : list string;
    requests : list Request }.

(** A parsed JSON text. *)
#[local] Unset Elimination Schemes.
Inductive json : Type :=
| JNull
| JBool (b : bool)
| JNumber (n : number)
| JString (s : string)
| JArray (elements : list json)
| JObject (members : list (string * json)).
#[local] Set Elimination Schemes.

(** What [createShopifyProduct] returns: [{success: true, id, data}] or
    [{success: false, error}]; an [id] of [None] is [undefined]. *)
Inductive ApiResult : Type :=
| Success (id : option json) (data : json)
| Failure (error : string).

Definition success (r : ApiResult) : bool :=
  match r with
  | Success _ _ => true
  | Failure _ => false
  end.

(** *** Exceptions and state *)

Definition M (A : Type) : Type := World -> result A * World.

Definition ret {A} (a : A) : M A := fun w => (Ok a, w).

Definition throw {A} (e : exn) : M A := fun w => (Throw e, w).

Definition bind {A B} (m : M A) (k : A -> M B) : M B :=
  fun w =>
    match m w with
    | (Ok a, w') => k a w'
    | (Throw e, w') => (Throw e, w')
    end.

Definition lift {A} (r : result A) : M A := fun w => (r, w).

(** [try { body } catch (error) { handler }]: what [body] did to the world
    before it threw stays done. *)
Definition try_catch {A} (body : M A) (handler : exn -> M A) : M A :=
  fun w =>
    match body w with
    | (Ok a, w') => (Ok a, w')
    | (Throw e, w') => handler e w'
    end.

Notation "x <-- m ;; k" := (bind m (fun x => k))
  (at level 61, m at next level, right associativity).
Notation "m ;;; k" := (bind m (fun _ => k))
  (at level 61, right associativity).

(** *** Host services *)

(** The logger, the property store and the sheet are taken to answer every
    call; exceptions come from the remote end, the JSON parser, property
    access on [null] or [undefined], and the mapper. *)

Definition set_sheet (s : Sheet) (w : World) : World :=
  {| sheet := s; properties := properties w; log := log w;
     requests := requests w |}.
Definition set_properties (ps : list (string * string)) (w : World) : World :=
  {| sheet := sheet w; properties := ps; log := log w;
     requests := requests w |}.
Definition set_log (l : list string) (w : World) : World :=
  {| sheet := sheet w; properties := properties w; log := l;
     requests := requests w |}.
Definition set_requests (r : list Request) (w : World) : World :=
  {| sheet := sheet w; properties := properties w; log := log w;
     requests := r |}.

(** The world with one more line in the log. *)
Definition logged (msg : string) (w : World) : World :=
  set_log (log w ++ [msg]) w.

(** [Logger.log(msg)] *)
Definition Logger_log (msg : string) : M unit :=
  fun w => (Ok tt, logged msg w).

(** [properties.getProperty(key)]; [None] is [null]. *)
Fixpoint lookup (key : string) (ps : list (string * string)) : option string :=
  match ps with
  | [] => None
  | (k, v) :: r => if String.eqb k key then Some v else lookup key r
  end.

Definition getProperty (key : string) : M (option string) :=
  fun w => (Ok (lookup key (properties w)), w).

(** [properties.setProperty(key, v)]: the value of an existing key is
    replaced. *)
Fixpoint put (key v : string) (ps : list (string * string))
  : list (string * string) :=
  match ps with
  | [] => [(key, v)]
  | (k, x) :: r =>
      if String.eqb k key then (key, v) :: r else (k, x) :: put key v r
  end.

Definition setProperty (key v : string) : M unit :=
  fun w => (Ok tt, set_properties (put key v (properties w)) w).

(** [sheet.getDataRange().getValues()]: the data range of a sheet without
    content is the single empty cell A1. *)
Definition getValues (s : Sheet) : list (list value) :=
  match rows s with
  | [] => [[VStr EmptyString]]
  | _ => rows s
  end.

(** [sheet.getLastRow()] *)
Definition getLastRow (s : Sheet) : Z := Z.of_nat (length (rows s)).

Definition getLastDataRow (s : Sheet) : Z :=
  let lastRow := getLastRow s in
  lastRow.

(** The position in a row of the column named by one capital letter. *)
Definition column_index (name : string) : nat :=
  match name with
  | String c EmptyString => N.to_nat (N_of_ascii c - 65)
  | _ => O
  end.

(** The row with [x] in position [i], filled up with empty cells when it is
    shorter. *)
Fixpoint set_cell (i : nat) (x : value) (row : list value) : list value :=
  match i, row with
  | O, [] => [x]
  | O, _ :: t => x :: t
  | S i', [] => VStr EmptyString :: set_cell i' x []
  | S i', c :: t => c :: set_cell i' x t
  end.

(** The rows with [x] in position [i] of the row at position [r]. *)
Fixpoint set_row_cell (r i : nat) (x : value) (rows : list (list value))
  {struct rows} : list (list value) :=
  match rows with
  | [] => []
  | row :: t =>
      match r with
      | O => set_cell i x row :: t
      | S r' => row :: set_row_cell r' i x t
      end
  end.

(** The data range after [setValue(status)] on the cell of
    [TIMESTAMP_COLUMN] in row [rowNum], for a row of the data range, which
    is where the script writes (lemma [pass_writes_in_range]).  A write below
    the last row would extend the sheet; the script makes none, and none is
    modelled. *)
Definition write_status (rowNum : Z) (status : string) (rows : list (list value))
  : list (list value) :=
  if rowNum <? 1 then rows
  else set_row_cell (Z.to_nat (rowNum - 1)) (column_index TIMESTAMP_COLUMN)
         (VStr status) rows.

(** The world with [status] written to the status cell of row [rowNum]. *)
Definition with_status (rowNum : Z) (status : string) (w : World) : World :=
  set_sheet {| rows := write_status rowNum status (rows (sheet w));
               status_column := status_column (sheet w) ++ [(rowNum, status)] |}
    w.

(** [sheet.getRange(TIMESTAMP_COLUMN + rowNum).setValue(status)], on the
    active sheet, which is the only sheet the script is given. *)
Definition updateSyncStatus (rowNum : Z) (status : string) : M unit :=
  fun w => (Ok tt, with_status rowNum status w).

(** [arr[i]] for a number [i]; [None] is [undefined]. *)
Definition at_index {A} (arr : list A) (i : Z) : option A :=
  if i <? 0 then None else nth_error arr (Z.to_nat i).

(** [j[key]] for the keys ["product"] and ["id"], which no primitive, array
    or string has: a TypeError on [null], the member of an object, and
    otherwise [undefined]. *)
Fixpoint member (key : string) (ms : list (string * json)) : option json :=
  match ms with
  | [] => None
  | (k, v) :: r => if String.eqb k key then Some v else member key r
  end.

Definition get (j : json) (key : string) : result (option json) :=
  match j with
  | JNull =>
      Throw (TypeError ("Cannot read properties of null (reading '" ++ key ++ "')"))
  | JObject ms => Ok (member key ms)
  | _ => Ok None
  end.

(** [!!j] for a value that may be [undefined]. *)
Definition truthy_json (j : option json) : bool :=
  match j with
  | None | Some JNull => false
  | Some (JBool b) => b
  | Some (JNumber n) => truthy_number n
  | Some (JString s) => negb (is_empty s)
  | Some (JArray _) | Some (JObject _) => true
  end.

Fixpoint join_with (sep : string) (l : list string) : string :=
  match l with
  | [] => EmptyString
  | [x] => x
  | x :: r => x ++ sep ++ join_with sep r
  end.

(** ToString of a JSON value, as string concatenation applies it. *)
Fixpoint json_ToString (j : json) : string :=
  match j with
  | JNull => "null"
  | JBool b => if b then "true" else "false"
  | JNumber n => number_toString n
  | JString s => s
  | JArray l =>
      join_with ","
        (map (fun e => match e with JNull => EmptyString | _ => json_ToString e end) l)
  | JObject _ => "[object Object]"
  end.

Definition id_ToString (id : option json) : string :=
  match id with
  | None => "undefined"
  | Some j => json_ToString j
  end.

(** *** The script's functions *)

(** What the script cannot compute by itself: the JSON codec, the remote
    end and the clock.  The remote end answers a request knowing the requests
    sent before it, and may fail to answer; the clock is read after a request
    was answered. *)
Record Host : Type :=
  { JSON_stringify_product : Product -> string;
    JSON_stringify : json -> string;
    JSON_parse : string -> result json;
    UrlFetchApp_fetch : list Request -> Request -> result HTTPResponse;
    Date_toLocaleString : list Request -> string }.

Section Host.

Variable host : Host.

Definition fetch (apiUrl : string) (options : Request) : M HTTPResponse :=
  fun w =>
    (UrlFetchApp_fetch host (requests w) options,
     set_requests (requests w ++ [options]) w).

(** The error text of a response that is not accepted. *)
Definition api_error (responseCode : Z) (responseBody : json) : string :=
  "API Error (" ++ int_toString responseCode ++ "): "
  ++ JSON_stringify host responseBody.

Definition now_toLocaleString : M string :=
  fun w => (Ok (Date_toLocaleString host (requests w)), w).

(** The URL and the options of the POST for [product]. *)
Definition apiUrl : string :=
  "https://" ++ SHOPIFY_STORE ++ "/admin/api/2023-07/products.json".

Definition request_of (product : Product) : Request :=
  {| url := apiUrl;
     method := "post";
     contentType := "application/json";
     access_token := SHOPIFY_ACCESS_TOKEN;
     payload := JSON_stringify_product host product;
     muteHttpExceptions := true |}.

Definition createShopifyProduct (product : Product) : M ApiResult :=
  try_catch
    (let options := request_of product in
     response <-- fetch apiUrl options ;;
     let responseCode := getResponseCode response in
     responseBody <-- lift (JSON_parse host (getContentText response)) ;;
     let failure := Failure (api_error responseCode responseBody) in
     if (200 <=? responseCode) && (responseCode <? 300) then
       body_product <-- lift (get responseBody "product") ;;
       match body_product with
       | Some data =>
           if truthy_json body_product then
             id <-- lift (get data "id") ;;
             ret (Success id data)
           else ret failure
       | None => ret failure
       end
     else ret failure)
    (fun error => ret (Failure (exn_toString error))).

(** [mapRowToProduct(headers, rowData)], where [headers] is [data[0]] and
    may be [undefined]. *)
Definition map_row (headers : option (list value)) (rowData : list value)
  : result Product :=
  match headers with
  | Some hs => mapRowToProduct hs rowData
  | None =>
      Throw (TypeError "Cannot read properties of undefined (reading 'forEach')")
  end.

(** The text of the validation error of row [rowIndex]. *)
Definition invalid_message (rowIndex : Z) : string :=
  "Row " ++ int_toString rowIndex
  ++ ": Invalid product data (missing required fields)".

(** The body of the [for] loop of [checkForNewProducts]. *)
Definition processRow (headers : option (list value)) (data : list (list value))
  (rowIndex : Z) : M unit :=
  match at_index data (rowIndex - 1) with
  | None =>
      throw (TypeError "Cannot read properties of undefined (reading 'join')")
  | Some rowData =>
      if is_empty (trim (join rowData)) then ret tt
      else
        try_catch
          (product <-- lift (map_row headers rowData) ;;
           if negb (isValidProduct product) then
             let errorMessage := invalid_message rowIndex in
             Logger_log errorMessage ;;;
             updateSyncStatus rowIndex ("ERROR: " ++ errorMessage)
           else
             response <-- createShopifyProduct product ;;
             match response with
             | Success id _ =>
                 now <-- now_toLocaleString ;;
                 updateSyncStatus rowIndex
                   ("Synced: " ++ now ++ " (ID: " ++ id_ToString id ++ ")") ;;;
                 Logger_log ("Successfully created product from row "
                             ++ int_toString rowIndex ++ " (Shopify ID: "
                             ++ id_ToString id ++ ")")
             | Failure error =>
                 updateSyncStatus rowIndex ("ERROR: " ++ error) ;;;
                 Logger_log ("Failed to create product from row "
                             ++ int_toString rowIndex ++ ": " ++ error)
             end)
          (fun error =>
             Logger_log ("Error processing row " ++ int_toString rowIndex
                         ++ ": " ++ exn_toString error) ;;;
             updateSyncStatus rowIndex ("ERROR: " ++ exn_toString error))
  end.

(** [for (let rowIndex = first; ...; rowIndex++)] with [count] iterations
    left. *)
Fixpoint forRows (headers : option (list value)) (data : list (list value))
  (count : nat) (rowIndex : Z) : M unit :=
  match count with
  | O => ret tt
  | S count' =>
      processRow headers data rowIndex ;;;
      forRows headers data count' (rowIndex + 1)
  end.

(** [parseInt(properties.getProperty('lastProcessedRow') || '0')];
    [None] is NaN. *)
Definition read_lastProcessedRow (stored : option string) : option Z :=
  parseInt (match stored with
            | Some s => if is_empty s then "0" else s
            | None => "0"
            end).

Definition checkForNewProducts : M unit :=
  fun w =>
    (let sheet := sheet w in
     stored <-- getProperty "lastProcessedRow" ;;
     let lastProcessedRow := read_lastProcessedRow stored in
     let data := getValues sheet in
     let headers := at_index data 0 in
     let currentLastRow := getLastDataRow sheet in
     match lastProcessedRow with
     | Some lastProcessedRow =>
         if lastProcessedRow <? currentLastRow then
           Logger_log ("Found " ++ int_toString (currentLastRow - lastProcessedRow)
                       ++ " new rows to process") ;;;
           forRows headers data
             (Z.to_nat (currentLastRow - lastProcessedRow))
             (lastProcessedRow + 1) ;;;
           setProperty "lastProcessedRow" (int_toString currentLastRow)
         else Logger_log "No new rows to process"
     | None => Logger_log "No new rows to process"
     end) w.

Definition initializeTracking : M unit :=
  stored <-- getProperty "lastProcessedRow" ;;
  match stored with
  | Some s =>
      if is_empty s then
        fun w =>
          (let lastRow := getLastDataRow (sheet w) in
           setProperty "lastProcessedRow" (int_toString lastRow) ;;;
           Logger_log ("Initialized tracking at row " ++ int_toString lastRow)) w
      else ret tt
  | None =>
      fun w =>
        (let lastRow := getLastDataRow (sheet w) in
         setProperty "lastProcessedRow" (int_toString lastRow) ;;;
         Logger_log ("Initialized tracking at row " ++ int_toString lastRow)) w
  end.

Definition resetTracking : M unit :=
  fun w =>
    (let lastRow := getLastDataRow (sheet w) in
     setProperty "lastProcessedRow" (int_toString lastRow) ;;;
     Logger_log ("Tracking reset. Will only process rows after row "
                 ++ int_toString lastRow)) w.


(** What the remote end answers to the POST for [p] sent from [w], as far as
    the try block gets: the response code and the parsed body, or what was
    thrown. *)
Definition answer (p : Product) (w : World) : result (Z * json) :=
  rbind (UrlFetchApp_fetch host (requests w) (request_of p))
    (fun response =>
       rbind (JSON_parse host (getContentText response))
         (fun responseBody => Ok (getResponseCode response, responseBody))).

(** The [product] member of [body] is there and truthy. *)
Definition has_product (body : json) (data : json) : Prop :=
  get body "product" = Ok (Some data) /\ truthy_json (Some data) = true.

(** *** Reading a pass *)

(** The watermark as the next pass will read it; [None] is NaN. *)
Definition watermark (w : World) : option Z :=
  read_lastProcessedRow (lookup "lastProcessedRow" (properties w)).

(** The texts written to the status column so far. *)
Definition outcomes (w : World) : list (Z * string) := status_column (sheet w).

(** [rowData.join('').trim() === ''] *)
Definition is_blank (rowData : list value) : bool :=
  is_empty (trim (join rowData)).

(** The world when the loop of a pass that found new rows starts. *)
Definition loop_start (w : World) (lastProcessedRow : Z) : World :=
  logged ("Found " ++ int_toString (getLastDataRow (sheet w) - lastProcessedRow)
          ++ " new rows to process") w.

(** The world with [request] sent. *)
Definition sent (request : Request) (w : World) : World :=
  set_requests (requests w ++ [request]) w.

(** The world when that loop reaches row [r]: the rows from
    [lastProcessedRow + 1] to [r - 1] have been through the loop body. *)
Definition before_row (w : World) (lastProcessedRow r : Z) : World :=
  snd (forRows (at_index (getValues (sheet w)) 0) (getValues (sheet w))
         (Z.to_nat (r - 1 - lastProcessedRow)) (lastProcessedRow + 1)
         (loop_start w lastProcessedRow)).

(** The remote create of [product], sent from world [w], does not succeed. *)
Definition remote_fails (product : Product) (w : World) : bool :=
  match fst (createShopifyProduct product w) with
  | Ok (Success _ _) => false
  | _ => true
  end.

(** The row fails in world [w]: its mapping throws, or the mapped product is
    invalid, or the remote create does not succeed. *)
Definition row_fails (headers : option (list value)) (rowData : list value)
  (w : World) : bool :=
  match map_row headers rowData with
  | Throw _ => true
  | Ok product => negb (isValidProduct product) || remote_fails product w
  end.

End Host.

(** Worlds that follow one another: a pass of the sync loop, against any
    remote end and clock, or an edit of the sheet between two passes. *)
Inductive follows : World -> World -> Prop :=
| follows_refl (w : World) : follows w w
| follows_pass (host : Host) (w w' w'' : World) (r : result unit) :
    checkForNewProducts host w = (r, w') -> follows w' w'' -> follows w w''
| follows_edit (s : Sheet) (w w'' : World) :
    follows (set_sheet s w) w'' -> follows w w''.

End Sync.

(** ** A sheet, a remote end and a clock to run the script on *)

Module Example.
Import Js Mapper Sync.

(** The remote end accepts the first product, rejects the second with 422
    and cannot be reached afterwards. *)
Definition host : Host :=
  {| JSON_stringify_product := fun p => "{product}";
     JSON_stringify := fun j =>
       match j with
       | JObject [("errors", _)] => "{errors:{title:[can't be blank]}}"
       | _ => "{}"
       end;
     JSON_parse := fun s =>
       if String.eqb s "created" then
         Ok (JObject [("product", JObject [("id", JNumber (of_Z 42))])])
       else if String.eqb s "rejected" then
         Ok (JObject [("errors", JObject [("title", JArray [JString "can't be blank"])])])
       else Throw (SyntaxError "Unexpected token");
     UrlFetchApp_fetch := fun sent _ =>
       match sent with
       | [] => Ok {| getResponseCode := 201; getContentText := "created" |}
       | [_] => Ok {| getResponseCode := 422; getContentText := "rejected" |}
       | _ => Throw (Exn "Exception" "Address unavailable")
       end;
     Date_toLocaleString := fun _ => "11/3/2026, 9:00:00 AM" |}.

(** A remote end that answers 200 with a body whose [product] member is the
    boolean true. *)
Definition odd_host : Host :=
  {| JSON_stringify_product := fun p => "{product}";
     JSON_stringify := fun j => "{}";
     JSON_parse := fun s => Ok (JObject [("product", JBool true)]);
     UrlFetchApp_fetch := fun sent _ =>
       Ok {| getResponseCode := 200; getContentText := "{product:true}" |};
     Date_toLocaleString := fun _ => "11/3/2026, 9:00:00 AM" |}.

(** The no-break space U+00A0. *)
Definition nbsp : string := String (ascii_of_N 160) EmptyString.

(** A sheet whose row 2 holds nothing but the status text of an earlier
    pass, and whose watermark was set back to 1. *)
Definition resync_world : World :=
  {| sheet :=
       {| rows := [ [VStr "Title"; VStr "Barcode"];
                    [VStr EmptyString; VStr EmptyString; VStr EmptyString;
                     VStr EmptyString; VStr EmptyString; VStr EmptyString;
                     VStr EmptyString; VStr EmptyString; VStr EmptyString;
                     VStr EmptyString; VStr "Synced: earlier"] ];
          status_column := [] |};
     properties := [("lastProcessedRow", "1")];
     log := [];
     requests := [] |}.

(** A header row, one tracked row and six new rows: a valid one, a blank
    one, one without a title, and three more valid ones. *)
Definition world : World :=
  {| sheet :=
       {| rows := [ [VStr "Title"; VStr "Barcode"];
                    [VStr "Old"; VStr "1"];
                    [VStr "Widget"; VNum (of_Z 12345)];
                    [VStr EmptyString; VStr " "];
                    [VStr EmptyString; VStr "012345"];
                    [VStr "Gadget"; VStr EmptyString];
                    [VStr "Gizmo"; VStr EmptyString];
                    [VStr "Thing"; VStr EmptyString] ];
          status_column := [] |};
     properties := [("lastProcessedRow", "2")];
     log := [];
     requests := [] |}.

End Example.

(** ** Triggers and setup *)

Module Project.
Import Js Mapper Sync.

Definition CHECK_FREQUENCY : Z := 5.

(** A time-based trigger of the project: the function it runs and its
    period in minutes.  Two triggers with the same function and period are
    not told apart. *)
Record Trigger : Type :=
  { handlerFunction : string;
    everyMinutes : Z }.

(** The script project: the world of the sync loop and the installed
    triggers. *)
Record Project : Type :=
  { world : World;
    triggers : list Trigger }.

Definition trigger_eqb (a b : Trigger) : bool :=
  String.eqb (handlerFunction a) (handlerFunction b)
  && (everyMinutes a =? everyMinutes b).

(** [ScriptApp.deleteTrigger(trigger)]: that one trigger is removed. *)
Fixpoint deleteTrigger (trigger : Trigger) (ts : list Trigger) : list Trigger :=
  match ts with
  | [] => []
  | t :: r => if trigger_eqb t trigger then r else t :: deleteTrigger trigger r
  end.

(** [triggers.forEach(trigger => ScriptApp.deleteTrigger(trigger))] over the
    array [getProjectTriggers()] returned. *)
Fixpoint deleteEach (snapshot installed : list Trigger) : list Trigger :=
  match snapshot with
  | [] => installed
  | trigger :: r => deleteEach r (deleteTrigger trigger installed)
  end.

Definition clearTriggers (pr : Project) : Project :=
  let triggers := triggers pr in
  {| world := world pr; triggers := deleteEach triggers triggers |}.

(** [ScriptApp.newTrigger(f).timeBased().everyMinutes(n).create()] *)
Definition newTrigger (f : string) (n : Z) (pr : Project) : Project :=
  {| world := world pr;
     triggers := triggers pr ++ [ {| handlerFunction := f; everyMinutes := n |} ] |}.

(** A function of the sync loop, run in the project. *)
Definition in_world {A} (m : M A) (pr : Project) : result A * Project :=
  let '(r, w) := m (world pr) in
  (r, {| world := w; triggers := triggers pr |}).

Definition setup (pr : Project) : result unit * Project :=
  let pr1 := clearTriggers pr in
  let pr2 := newTrigger "checkForNewProducts" CHECK_FREQUENCY pr1 in
  in_world
    (initializeTracking ;;;
     Logger_log ("Setup complete. Script will check for new products every "
                 ++ int_toString CHECK_FREQUENCY ++ " minutes."))
    pr2.

End Project.

(** ** Reading rows, headers and passes *)

Module Reading.
Import Js Mapper Sync.

(** Every character is white space. *)
Fixpoint all_space (s : string) : bool :=
  match s with
  | EmptyString => true
  | String c r => is_space c && all_space r
  end.

(** A string that does not start with white space. *)
Definition starts_clean (s : string) : Prop :=
  match s with
  | EmptyString => True
  | String c _ => is_space c = false
  end.

(** Two cells that the callback cannot tell apart: the same cell, or two
    cells that the guard both drops. *)
Definition same_cell (a b : value) : Prop :=
  a = b \/ (skipped a = true /\ skipped b = true).

(** The two groups [product.options] can hold. *)
Definition size_group (s : string) : OptionGroup :=
  {| name := "Size"; values := [s] |}.
Definition color_group (s : string) : OptionGroup :=
  {| name := "Color"; values := [s] |}.

(** [product.options] against the two option properties of the variant:
    unset with both unset, the group Size alone with [option1] set and
    [option2] unset, or the groups Size and Color with [option2] set. *)
Definition options_shape (p : Product) : Prop :=
  (options p = None /\
   of_variant0 option1 p = None /\ of_variant0 option2 p = None) \/
  (exists s, options p = Some [size_group s] /\
             of_variant0 option1 p <> None /\ of_variant0 option2 p = None) \/
  (exists s c, options p = Some [size_group s; color_group c] /\
               of_variant0 option2 p <> None).

(** [product.images]: unset, or one image whose source is not empty and has
    no white space around it. *)
Definition images_shape (p : Product) : Prop :=
  images p = None \/
  exists s, images p = Some [ {| src := s |} ] /\ s <> EmptyString /\ trim s = s.

(** The rows [rs] with their row numbers, from [first] on. *)
Fixpoint numbered (first : Z) (rs : list (list value)) : list (Z * list value) :=
  match rs with
  | [] => []
  | r :: t => (first, r) :: numbered (first + 1) t
  end.

(** The rows of the sheet after row [lastProcessedRow], numbered. *)
Definition new_rows (s : Sheet) (lastProcessedRow : Z) : list (Z * list value) :=
  numbered (lastProcessedRow + 1) (skipn (Z.to_nat lastProcessedRow) (getValues s)).

(** The product the loop body sends for a row, if it sends one: the row is
    not blank, maps without exception, and the product is valid. *)
Definition product_to_send (headers : option (list value))
  (rowData : list value) : option Product :=
  if is_blank rowData then None
  else
    match map_row headers rowData with
    | Ok p => if isValidProduct p then Some p else None
    | Throw _ => None
    end.

(** The row numbers of the rows that are not blank. *)
Definition rows_with_outcome (l : list (Z * list value)) : list Z :=
  map fst (filter (fun x => negb (is_blank (snd x))) l).

(** The requests for the rows that are sent, in row order. *)
Definition requests_for (host : Host) (headers : option (list value))
  (l : list (Z * list value)) : list Request :=
  flat_map (fun x => match product_to_send headers (snd x) with
                     | Some p => [request_of host p]
                     | None => []
                     end) l.

(** What cell [TIMESTAMP_COLUMN] of row [r] shows: the last text written
    there, if any. *)
Fixpoint status_of (r : Z) (written : list (Z * string)) : option string :=
  match written with
  | [] => None
  | (k, text) :: rest =>
      match status_of r rest with
      | Some later => Some later
      | None => if k =? r then Some text else None
      end
  end.

(** The cell in row [r] and position [i] of the data range; a cell that the
    range lacks is empty. *)
Definition sheet_cell (rows : list (list value)) (r : Z) (i : nat) : value :=
  match at_index rows (r - 1) with
  | Some row => nth i row (VStr EmptyString)
  | None => VStr EmptyString
  end.

(** The cell of [TIMESTAMP_COLUMN] in row [r]. *)
Definition status_cell (s : Sheet) (r : Z) : value :=
  sheet_cell (rows s) r (column_index TIMESTAMP_COLUMN).

(** The data range after the status texts [written] were written to it, in
    that order. *)
Definition replay (written : list (Z * string)) (rows : list (list value))
  : list (list value) :=
  fold_left (fun rs x => write_status (fst x) (snd x) rs) written rows.

(** The sheet of [w'] is the sheet of [w] with more status texts written. *)
Definition traced (w w' : World) : Prop :=
  exists new,
    outcomes w' = (outcomes w ++ new)%list /\
    rows (sheet w') = replay new (rows (sheet w)).

(** A world that only grew: same properties, and status texts, requests and
    log lines appended. *)
Definition grew (w w' : World) : Prop :=
  properties w' = properties w /\
  (exists new, outcomes w' = (outcomes w ++ new)%list) /\
  (exists new, requests w' = (requests w ++ new)%list) /\
  (exists new, log w' = (log w ++ new)%list).

End Reading.

(** * Properties *)

Import Js Mapper Sync.

(** ** The field mapper *)

Lemma one_of_In (labels : list string) (h : string) :
  one_of labels h = true <-> In h labels.
Proof.
  unfold one_of. rewrite existsb_exists. split.
  - intros (x & Hx & E). apply String.eqb_eq in E. now subst.
  - intros H. exists h. split; [exact H|apply String.eqb_refl].
Qed.

(** The switch selects the case of [f] exactly on the labels of [f]. *)
Lemma canonical_aliases (h : string) (f : field) :
  canonical h = Some f <-> In h (aliases f).
Proof.
  split.
  - unfold canonical.
    repeat match goal with
           | |- context [if one_of ?l h then _ else _] =>
               destruct (one_of l h) eqn:?; cbv iota
           end;
      intros H; try discriminate; injection H as <-;
      apply one_of_In; assumption.
  - intros H. destruct f; simpl in H;
      repeat (destruct H as [<-|H]; [reflexivity|]); contradiction.
Qed.

(** A column runs the case of [f] exactly when its header has a [toString]
    and, in lower case and trimmed, is one of the labels of [f]. *)
Lemma header_field_aliases (header : value) (f : field) :
  header_field header = Some f <->
  header_defined header = true /\
  In (trim (toLowerCase (ToString header))) (aliases f).
Proof.
  unfold header_field. rewrite <- canonical_aliases.
  destruct header; simpl; split; try tauto;
    try (intros H; discriminate); intros [H _]; discriminate.
Qed.

Lemma skipped_false_toString (v : value) :
  skipped v = false -> toString v = Ok (ToString v).
Proof.
  destruct v; simpl; intros H; try reflexivity; discriminate.
Qed.

Lemma skipped_true_mapColumn (p : Product) (h v : value) :
  skipped v = true -> mapColumn p h v = Ok p.
Proof.
  intros H. unfold mapColumn. rewrite H. reflexivity.
Qed.

Lemma mapColumn_field (p : Product) (h v : value) (f : field) :
  skipped v = false -> header_field h = Some f ->
  mapColumn p h v = assign f v p.
Proof.
  intros Hs Hf. unfold mapColumn, header_field in *. rewrite Hs.
  destruct (toString h) as [s|e]; simpl in *; [|discriminate].
  rewrite Hf. reflexivity.
Qed.

Lemma mapColumn_no_field (p : Product) (h v : value) (s : string) :
  toString h = Ok s -> header_field h = None -> mapColumn p h v = Ok p.
Proof.
  intros Hs Hf. unfold mapColumn, header_field in *. rewrite Hs in *. simpl.
  rewrite Hf. destruct (skipped v); reflexivity.
Qed.

(** The case of [f] succeeds on a cell that passed the guard, keeps the
    first variant in place, writes the property of [f] and no property of
    another case. *)
Lemma assign_spec (f : field) (v : value) (p : Product) :
  skipped v = false -> variants p <> [] ->
  exists p',
    assign f v p = Ok p' /\
    variants p' <> [] /\
    read_field f p' =
      match converted f v with
      | Some x => Some x
      | None => read_field f p
      end /\
    (forall g, g <> f -> read_field g p' = read_field g p).
Proof.
  intros Hs Hv.
  pose proof (skipped_false_toString v Hs) as Ht.
  destruct p as [t b ve pt tg pu vs os im]; simpl in Hv.
  destruct vs as [|v0 vs]; [congruence|].
  destruct f; unfold assign, on_variant0; simpl; rewrite ?Ht; simpl.
  all: try (eexists; split; [reflexivity|];
            split; [simpl; discriminate|];
            split; [reflexivity|];
            intros g Hg; destruct g; try reflexivity; congruence).
  - (* option1 *)
    destruct os as [o|]; simpl;
      (eexists; split; [reflexivity|];
       split; [simpl; discriminate|];
       split; [reflexivity|];
       intros g Hg; destruct g; try reflexivity; congruence).
  - (* option2 *)
    destruct os as [o|]; simpl; [destruct (length o <? 2)%nat|]; simpl;
      (eexists; split; [reflexivity|];
       split; [simpl; discriminate|];
       split; [reflexivity|];
       intros g Hg; destruct g; try reflexivity; congruence).
  - (* images *)
    destruct (truthy v); simpl;
      [destruct (is_empty (trim (ToString v))); simpl|];
      (eexists; split; [reflexivity|];
       split; [simpl; discriminate|];
       split; [reflexivity|];
       intros g Hg; destruct g; try reflexivity; congruence).
Qed.

Lemma header_defined_toString (h : value) :
  header_defined h = true -> toString h = Ok (ToString h).
Proof. destruct h; simpl; intros H; try reflexivity; discriminate. Qed.

Lemma writes_true (f : field) (h v : value) :
  writes f h v = true <-> skipped v = false /\ header_field h = Some f.
Proof.
  unfold writes. destruct (skipped v); simpl.
  - split; [discriminate | intros [H _]; discriminate].
  - destruct (header_field h) as [g|].
    + destruct (field_eq_dec f g) as [->|N]; split; try tauto.
      * discriminate.
      * intros [_ H]. congruence.
    + split; [discriminate | intros [_ H]; discriminate].
Qed.

(** One column: the callback succeeds when the header is defined or the cell
    is skipped. *)
Lemma mapColumn_total (p : Product) (h v : value) :
  variants p <> [] -> skipped v = true \/ header_defined h = true ->
  exists p', mapColumn p h v = Ok p'.
Proof.
  intros Hv Hh. destruct (skipped v) eqn:Hs.
  - exists p. now apply skipped_true_mapColumn.
  - destruct Hh as [Hh|Hh]; [discriminate|].
    pose proof (header_defined_toString h Hh) as Ht.
    destruct (header_field h) as [f|] eqn:Hf.
    + rewrite (mapColumn_field p h v f Hs Hf).
      destruct (assign_spec f v p Hs Hv) as (p' & E & _). eauto.
    + exists p. eapply mapColumn_no_field; eauto.
Qed.

(** One column: what the callback does to the property of [f]. *)
Lemma mapColumn_spec (f : field) (p p' : Product) (h v : value) :
  variants p <> [] -> mapColumn p h v = Ok p' ->
  variants p' <> [] /\
  read_field f p' =
    if writes f h v then
      match converted f v with
      | Some x => Some x
      | None => read_field f p
      end
    else read_field f p.
Proof.
  intros Hv E. destruct (skipped v) eqn:Hs.
  - rewrite (skipped_true_mapColumn p h v Hs) in E. injection E as <-.
    unfold writes. rewrite Hs. simpl. auto.
  - destruct (toString h) as [s|e] eqn:Ht.
    2:{ unfold mapColumn in E. rewrite Hs, Ht in E. discriminate. }
    destruct (header_field h) as [g|] eqn:Hg.
    + rewrite (mapColumn_field p h v g Hs Hg) in E.
      destruct (assign_spec g v p Hs Hv) as (q & Eq & Hq & Hw & Hfr).
      rewrite Eq in E. injection E as <-. split; [exact Hq|].
      unfold writes. rewrite Hs, Hg. simpl.
      destruct (field_eq_dec f g) as [->|N]; [exact Hw|].
      apply Hfr. exact N.
    + rewrite (mapColumn_no_field p h v s Ht Hg) in E. injection E as <-.
      unfold writes. rewrite Hs, Hg. simpl. auto.
Qed.

Lemma forEach_app (a b : list value) (i : nat) (row : list value) (p : Product) :
  forEach (a ++ b) i row p =
  rbind (forEach a i row p) (fun q => forEach b (i + length a) row q).
Proof.
  revert i p. induction a as [|h a IH]; intros i p; simpl.
  - now rewrite Nat.add_0_r.
  - destruct (mapColumn p h (index VUndefined row i)) as [q|e]; simpl.
    + rewrite IH. now rewrite Nat.add_succ_r.
    + reflexivity.
Qed.

Lemma forEach_variants (hs : list value) (i : nat) (row : list value)
  (p p' : Product) :
  variants p <> [] -> forEach hs i row p = Ok p' -> variants p' <> [].
Proof.
  revert i p. induction hs as [|h hs IH]; intros i p Hv E; simpl in E.
  - now injection E as <-.
  - destruct (mapColumn p h (index VUndefined row i)) as [q|e] eqn:Eq;
      simpl in E; [|discriminate].
    eapply IH; [|exact E].
    now destruct (mapColumn_spec FTitle p q h _ Hv Eq).
Qed.

(** The columns from [i] on succeed when each has a defined header or a
    skipped cell. *)
Lemma forEach_total (hs : list value) (i : nat) (row : list value) (p : Product) :
  variants p <> [] ->
  (forall k h, nth_error hs k = Some h ->
     skipped (cell row (i + k)) = true \/ header_defined h = true) ->
  exists p', forEach hs i row p = Ok p'.
Proof.
  revert i p. induction hs as [|h hs IH]; intros i p Hv Hok; simpl.
  - eauto.
  - destruct (mapColumn_total p h (index VUndefined row i) Hv) as [q Eq].
    { specialize (Hok 0%nat h eq_refl). now rewrite Nat.add_0_r in Hok. }
    rewrite Eq. simpl. apply IH.
    + now destruct (mapColumn_spec FTitle p q h _ Hv Eq).
    + intros k h' Hk. specialize (Hok (S k) h' Hk).
      now rewrite Nat.add_succ_r in Hok.
Qed.

(** Columns that do not run the case of [f] leave its property alone. *)
Lemma forEach_frame (f : field) (hs : list value) (i : nat) (row : list value)
  (p p' : Product) :
  variants p <> [] ->
  (forall k h, nth_error hs k = Some h -> writes f h (cell row (i + k)) = false) ->
  forEach hs i row p = Ok p' ->
  read_field f p' = read_field f p.
Proof.
  revert i p. induction hs as [|h hs IH]; intros i p Hv Hno E; simpl in E.
  - now injection E as <-.
  - destruct (mapColumn p h (index VUndefined row i)) as [q|e] eqn:Eq;
      simpl in E; [|discriminate].
    destruct (mapColumn_spec f p q h _ Hv Eq) as [Hq Hr].
    pose proof (Hno 0%nat h eq_refl) as H0. rewrite Nat.add_0_r in H0.
    unfold cell in H0. rewrite H0 in Hr. rewrite <- Hr.
    eapply IH; [exact Hq| |exact E].
    intros k h' Hk. specialize (Hno (S k) h' Hk).
    now rewrite Nat.add_succ_r in Hno.
Qed.

Lemma firstn_succ_nth {A} (l : list A) (n : nat) (x : A) :
  nth_error l n = Some x -> firstn (S n) l = (firstn n l ++ [x])%list.
Proof.
  revert n. induction l as [|a l IH]; intros [|n] H; simpl in *; try discriminate.
  - now injection H as ->.
  - f_equal. now apply IH.
Qed.

Lemma nth_error_lt_length {A} (l : list A) (n : nat) (x : A) :
  nth_error l n = Some x -> (n < length l)%nat.
Proof. intros H. apply nth_error_Some. congruence. Qed.

Lemma after_columns_0 (hs row : list value) :
  after_columns hs row 0 = Ok initial_product.
Proof. reflexivity. Qed.

(** Column [n] is the callback applied to the product of the columns
    before it. *)
Lemma after_columns_S (hs row : list value) (n : nat) (h : value) :
  nth_error hs n = Some h ->
  after_columns hs row (S n) =
  rbind (after_columns hs row n) (fun q => mapColumn q h (cell row n)).
Proof.
  intros H. unfold after_columns. rewrite (firstn_succ_nth hs n h H).
  rewrite forEach_app. simpl.
  rewrite firstn_length_le by (apply Nat.lt_le_incl; eapply nth_error_lt_length; eauto).
  destruct (forEach (firstn n hs) 0 row initial_product) as [q|e]; simpl; [|reflexivity].
  unfold cell. now destruct (mapColumn q h (index VUndefined row n)).
Qed.

Lemma after_columns_all (hs row : list value) :
  after_columns hs row (length hs) = mapRowToProduct hs row.
Proof. unfold after_columns, mapRowToProduct. now rewrite firstn_all. Qed.

(** The whole row is the columns from [n] on, run on the product of the
    first [n]. *)
Lemma mapRowToProduct_split (hs row : list value) (n : nat) :
  (n <= length hs)%nat ->
  mapRowToProduct hs row =
  rbind (after_columns hs row n) (fun q => forEach (skipn n hs) n row q).
Proof.
  intros Hn. unfold mapRowToProduct, after_columns.
  rewrite <- (firstn_skipn n hs) at 1. rewrite forEach_app.
  now rewrite firstn_length_le by exact Hn.
Qed.

Lemma after_columns_variants (hs row : list value) (n : nat) (q : Product) :
  after_columns hs row n = Ok q -> variants q <> [].
Proof.
  intros E. eapply forEach_variants; [|exact E]. simpl. discriminate.
Qed.

Lemma read_field_initial (f : field) : read_field f initial_product = None.
Proof. destruct f; reflexivity. Qed.

(** A property whose case ran in none of the first [n] columns is unset
    after them. *)
Lemma after_columns_unset (f : field) (hs row : list value) (n : nat) (q : Product) :
  (forall k h, (k < n)%nat -> nth_error hs k = Some h ->
     writes f h (cell row k) = false) ->
  after_columns hs row n = Ok q ->
  read_field f q = None.
Proof.
  intros Hno E. rewrite <- (read_field_initial f).
  eapply forEach_frame; [| |exact E].
  - simpl. discriminate.
  - intros k h Hk. simpl. apply Hno.
    + destruct (Nat.lt_ge_cases k n) as [L|G]; [exact L|].
      rewrite nth_error_firstn in Hk.
      destruct (k <? n)%nat eqn:Ek; [apply Nat.ltb_lt in Ek; exact Ek|discriminate].
    + rewrite nth_error_firstn in Hk.
      destruct (k <? n)%nat; [exact Hk|discriminate].
Qed.

(** The last column that runs the case of [f] decides its property. *)
Lemma last_writer (f : field) (hs row : list value) (j : nat) (h : value)
  (p : Product) :
  nth_error hs j = Some h ->
  (forall k h', (j < k)%nat -> nth_error hs k = Some h' ->
     writes f h' (cell row k) = false) ->
  mapRowToProduct hs row = Ok p ->
  exists q,
    after_columns hs row j = Ok q /\
    read_field f p =
      if writes f h (cell row j) then
        match converted f (cell row j) with
        | Some x => Some x
        | None => read_field f q
        end
      else read_field f q.
Proof.
  intros Hj Hno E.
  pose proof (nth_error_lt_length hs j h Hj) as Hlt.
  rewrite (mapRowToProduct_split hs row (S j)) in E by exact Hlt.
  rewrite (after_columns_S hs row j h Hj) in E.
  destruct (after_columns hs row j) as [q|e] eqn:Eq; cbn [rbind] in E; [|discriminate].
  exists q. split; [reflexivity|].
  destruct (mapColumn q h (cell row j)) as [q1|e] eqn:E1; cbn [rbind] in E; [|discriminate].
  pose proof (after_columns_variants hs row j q Eq) as Hq.
  destruct (mapColumn_spec f q q1 h _ Hq E1) as [Hq1 Hr].
  rewrite <- Hr.
  eapply forEach_frame; [exact Hq1| |exact E].
  intros k h' Hk. apply (Hno (S j + k)%nat h'); [lia|].
  now rewrite nth_error_skipn in Hk.
Qed.

Lemma mapRowToProduct_total (hs row : list value) :
  forallb header_defined hs = true ->
  exists p, mapRowToProduct hs row = Ok p.
Proof.
  intros H. apply forEach_total; [simpl; discriminate|].
  intros k h Hk. right.
  rewrite forallb_forall in H. apply H. eapply nth_error_In; eauto.
Qed.

(** [product.options] only grows: a column keeps the groups that are there
    and can at most append one. *)
Lemma mapColumn_options_grow (p p' : Product) (h v : value) (o : list OptionGroup) :
  mapColumn p h v = Ok p' -> options p = Some o ->
  exists extra, options p' = Some (o ++ extra)%list.
Proof.
  intros E Ho.
  assert (Hsame : p' = p -> exists extra, options p' = Some (o ++ extra)%list).
  { intros ->. exists []. now rewrite app_nil_r. }
  unfold mapColumn in E. destruct (skipped v); [injection E as <-; auto|].
  destruct (toString h) as [s|e]; simpl in E; [|discriminate].
  destruct (canonical (trim (toLowerCase s))) as [f|]; [|injection E as <-; auto].
  destruct p as [t b ve pt tg pu vs os im]; simpl in Ho; subst os.
  destruct vs as [|v0 vs];
    destruct f; unfold assign, on_variant0 in E; simpl in E;
    destruct (toString v) as [sv|ev]; simpl in E; try discriminate.
  all: repeat match type of E with
              | context [if ?c then _ else _] => destruct c; simpl in E
              end.
  all: try discriminate.
  all: injection E as <-; simpl.
  all: first [ exists []; now rewrite app_nil_r | eexists; reflexivity ].
Qed.

Lemma forEach_options_grow (hs : list value) (i : nat) (row : list value)
  (p p' : Product) (o : list OptionGroup) :
  forEach hs i row p = Ok p' -> options p = Some o ->
  exists extra, options p' = Some (o ++ extra)%list.
Proof.
  revert i p o. induction hs as [|h hs IH]; intros i p o E Ho; simpl in E.
  - injection E as <-. exists []. now rewrite app_nil_r.
  - destruct (mapColumn p h (index VUndefined row i)) as [q|e] eqn:Eq;
      simpl in E; [|discriminate].
    destruct (mapColumn_options_grow p q h _ o Eq Ho) as [x Hx].
    destruct (IH _ _ _ E Hx) as [y Hy].
    exists (x ++ y)%list. now rewrite app_assoc.
Qed.

(** The cases of the two option columns. *)
Lemma assign_option1 (v : value) (p : Product) :
  skipped v = false -> variants p <> [] ->
  exists p',
    assign FOption1 v p = Ok p' /\
    of_variant0 option1 p' = Some (ToString v) /\
    options p' = Some (seed_size (ToString v) (options p)).
Proof.
  intros Hs Hv. pose proof (skipped_false_toString v Hs) as Ht.
  destruct p as [t b ve pt tg pu vs os im]; simpl in Hv.
  destruct vs as [|v0 vs]; [congruence|].
  unfold assign, on_variant0; simpl; rewrite Ht; simpl.
  destruct os as [o|]; simpl; eexists; split; try reflexivity; split; reflexivity.
Qed.

Lemma assign_option2 (v : value) (p : Product) :
  skipped v = false -> variants p <> [] ->
  exists p',
    assign FOption2 v p = Ok p' /\
    of_variant0 option2 p' = Some (ToString v) /\
    options p' = Some (seed_color (ToString v) (options p)).
Proof.
  intros Hs Hv. pose proof (skipped_false_toString v Hs) as Ht.
  destruct p as [t b ve pt tg pu vs os im]; simpl in Hv.
  destruct vs as [|v0 vs]; [congruence|].
  unfold assign, on_variant0, seed_color; simpl; rewrite Ht; simpl.
  destruct os as [o|]; simpl; [destruct (length o <? 2)%nat|]; simpl;
    eexists; split; try reflexivity; split; reflexivity.
Qed.

(** C1.  In every header row and data row, a column headed option1 or size
    whose cell passes the guard sets [variants[0].option1] to the cell's text
    and seeds [options] with the single group Size of that text only when the
    columns before it left [options] unset; a column headed option2 or color
    sets [variants[0].option2], starts from the placeholder group Size of
    "Default" when [options] is unset, and appends the group Color of the
    cell's text only when fewer than two groups are there.  For the headers
    Title, Size, Color and the row Shirt, M, Red this gives the groups Size of
    M and Color of Red, option1 M and option2 Red. *)
Theorem option_seeding_rule :
  (forall hs row i h p,
      nth_error hs i = Some h -> header_field h = Some FOption1 ->
      skipped (cell row i) = false -> after_columns hs row i = Ok p ->
      exists p',
        after_columns hs row (S i) = Ok p' /\
        of_variant0 option1 p' = Some (ToString (cell row i)) /\
        options p' = Some (seed_size (ToString (cell row i)) (options p))) /\
  (forall hs row i h p,
      nth_error hs i = Some h -> header_field h = Some FOption2 ->
      skipped (cell row i) = false -> after_columns hs row i = Ok p ->
      exists p',
        after_columns hs row (S i) = Ok p' /\
        of_variant0 option2 p' = Some (ToString (cell row i)) /\
        options p' = Some (seed_color (ToString (cell row i)) (options p))) /\
  (exists p,
      mapRowToProduct [VStr "Title"; VStr "Size"; VStr "Color"]
                      [VStr "Shirt"; VStr "M"; VStr "Red"] = Ok p /\
      options p = Some [ {| name := "Size"; values := ["M"] |};
                         {| name := "Color"; values := ["Red"] |} ] /\
      of_variant0 option1 p = Some "M" /\
      of_variant0 option2 p = Some "Red").
Proof.
  split; [|split].
  - intros hs row i h p Hi Hf Hs E.
    rewrite (after_columns_S hs row i h Hi), E. simpl.
    rewrite (mapColumn_field p h _ FOption1 Hs Hf).
    apply assign_option1; [exact Hs|]. eapply after_columns_variants; eauto.
  - intros hs row i h p Hi Hf Hs E.
    rewrite (after_columns_S hs row i h Hi), E. simpl.
    rewrite (mapColumn_field p h _ FOption2 Hs Hf).
    apply assign_option2; [exact Hs|]. eapply after_columns_variants; eauto.
  - eexists. split; [reflexivity|]. repeat split.
Qed.

(** The rule at the Color column of the scenario, after Title and Size. *)
Lemma option_seeding_rule_witness :
  exists p',
    after_columns [VStr "Title"; VStr "Size"; VStr "Color"]
                  [VStr "Shirt"; VStr "M"; VStr "Red"] 3 = Ok p' /\
    of_variant0 option2 p' = Some "Red" /\
    options p' = Some [ {| name := "Size"; values := ["M"] |};
                        {| name := "Color"; values := ["Red"] |} ].
Proof.
  refine (proj1 (proj2 option_seeding_rule)
            [VStr "Title"; VStr "Size"; VStr "Color"]
            [VStr "Shirt"; VStr "M"; VStr "Red"] 2%nat (VStr "Color") _
            eq_refl eq_refl eq_refl eq_refl).
Defined.

Lemma converted_some (f : field) (v : value) :
  f <> FImages -> exists x, converted f v = Some x.
Proof. destruct f; simpl; intros H; try congruence; eauto. Qed.

Lemma after_columns_as_row (hs row : list value) (n : nat) :
  after_columns hs row n = mapRowToProduct (firstn n hs) row.
Proof. reflexivity. Qed.

(** Two columns that run the case of [f], with no third: the later one
    decides, and the earlier one only where the later assigns nothing. *)
Lemma two_writers (f : field) (hs row : list value) (i j : nat) (hi hj : value)
  (p : Product) :
  (i < j)%nat ->
  nth_error hs i = Some hi -> nth_error hs j = Some hj ->
  writes f hi (cell row i) = true -> writes f hj (cell row j) = true ->
  (forall k h, k <> i -> k <> j -> nth_error hs k = Some h ->
     writes f h (cell row k) = false) ->
  mapRowToProduct hs row = Ok p ->
  read_field f p =
    match converted f (cell row j) with
    | Some x => Some x
    | None => converted f (cell row i)
    end.
Proof.
  intros Hij Hi Hj Wi Wj Hno E.
  destruct (last_writer f hs row j hj p Hj) as (q & Eq & Hr); [|exact E|].
  { intros k h' Hk Hn. apply (Hno k h'); [lia|lia|exact Hn]. }
  rewrite Wj in Hr. rewrite Hr.
  destruct (converted f (cell row j)) as [x|]; [reflexivity|].
  rewrite after_columns_as_row in Eq.
  assert (Hi' : nth_error (firstn j hs) i = Some hi).
  { rewrite nth_error_firstn. apply Nat.ltb_lt in Hij. now rewrite Hij. }
  destruct (last_writer f (firstn j hs) row i hi q Hi') as (q0 & Eq0 & Hr0);
    [|exact Eq|].
  { intros k h' Hk Hn. rewrite nth_error_firstn in Hn.
    destruct (k <? j)%nat eqn:Ekj; [|discriminate].
    apply Nat.ltb_lt in Ekj. apply (Hno k h'); [lia|lia|exact Hn]. }
  rewrite Wi in Hr0. rewrite Hr0.
  destruct (converted f (cell row i)) as [x|]; [reflexivity|].
  eapply after_columns_unset; [|exact Eq0].
  intros k h' Hk Hn. rewrite nth_error_firstn in Hn.
  destruct (k <? j)%nat eqn:Ekj; [|discriminate].
  apply Nat.ltb_lt in Ekj. apply (Hno k h'); [lia|lia|exact Hn].
Qed.

(** C2, as the script has it.  When two columns i < j carry aliases of the
    same canonical field, their cells both pass the guard and no other column
    runs that field's case, the property the case assigns ([title], ...,
    [variants[0].option1], [variants[0].option2]) holds the later column's
    value; for [images] the later column decides when its text is not blank
    and the earlier one otherwise.  The groups of [options] are not
    overwritten: those seeded up to column i are still the first groups of the
    result. *)
Theorem last_write_wins (f : field) (hs row : list value) (i j : nat)
  (hi hj : value) :
  (i < j)%nat ->
  nth_error hs i = Some hi -> nth_error hs j = Some hj ->
  writes f hi (cell row i) = true -> writes f hj (cell row j) = true ->
  (forall k h, k <> i -> k <> j -> nth_error hs k = Some h ->
     writes f h (cell row k) = false) ->
  forallb header_defined hs = true ->
  exists p,
    mapRowToProduct hs row = Ok p /\
    (f <> FImages -> read_field f p = converted f (cell row j)) /\
    (f = FImages ->
     read_field f p =
       match converted f (cell row j) with
       | Some x => Some x
       | None => converted f (cell row i)
       end) /\
    (forall q o, after_columns hs row (S i) = Ok q -> options q = Some o ->
       exists extra, options p = Some (o ++ extra)%list).
Proof.
  intros Hij Hi Hj Wi Wj Hno Hdef.
  destruct (mapRowToProduct_total hs row Hdef) as [p E].
  exists p. split; [exact E|].
  pose proof (two_writers f hs row i j hi hj p Hij Hi Hj Wi Wj Hno E) as Hr.
  split; [|split].
  - intros Hf. destruct (converted_some f (cell row j) Hf) as [x Hx].
    now rewrite Hr, Hx.
  - intros _. exact Hr.
  - intros q o Eq Ho.
    pose proof (nth_error_lt_length hs i hi Hi) as Hlt.
    rewrite (mapRowToProduct_split hs row (S i)) in E by exact Hlt.
    rewrite Eq in E. cbn [rbind] in E.
    eapply forEach_options_grow; eauto.
Qed.

(** Two price columns: the later price stays. *)
Lemma last_write_wins_witness :
  exists p,
    mapRowToProduct [VStr "Title"; VStr "Price"; VStr "Retail Price"]
                    [VStr "Shirt"; VStr "9.99"; VNum (Dec false 1250 (-2))] = Ok p /\
    read_field FPrice p = Some (FText "12.5").
Proof.
  destruct (last_write_wins FPrice
              [VStr "Title"; VStr "Price"; VStr "Retail Price"]
              [VStr "Shirt"; VStr "9.99"; VNum (Dec false 1250 (-2))]
              1%nat 2%nat (VStr "Price") (VStr "Retail Price"))
    as (p & E & H & _).
  - lia.
  - reflexivity.
  - reflexivity.
  - reflexivity.
  - reflexivity.
  - intros [|[|[|k]]] h Hi Hj Hk; try congruence.
    + now injection Hk as <-.
    + destruct k; discriminate.
  - reflexivity.
  - exists p. split; [exact E|]. apply H. discriminate.
Defined.

(** C2 as stated fails on the seeded groups of [options]: with the columns
    Size = M and Option1 = L, [variants[0].option1] is the later L but the
    group Size keeps the earlier M. *)
Lemma seeded_options_keep_first_value :
  let hs := [VStr "Size"; VStr "Option1"] in
  let row := [VStr "M"; VStr "L"] in
  writes FOption1 (VStr "Size") (VStr "M") = true /\
  writes FOption1 (VStr "Option1") (VStr "L") = true /\
  exists p,
    mapRowToProduct hs row = Ok p /\
    of_variant0 option1 p = Some "L" /\
    options p = Some [ {| name := "Size"; values := ["M"] |} ] /\
    options p <> Some [ {| name := "Size"; values := ["L"] |} ].
Proof.
  simpl. split; [reflexivity|]. split; [reflexivity|].
  eexists. split; [reflexivity|]. split; [reflexivity|].
  split; [reflexivity|]. discriminate.
Qed.

(** A single last column for [f], on headers that are all defined. *)
Lemma last_writer_total (f : field) (hs row : list value) (j : nat) (h : value) :
  nth_error hs j = Some h ->
  writes f h (cell row j) = true ->
  (forall k h', (j < k)%nat -> nth_error hs k = Some h' ->
     writes f h' (cell row k) = false) ->
  forallb header_defined hs = true ->
  f <> FImages ->
  exists p,
    mapRowToProduct hs row = Ok p /\ read_field f p = converted f (cell row j).
Proof.
  intros Hj W Hno Hdef Hf.
  destruct (mapRowToProduct_total hs row Hdef) as [p E].
  exists p. split; [exact E|].
  destruct (last_writer f hs row j h p Hj Hno E) as (q & _ & Hr).
  rewrite W in Hr. destruct (converted_some f (cell row j) Hf) as [x Hx].
  now rewrite Hr, Hx.
Qed.

Lemma published_of_true (v : value) :
  published_of v = true <->
  v = VBool true \/ v = VStr "true" \/ v = VStr "yes" \/ v = VStr "published".
Proof.
  unfold published_of, is_true, is_string. split.
  - destruct v as [| |b|n|s|s]; simpl; try discriminate.
    + destruct b; [auto|discriminate].
    + intros H. repeat (apply orb_true_iff in H; destruct H as [H|H]);
        apply String.eqb_eq in H; subst; auto.
  - intros [ -> | [ -> | [ -> | -> ] ] ]; reflexivity.
Qed.

(** What holds of C5 on the script: a cell that passes the guard, in the last
    column headed published or status, sets [published], to true exactly for
    the boolean true and the strings "true", "yes" and "published". *)
Lemma published_rule (hs row : list value) (j : nat) (h : value) :
  nth_error hs j = Some h ->
  writes FPublished h (cell row j) = true ->
  (forall k h', (j < k)%nat -> nth_error hs k = Some h' ->
     writes FPublished h' (cell row k) = false) ->
  forallb header_defined hs = true ->
  exists p b,
    mapRowToProduct hs row = Ok p /\ published p = Some b /\
    (b = true <->
     cell row j = VBool true \/ cell row j = VStr "true" \/
     cell row j = VStr "yes" \/ cell row j = VStr "published").
Proof.
  intros Hj W Hno Hdef.
  destruct (last_writer_total FPublished hs row j h Hj W Hno Hdef) as (p & E & Hr);
    [discriminate|].
  exists p, (published_of (cell row j)). split; [exact E|].
  simpl in Hr. destruct (published p) as [b|] eqn:Eb; simpl in Hr; [|discriminate].
  injection Hr as ->. split; [reflexivity|]. apply published_of_true.
Qed.

(** C5 on the script, at the cell the guard drops: under the header
    Published the boolean false is not an empty cell, yet the callback
    returns before the switch and [published] stays unset instead of
    becoming false. *)
Theorem published_false_cell_left_unset :
  VBool false <> VStr EmptyString /\
  skipped (VBool false) = true /\
  header_field (VStr "Published") = Some FPublished /\
  exists p,
    mapRowToProduct [VStr "Title"; VStr "Published"]
                    [VStr "Shirt"; VBool false] = Ok p /\
    title p = Some (VStr "Shirt") /\
    published p = None /\
    published p <> Some false.
Proof.
  split; [discriminate|]. split; [reflexivity|]. split; [reflexivity|].
  eexists. split; [reflexivity|]. repeat split. discriminate.
Qed.

Lemma or_zero_of_Z (z : Z) : or_zero (of_Z z) = of_Z z.
Proof.
  unfold or_zero, truthy_number, of_Z, is_zero, is_nan, zero, of_Z. simpl.
  destruct (N.eqb_spec (Z.abs_N z) 0) as [E|N]; simpl; [|reflexivity].
  assert (z = 0) by lia. subst. reflexivity.
Qed.

Lemma or_zero_not_nan (n : number) : is_nan (or_zero n) = false.
Proof.
  unfold or_zero, truthy_number. destruct n; simpl; try reflexivity.
  destruct (N.eqb coef 0); reflexivity.
Qed.

(** *** Integers as doubles *)

Lemma round_half_even_1 (n : N) : round_half_even n 1 = n.
Proof.
  unfold round_half_even. rewrite N.mod_1_r, N.div_1_r. reflexivity.
Qed.

Lemma lift_exponent_pow10 (j : nat) (m : N) :
  lift_exponent j (m * 10 ^ N.of_nat j)%N (- Z.of_nat j) = (m, 0).
Proof.
  induction j as [|j IH].
  - simpl. now rewrite N.mul_1_r.
  - cbn [lift_exponent].
    assert (He : (- Z.of_nat (S j) <? 0) = true) by (apply Z.ltb_lt; lia).
    rewrite He, Nat2N.inj_succ, N.pow_succ_r'.
    replace (m * (10 * 10 ^ N.of_nat j))%N with ((m * 10 ^ N.of_nat j) * 10)%N by lia.
    rewrite N.Div0.mod_mul. cbn [N.eqb andb].
    rewrite N.div_mul by discriminate.
    replace (- Z.of_nat (S j) + 1) with (- Z.of_nat j) by lia.
    exact IH.
Qed.

(** An integer divided by a power of two with an exponent that is not
    positive is rounded to itself and written back as that integer. *)
Lemma binary_of_integer (neg : bool) (num : N) (k : Z) :
  k <= 0 -> binary neg (round_scaled num 1 k) k = Dec neg num 0.
Proof.
  intros Hk. unfold binary, round_scaled.
  destruct (0 <=? k) eqn:E.
  - apply Z.leb_le in E. assert (k = 0) by lia. subst k.
    change (2 ^ Z.to_N 0)%N with 1%N. rewrite !N.mul_1_r.
    now rewrite round_half_even_1.
  - apply Z.leb_gt in E. rewrite round_half_even_1.
    rewrite <- N.mul_assoc, <- N.pow_mul_l. change (2 * 5)%N with 10%N.
    rewrite <- (Z_nat_N (- k)).
    assert (Hl : lift_exponent (Z.to_nat (- k))
                   (num * 10 ^ N.of_nat (Z.to_nat (- k)))%N k = (num, 0)).
    { replace k with (- Z.of_nat (Z.to_nat (- k))) at 3 by lia.
      apply lift_exponent_pow10. }
    now rewrite Hl.
Qed.

Lemma round_scaled_integer_nonzero (num : N) (k : Z) :
  k <= 0 -> num <> 0%N -> round_scaled num 1 k <> 0%N.
Proof.
  intros Hk Hn. unfold round_scaled.
  destruct (0 <=? k) eqn:E.
  - apply Z.leb_le in E. assert (k = 0) by lia. subst k.
    change (2 ^ Z.to_N 0)%N with 1%N. now rewrite N.mul_1_r, round_half_even_1.
  - rewrite round_half_even_1. intros H. apply N.eq_mul_0 in H as [H|H]; [tauto|].
    revert H. apply N.pow_nonzero. discriminate.
Qed.

(** Below [2^53] the double of an integer is that integer. *)
Lemma double_of_ratio_small (neg : bool) (num : N) :
  num <> 0%N -> (num < 2 ^ 53)%N -> double_of_ratio neg num 1 = Dec neg num 0.
Proof.
  intros Hn Hlt. unfold double_of_ratio. change (N.log2 1) with 0%N.
  assert (Hlog : (N.log2 num < 53)%N) by (apply N.log2_lt_pow2; lia).
  set (k0 := Z.of_N (N.log2 num) - Z.of_N 0 - 52).
  set (k1 := if (floor_scaled num 1 k0 <? 2 ^ 52)%N then k0 - 1 else k0).
  assert (Hk1 : k1 <= 0).
  { subst k1 k0. destruct (floor_scaled num 1 _ <? 2 ^ 52)%N; lia. }
  set (k := Z.max k1 (-1074)).
  assert (Hk : k <= 0) by (subst k; lia).
  pose proof (round_scaled_integer_nonzero num k Hk Hn) as Hq.
  apply N.eqb_neq in Hq. rewrite Hq.
  assert (H1 : (971 <? k) = false) by (apply Z.ltb_ge; lia).
  assert (H2 : (k =? 971) = false) by (apply Z.eqb_neq; lia).
  rewrite H1, H2. cbn [orb andb].
  now apply binary_of_integer.
Qed.

(** The double of an integer is an integer, or an infinity. *)
Lemma double_of_ratio_integer (neg : bool) (num : N) :
  (exists m, double_of_ratio neg num 1 = Dec neg m 0) \/
  double_of_ratio neg num 1 = Infinity neg.
Proof.
  unfold double_of_ratio. change (N.log2 1) with 0%N.
  set (k0 := Z.of_N (N.log2 num) - Z.of_N 0 - 52).
  set (k1 := if (floor_scaled num 1 k0 <? 2 ^ 52)%N then k0 - 1 else k0).
  set (k := Z.max k1 (-1074)).
  destruct (round_scaled num 1 k =? 0)%N; [left; eauto|].
  destruct ((971 <? k) || ((k =? 971) && (2 ^ 53 <=? round_scaled num 1 k)%N));
    [now right|left].
  destruct (Z.le_gt_cases k 0) as [Hk|Hk].
  - rewrite binary_of_integer by exact Hk. eauto.
  - unfold binary. assert (E : (0 <=? k) = true) by (apply Z.leb_le; lia).
    rewrite E. eauto.
Qed.

Lemma double_of_Z_small (z : Z) :
  Z.abs z < 2 ^ 53 -> double_of_Z z = of_Z z.
Proof.
  intros Hz. unfold double_of_Z, to_double, of_Z.
  destruct (Z.abs_N z =? 0)%N eqn:E.
  - apply N.eqb_eq in E. now rewrite E.
  - apply N.eqb_neq in E. change (0 <=? 0) with true. cbv iota.
    change (10 ^ Z.to_N 0)%N with 1%N.
    rewrite N.mul_1_r. apply double_of_ratio_small; [exact E|].
    assert (H : Z.of_N (Z.abs_N z) < Z.of_N (2 ^ 53)%N).
    { rewrite N2Z.inj_abs_N. exact Hz. }
    lia.
Qed.

Lemma double_of_Z_integer (z : Z) :
  (exists m, double_of_Z z = Dec (z <? 0) m 0) \/
  double_of_Z z = Infinity (z <? 0).
Proof.
  unfold double_of_Z, to_double.
  destruct (Z.abs_N z =? 0)%N; [left; eauto|].
  change (0 <=? 0) with true. cbv iota.
  change (10 ^ Z.to_N 0)%N with 1%N. rewrite N.mul_1_r.
  apply double_of_ratio_integer.
Qed.

(** C6, as the script has it.  A cell that passes the guard, in the last
    column headed inventory, quantity or stock, gives
    [variants[0].inventory_quantity] the Number [parseInt] returns for the
    cell's text, and 0 when that is NaN or a zero: the integer read at the
    start of the text when it lies below 2^53 in absolute value, in general
    the double nearest to it, which is an integer or an infinity.  In the last
    column headed weight it gives [variants[0].weight] the Number
    [parseFloat] returns for the text, and 0 when that is NaN or a zero; it
    is never NaN.  The mapping returns a product with the property set. *)
Theorem numeric_fields_default_to_zero (hs row : list value) (j : nat)
  (h : value) :
  nth_error hs j = Some h ->
  skipped (cell row j) = false ->
  forallb header_defined hs = true ->
  (header_field h = Some FInventoryQuantity ->
   (forall k h', (j < k)%nat -> nth_error hs k = Some h' ->
      writes FInventoryQuantity h' (cell row k) = false) ->
   exists p n,
     mapRowToProduct hs row = Ok p /\
     of_variant0 inventory_quantity p = Some n /\
     n = match parseInt (ToString (cell row j)) with
         | Some z => if truthy_number (double_of_Z z) then double_of_Z z else zero
         | None => zero
         end /\
     (forall z, parseInt (ToString (cell row j)) = Some z ->
        Z.abs z < 2 ^ 53 -> n = of_Z z) /\
     ((exists neg m, n = Dec neg m 0) \/ (exists neg, n = Infinity neg))) /\
  (header_field h = Some FWeight ->
   (forall k h', (j < k)%nat -> nth_error hs k = Some h' ->
      writes FWeight h' (cell row k) = false) ->
   exists p w,
     mapRowToProduct hs row = Ok p /\
     of_variant0 weight p = Some w /\
     w = (if truthy_number (parseFloat (ToString (cell row j)))
          then parseFloat (ToString (cell row j)) else zero) /\
     is_nan w = false).
Proof.
  intros Hj Hs Hdef. split.
  - intros Hf Hno.
    assert (W : writes FInventoryQuantity h (cell row j) = true)
      by (apply writes_true; auto).
    destruct (last_writer_total _ hs row j h Hj W Hno Hdef) as (p & E & Hr);
      [discriminate|].
    simpl in Hr.
    destruct (of_variant0 inventory_quantity p) as [n|] eqn:Ev; simpl in Hr;
      [|discriminate].
    injection Hr as ->. unfold parseInt_value.
    exists p, (or_zero (parseInt_value (cell row j))).
    split; [exact E|]. split; [exact Ev|]. unfold parseInt_value.
    destruct (parseInt (ToString (cell row j))) as [z|]; [|split; [reflexivity|]].
    + split; [reflexivity|]. split.
      * intros z' Hz' Hsmall. injection Hz' as <-.
        rewrite (double_of_Z_small z Hsmall). apply or_zero_of_Z.
      * unfold or_zero.
        destruct (truthy_number (double_of_Z z)); [|left; exists false, 0%N; reflexivity].
        destruct (double_of_Z_integer z) as [[m Hm]|Hi]; [left|right]; eauto.
    + split; [discriminate|]. left. exists false, 0%N. reflexivity.
  - intros Hf Hno.
    assert (W : writes FWeight h (cell row j) = true)
      by (apply writes_true; auto).
    destruct (last_writer_total _ hs row j h Hj W Hno Hdef) as (p & E & Hr);
      [discriminate|].
    simpl in Hr.
    destruct (of_variant0 weight p) as [n|] eqn:Ev; simpl in Hr; [|discriminate].
    injection Hr as ->. unfold parseFloat_value in Ev.
    exists p, (or_zero (parseFloat (ToString (cell row j)))).
    split; [exact E|]. split; [exact Ev|].
    split; [reflexivity|apply or_zero_not_nan].
Qed.

(** A stock cell without a numeral: the quantity is 0. *)
Lemma numeric_fields_default_to_zero_witness :
  exists p,
    mapRowToProduct [VStr "Title"; VStr "Stock"] [VStr "Shirt"; VStr "many"] = Ok p /\
    of_variant0 inventory_quantity p = Some zero.
Proof.
  destruct (proj1 (numeric_fields_default_to_zero
                     [VStr "Title"; VStr "Stock"] [VStr "Shirt"; VStr "many"]
                     1%nat (VStr "Stock") eq_refl eq_refl eq_refl) eq_refl)
    as (p & n & E & Hq & Hn & _).
  - intros [|[|k]] h' Hk Hn; [lia|lia|]. destruct k; discriminate.
  - exists p. split; [exact E|]. rewrite Hq, Hn. reflexivity.
Defined.

(** C6 as stated fails on a cell that is not a number but starts with one:
    the stock cell "12abc" gives the quantity 12 and the weight cell "3.5kg"
    the weight 3.5, not 0. *)
Lemma numeral_prefix_is_kept :
  exists p,
    mapRowToProduct [VStr "Title"; VStr "Stock"; VStr "Weight"]
                    [VStr "Shirt"; VStr "12abc"; VStr "3.5kg"] = Ok p /\
    of_variant0 inventory_quantity p = Some (of_Z 12) /\
    of_variant0 inventory_quantity p <> Some zero /\
    of_variant0 weight p = Some (Dec false 35 (-1)) /\
    of_variant0 weight p <> Some zero.
Proof.
  eexists. split; [vm_compute; reflexivity|].
  vm_compute. repeat split; discriminate.
Qed.

(** Long numerals: beyond 2^53 the quantity is the nearest double, beyond
    the doubles it is an infinity, and a weight is the nearest double of the
    decimal. *)
Example long_numerals_are_rounded :
  parseInt_value (VStr "9007199254740993") = of_Z 9007199254740992 /\
  parseInt_value (VStr ("1" ++ zeros 309)) = Infinity false /\
  parseFloat "1e400" = Infinity false /\
  parseFloat "1e-400" = zero /\
  parseFloat "0.1"
  = Dec false 1000000000000000055511151231257827021181583404541015625 (-55) /\
  exists p,
    mapRowToProduct [VStr "Title"; VStr "Stock"]
                    [VStr "Shirt"; VStr ("1" ++ zeros 309)] = Ok p /\
    of_variant0 inventory_quantity p = Some (Infinity false).
Proof.
  split; [vm_compute; reflexivity|].
  split; [vm_compute; reflexivity|].
  split; [vm_compute; reflexivity|].
  split; [vm_compute; reflexivity|].
  split; [vm_compute; reflexivity|].
  eexists. split; vm_compute; reflexivity.
Qed.

Lemma falsy_skipped (v : value) :
  falsy v = true -> is_number_zero v = false -> skipped v = true.
Proof. unfold falsy, skipped. intros -> ->. reflexivity. Qed.

(** What the case of [f] makes of a cell that holds the number 0, of either
    sign: the cell itself, the text "0", the number 0, or the flag false. *)
Lemma converted_zero (f : field) (n : number) :
  is_zero n = true -> f <> FImages ->
  converted f (VNum n) =
  Some (match f with
        | FTitle | FBodyHtml | FVendor | FProductType | FTags | FWeightUnit =>
            FRaw (VNum n)
        | FPublished => FFlag false
        | FInventoryQuantity | FWeight => FNumber zero
        | FSku | FBarcode | FPrice | FCompareAtPrice | FCost | FOption1
        | FOption2 => FText "0"
        | FImages => FImageList []
        end).
Proof.
  intros Hz Hf.
  assert (Ht : ToString (VNum n) = "0").
  { destruct n as [| |neg c e]; try discriminate Hz.
    cbn [is_zero] in Hz. cbn [ToString number_toString]. now rewrite Hz. }
  destruct f; try congruence; cbn [converted]; try reflexivity;
    unfold parseInt_value, parseFloat_value; rewrite ?Ht; reflexivity.
Qed.

(** C10.  A cell whose value is falsy and not the number 0 ends the callback
    before the header is even read, so the product is returned as it was, and
    a property whose only column holds such a cell is unset in the mapped
    product.  The empty string, [null], [undefined], the boolean false and NaN
    are such cells.  Among falsy cells exactly the number 0 passes the guard;
    in the last column of a property it sets that property in the mapped
    product: to the cell itself, to the text "0", to the number 0 or to the
    flag false, as the case of the header has it.  Under an image header the
    0 runs the case, which adds no image for a falsy cell. *)
Theorem falsy_cells_are_skipped :
  (forall v, falsy v = true -> is_number_zero v = false ->
     forall p h, mapColumn p h v = Ok p) /\
  (forall f hs row i h,
     nth_error hs i = Some h ->
     falsy (cell row i) = true -> is_number_zero (cell row i) = false ->
     (forall k h', k <> i -> nth_error hs k = Some h' ->
        writes f h' (cell row k) = false) ->
     forallb header_defined hs = true ->
     exists p, mapRowToProduct hs row = Ok p /\ read_field f p = None) /\
  (skipped (VStr EmptyString) = true /\ skipped VNull = true /\
   skipped VUndefined = true /\ skipped (VBool false) = true /\
   skipped (VNum NaN) = true) /\
  (forall v, falsy v = true -> (skipped v = false <-> is_number_zero v = true)) /\
  (forall f hs row j h n,
     nth_error hs j = Some h ->
     cell row j = VNum n -> is_zero n = true ->
     header_field h = Some f -> f <> FImages ->
     (forall k h', (j < k)%nat -> nth_error hs k = Some h' ->
        writes f h' (cell row k) = false) ->
     forallb header_defined hs = true ->
     exists p,
       mapRowToProduct hs row = Ok p /\
       read_field f p =
       Some (match f with
             | FTitle | FBodyHtml | FVendor | FProductType | FTags
             | FWeightUnit => FRaw (VNum n)
             | FPublished => FFlag false
             | FInventoryQuantity | FWeight => FNumber zero
             | FSku | FBarcode | FPrice | FCompareAtPrice | FCost | FOption1
             | FOption2 => FText "0"
             | FImages => FImageList []
             end)) /\
  (forall hs row j h n p,
     nth_error hs j = Some h ->
     cell row j = VNum n -> is_zero n = true ->
     header_field h = Some FImages ->
     (forall k h', (j < k)%nat -> nth_error hs k = Some h' ->
        writes FImages h' (cell row k) = false) ->
     mapRowToProduct hs row = Ok p ->
     exists q,
       after_columns hs row j = Ok q /\
       read_field FImages p = read_field FImages q).
Proof.
  split; [|split; [|split; [|split; [|split]]]].
  - intros v Hf Hz p h. apply skipped_true_mapColumn. now apply falsy_skipped.
  - intros f hs row i h Hi Hf Hz Hno Hdef.
    destruct (mapRowToProduct_total hs row Hdef) as [p E].
    exists p. split; [exact E|].
    rewrite <- after_columns_all in E.
    eapply after_columns_unset; [|exact E].
    intros k h' _ Hk. destruct (Nat.eq_dec k i) as [->|N].
    + unfold writes. rewrite (falsy_skipped _ Hf Hz). reflexivity.
    + now apply Hno.
  - repeat split.
  - intros v Hf. unfold skipped, falsy in *.
    apply negb_true_iff in Hf. rewrite Hf. simpl.
    destruct (is_number_zero v); simpl; split; congruence.
  - intros f hs row j h n Hj Hc Hz Hh Hf Hno Hdef.
    assert (W : writes f h (cell row j) = true).
    { apply writes_true. split; [|exact Hh].
      rewrite Hc. unfold skipped. cbn [is_number_zero]. rewrite Hz.
      now rewrite andb_false_r. }
    destruct (last_writer_total f hs row j h Hj W Hno Hdef Hf) as (p & E & Hr).
    exists p. split; [exact E|].
    rewrite Hr, Hc. now apply converted_zero.
  - intros hs row j h n p Hj Hc Hz Hh Hno E.
    destruct (last_writer FImages hs row j h p Hj Hno E) as (q & Eq & Hr).
    exists q. split; [exact Eq|]. rewrite Hr, Hc.
    assert (Hfalse : truthy (VNum n) = false).
    { cbn [truthy]. unfold truthy_number. rewrite Hz. now rewrite orb_true_r. }
    cbn [converted]. rewrite Hfalse. cbn [andb].
    now destruct (writes FImages h (VNum n)).
Qed.

(** A row whose Vendor cell is the boolean false has no vendor in the
    product; a row whose Price cell is the number 0 has the price "0". *)
Lemma falsy_cells_are_skipped_witness :
  (exists p,
     mapRowToProduct [VStr "Title"; VStr "Vendor"] [VStr "Shirt"; VBool false] = Ok p /\
     read_field FVendor p = None) /\
  (exists p,
     mapRowToProduct [VStr "Title"; VStr "Price"] [VStr "Shirt"; VNum zero] = Ok p /\
     read_field FPrice p = Some (FText "0")).
Proof.
  split.
  - refine (proj1 (proj2 falsy_cells_are_skipped) FVendor
              [VStr "Title"; VStr "Vendor"] [VStr "Shirt"; VBool false]
              1%nat (VStr "Vendor") eq_refl eq_refl eq_refl _ eq_refl).
    intros [|[|k]] h' Hk Hn.
    + now injection Hn as <-.
    + congruence.
    + destruct k; discriminate.
  - refine (proj1 (proj2 (proj2 (proj2 (proj2 falsy_cells_are_skipped)))) FPrice
              [VStr "Title"; VStr "Price"] [VStr "Shirt"; VNum zero]
              1%nat (VStr "Price") zero eq_refl eq_refl eq_refl eq_refl _ _ eq_refl).
    + discriminate.
    + intros [|[|k]] h' Hk Hn; [lia|lia|]. destruct k; discriminate.
Defined.

(** The validator accepts exactly the products with a truthy title. *)
Lemma isValidProduct_iff (p : Product) :
  isValidProduct p = true <-> exists t, title p = Some t /\ truthy t = true.
Proof.
  unfold isValidProduct. destruct (title p) as [t|]; split.
  - intros H. eauto.
  - intros (t' & E & H). now injection E as ->.
  - discriminate.
  - intros (t' & E & _). discriminate.
Qed.

(** ** Row numbers as text *)

Lemma append_assoc (a b c : string) : ((a ++ b) ++ c = a ++ (b ++ c))%string.
Proof. induction a as [|x a IH]; simpl; [reflexivity|now rewrite IH]. Qed.

Lemma digits_aux_acc (fuel : nat) (n : N) (acc : string) :
  digits_aux fuel n acc = (digits_aux fuel n EmptyString ++ acc)%string.
Proof.
  revert n acc. induction fuel as [|f IH]; intros n acc; simpl; [reflexivity|].
  destruct (n <? 10)%N; [reflexivity|].
  rewrite IH. rewrite (IH _ (String _ EmptyString)).
  now rewrite append_assoc.
Qed.

Lemma digit_val_digit_char (d : N) :
  (d < 10)%N -> digit_val 10 (digit_char d) = Some d.
Proof.
  intros H.
  assert (E : (d = 0 \/ d = 1 \/ d = 2 \/ d = 3 \/ d = 4 \/ d = 5 \/ d = 6 \/
               d = 7 \/ d = 8 \/ d = 9)%N) by lia.
  repeat (destruct E as [ -> | E ]; [reflexivity|]). now subst.
Qed.

Lemma all_decimal_app (a b : string) :
  all_decimal a -> all_decimal b -> all_decimal (a ++ b).
Proof.
  induction a as [|c a IH]; simpl; [auto|]. intros [H1 H2] Hb. auto.
Qed.

Lemma parse_digits_app (a b : string) (acc : option N) :
  all_decimal a ->
  parse_digits 10 (a ++ b) acc = parse_digits 10 b (parse_digits 10 a acc).
Proof.
  revert acc. induction a as [|c a IH]; intros acc H; simpl; [reflexivity|].
  destruct H as [Hc Ha]. destruct (digit_val 10 c) as [d|]; [|congruence].
  now apply IH.
Qed.

Lemma digits_aux_S (f : nat) (n : N) (acc : string) :
  digits_aux (S f) n acc =
  if (n <? 10)%N then String (digit_char (n mod 10)) acc
  else digits_aux f (n / 10) (String (digit_char (n mod 10)) acc).
Proof. reflexivity. Qed.

(** With enough fuel the digits of [n] read back as [n]. *)
Lemma digits_aux_spec (f : nat) (n : N) :
  (n < 2 ^ N.of_nat (S f))%N ->
  all_decimal (digits_aux (S f) n EmptyString) /\
  digits_aux (S f) n EmptyString <> EmptyString /\
  parse_digits 10 (digits_aux (S f) n EmptyString) None = Some n.
Proof.
  revert n. induction f as [|f IH]; intros n Hn.
  - assert (H : (n < 10)%N) by (change (2 ^ N.of_nat 1)%N with 2%N in Hn; lia).
    rewrite digits_aux_S.
    assert (Hb : (n <? 10)%N = true) by (apply N.ltb_lt; exact H). rewrite Hb.
    pose proof (digit_val_digit_char n H) as Hd.
    rewrite (N.mod_small n 10 H). simpl. rewrite Hd. repeat split; congruence.
  - rewrite digits_aux_S.
    assert (Hm : (n mod 10 < 10)%N) by (apply N.mod_lt; lia).
    pose proof (digit_val_digit_char _ Hm) as Hd.
    destruct (n <? 10)%N eqn:Hb.
    + apply N.ltb_lt in Hb. rewrite (N.mod_small n 10 Hb) in *.
      simpl. rewrite Hd. repeat split; congruence.
    + apply N.ltb_ge in Hb.
      assert (Hq : (n / 10 < 2 ^ N.of_nat (S f))%N).
      { apply N.Div0.div_lt_upper_bound.
        replace (N.of_nat (S (S f))) with (N.succ (N.of_nat (S f))) in Hn by lia.
        rewrite N.pow_succ_r' in Hn. lia. }
      destruct (IH _ Hq) as (Ha & Hne & Hp).
      rewrite digits_aux_acc. split; [|split].
      * apply all_decimal_app; [exact Ha|]. simpl. split; [congruence|exact I].
      * destruct (digits_aux (S f) (n / 10) EmptyString); [congruence|discriminate].
      * rewrite parse_digits_app by exact Ha. rewrite Hp. simpl. rewrite Hd.
        f_equal. pose proof (N.div_mod n 10). lia.
Qed.

Lemma digits_spec (n : N) :
  all_decimal (digits n) /\ digits n <> EmptyString /\
  parse_digits 10 (digits n) None = Some n.
Proof.
  unfold digits. apply digits_aux_spec.
  rewrite Nnat.N2Nat.id || idtac.
  destruct (N.eq_dec n 0) as [->|Hn]; [reflexivity|].
  replace (N.of_nat (S (N.to_nat (N.log2 n)))) with (N.succ (N.log2 n)) by lia.
  apply N.log2_spec. lia.
Qed.

Lemma decimal_char_facts (c : ascii) :
  digit_val 10 c <> None ->
  is_space c = false /\ Ascii.eqb c "-" = false /\ Ascii.eqb c "+" = false /\
  Ascii.eqb "x" c = false /\ Ascii.eqb "X" c = false.
Proof.
  destruct c as [[] [] [] [] [] [] [] []]; vm_compute; intros H;
    try (exfalso; apply H; reflexivity); repeat split.
Qed.

(** On a non-empty string of decimal digits [parseInt] reads all of it. *)
Lemma parseInt_decimal (s : string) :
  all_decimal s -> s <> EmptyString ->
  parseInt s =
  match parse_digits 10 s None with
  | Some n => Some (Z.of_N n)
  | None => None
  end.
Proof.
  destruct s as [|c r]; [congruence|]. intros [Hc Hr] _.
  destruct (decimal_char_facts c Hc) as (Hsp & Hm & Hp & _).
  unfold parseInt. cbn [trimStart]. rewrite Hsp.
  unfold read_sign. rewrite Hm, Hp.
  assert (Hx : starts_with "0x" (String c r) || starts_with "0X" (String c r) = false).
  { destruct r as [|c2 r2]; cbn [starts_with].
    - now rewrite !andb_false_r.
    - destruct Hr as [Hc2 _].
      destruct (decimal_char_facts c2 Hc2) as (_ & _ & _ & Hx & HX).
      rewrite Hx, HX. cbn [andb]. now rewrite !andb_false_r. }
  rewrite Hx. reflexivity.
Qed.

(** The text of a row number reads back as that number. *)
Lemma parseInt_int_toString (z : Z) :
  0 <= z -> parseInt (int_toString z) = Some z.
Proof.
  intros Hz. unfold int_toString.
  assert (Hn : (z <? 0) = false) by (apply Z.ltb_ge; exact Hz). rewrite Hn.
  cbn [append].
  destruct (digits_spec (Z.abs_N z)) as (Ha & Hne & Hp).
  rewrite (parseInt_decimal _ Ha Hne), Hp. f_equal. lia.
Qed.

Lemma int_toString_not_empty (z : Z) :
  0 <= z -> is_empty (int_toString z) = false.
Proof.
  intros Hz. unfold int_toString.
  assert (Hn : (z <? 0) = false) by (apply Z.ltb_ge; exact Hz). rewrite Hn.
  cbn [append].
  destruct (digits_spec (Z.abs_N z)) as (_ & Hne & _).
  destruct (digits (Z.abs_N z)); [congruence|reflexivity].
Qed.

Lemma lookup_put (key v : string) (ps : list (string * string)) :
  lookup key (put key v ps) = Some v.
Proof.
  induction ps as [|[k x] r IH]; simpl.
  - now rewrite String.eqb_refl.
  - destruct (String.eqb k key) eqn:E; simpl.
    + now rewrite String.eqb_refl.
    + now rewrite E.
Qed.

(** ** The catalog client *)

Section Client.

Variable host : Host.

Ltac run_monad :=
  unfold createShopifyProduct, try_catch, bind, fetch, lift, ret, throw in *;
  cbn beta iota zeta in *.

Lemma get_truthy_id (data : json) :
  truthy_json (Some data) = true -> exists id, get data "id" = Ok id.
Proof. destruct data; simpl; intros H; try discriminate; eauto. Qed.

(** The client returns a result, whatever the remote end does, and the
    world is the one it started in with the request sent. *)
Lemma createShopifyProduct_total (p : Product) (w : World) :
  exists r, createShopifyProduct host p w = (Ok r, sent (request_of host p) w).
Proof.
  unfold sent. run_monad.
  destruct (UrlFetchApp_fetch host (requests w) (request_of host p))
    as [response|e]; [|eauto].
  destruct (JSON_parse host (getContentText response)) as [body|e]; [|eauto].
  destruct ((200 <=? getResponseCode response) && (getResponseCode response <? 300));
    [|eauto].
  destruct (get body "product") as [[data|]|e]; [|eauto|eauto].
  destruct (truthy_json (Some data)) eqn:Ht; [|eauto].
  destruct (get_truthy_id data Ht) as [id Hid]. rewrite Hid. eauto.
Qed.

(** C8, as the script has it.  [createShopifyProduct] never throws and sends
    one request.  It returns [{success: true, id, data}] exactly when the
    remote end answered, the body parsed, the response code is in [200, 300)
    and the [product] member of the body is truthy, [data] being that member
    and [id] its [id]; otherwise it returns [{success: false, error}], where
    [error] is the text of the exception when the fetch, the parse or the
    access to the [product] member threw, and "API Error (code): body" when
    the code is not 2xx or the [product] member is missing or falsy. *)
Theorem createShopifyProduct_never_throws (p : Product) (w : World) :
  exists r,
    createShopifyProduct host p w = (Ok r, sent (request_of host p) w) /\
    (forall id data,
        r = Success id data <->
        exists code body,
          answer host p w = Ok (code, body) /\ 200 <= code < 300 /\
          has_product body data /\ get data "id" = Ok id) /\
    (success r = false -> exists error, r = Failure error) /\
    (forall e, answer host p w = Throw e -> r = Failure (exn_toString e)) /\
    (forall code body,
        answer host p w = Ok (code, body) -> ~ (200 <= code < 300) ->
        r = Failure (api_error host code body)) /\
    (forall code body,
        answer host p w = Ok (code, body) -> 200 <= code < 300 ->
        (get body "product" = Ok None \/
         exists data, get body "product" = Ok (Some data) /\
                      truthy_json (Some data) = false) ->
        r = Failure (api_error host code body)) /\
    (forall code body e,
        answer host p w = Ok (code, body) -> 200 <= code < 300 ->
        get body "product" = Throw e ->
        r = Failure (exn_toString e)).
Proof.
  unfold answer, has_product, sent. run_monad.
  destruct (UrlFetchApp_fetch host (requests w) (request_of host p))
    as [response|e]; cbn [rbind].
  2:{ eexists. split; [reflexivity|]. repeat split.
      - discriminate.
      - intros (c & b & H & _). discriminate.
      - eauto.
      - intros e' H. now injection H as <-.
      - discriminate.
      - discriminate.
      - discriminate. }
  destruct (JSON_parse host (getContentText response)) as [body|e]; cbn [rbind].
  2:{ eexists. split; [reflexivity|]. repeat split.
      - discriminate.
      - intros (c & b & H & _). discriminate.
      - eauto.
      - intros e' H. now injection H as <-.
      - discriminate.
      - discriminate.
      - discriminate. }
  set (code := getResponseCode response).
  destruct ((200 <=? code) && (code <? 300)) eqn:Hc.
  - assert (Hr : 200 <= code < 300) by lia.
    destruct (get body "product") as [[data|]|e] eqn:Hg.
    + destruct (truthy_json (Some data)) eqn:Ht.
      * destruct (get_truthy_id data Ht) as [id Hid]. rewrite Hid.
        eexists. split; [reflexivity|]. repeat split.
        -- intros H. injection H as <- <-. exists code, body. auto.
        -- intros (c & b & H & _ & (Hb & _) & Hi).
           injection H as <- <-. rewrite Hg in Hb. injection Hb as <-.
           rewrite Hid in Hi. now injection Hi as <-.
        -- discriminate.
        -- discriminate.
        -- intros c b H Hn. injection H as <- <-. contradiction.
        -- intros c b H _ [Hx|(d & Hx & Hy)]; injection H as <- <-;
             rewrite Hg in Hx; [discriminate|].
           injection Hx as <-. congruence.
        -- intros c b e0 H _ Hx; injection H as <- <-; rewrite Hg in Hx; discriminate.
      * eexists. split; [reflexivity|]. repeat split.
        -- discriminate.
        -- intros (c & b & H & _ & (Hb & Hy) & _).
           injection H as <- <-. rewrite Hg in Hb. injection Hb as <-. congruence.
        -- eauto.
        -- discriminate.
        -- intros c b H _. now injection H as <- <-.
        -- intros c b H _ _. now injection H as <- <-.
        -- intros c b e0 H _ Hx; injection H as <- <-; rewrite Hg in Hx; discriminate.
    + eexists. split; [reflexivity|]. repeat split.
      * discriminate.
      * intros (c & b & H & _ & (Hb & _) & _).
        injection H as <- <-. rewrite Hg in Hb. discriminate.
      * eauto.
      * discriminate.
      * intros c b H _. now injection H as <- <-.
      * intros c b H _ _. now injection H as <- <-.
      * intros c b e0 H _ Hx; injection H as <- <-; rewrite Hg in Hx; discriminate.
    + eexists. split; [reflexivity|]. repeat split.
      * discriminate.
      * intros (c & b & H & _ & (Hb & _) & _).
        injection H as <- <-. rewrite Hg in Hb. discriminate.
      * eauto.
      * discriminate.
      * intros c b H Hn. injection H as <- <-. contradiction.
      * intros c b H _ [Hx|(d & Hx & _)]; injection H as <- <-;
          rewrite Hg in Hx; discriminate.
      * intros c b e0 H _ Hx. injection H as <- <-. rewrite Hg in Hx.
        now injection Hx as <-.
  - assert (Hr : ~ (200 <= code < 300)) by lia.
    eexists. split; [reflexivity|]. repeat split.
    + discriminate.
    + intros (c & b & H & Hcb & _). injection H as <- <-. contradiction.
    + eauto.
    + discriminate.
    + intros c b H _. now injection H as <- <-.
    + intros c b H _ _. now injection H as <- <-.
    + intros c b e0 H Hcb. injection H as <- <-. contradiction.
Qed.

End Client.

(** ** The sync loop *)

Section Loop.

Variable host : Host.

Ltac step_monad :=
  unfold processRow, try_catch, bind, lift, ret, throw, Logger_log,
    updateSyncStatus, now_toLocaleString;
  cbn beta iota zeta.

Lemma processRow_blank (headers : option (list value)) (data : list (list value))
  (r : Z) (w : World) (rowData : list value) :
  at_index data (r - 1) = Some rowData -> is_blank rowData = true ->
  processRow host headers data r w = (Ok tt, w).
Proof.
  intros Hd Hb. unfold is_blank in Hb. step_monad. now rewrite Hd, Hb.
Qed.

Lemma processRow_mapping_throws (headers : option (list value))
  (data : list (list value)) (r : Z) (w : World) (rowData : list value) (e : exn) :
  at_index data (r - 1) = Some rowData -> is_blank rowData = false ->
  map_row headers rowData = Throw e ->
  processRow host headers data r w =
  (Ok tt,
   with_status r ("ERROR: " ++ exn_toString e)
     (logged ("Error processing row " ++ int_toString r ++ ": " ++ exn_toString e) w)).
Proof.
  intros Hd Hb Hm. unfold is_blank in Hb. step_monad. now rewrite Hd, Hb, Hm.
Qed.

Lemma processRow_invalid (headers : option (list value))
  (data : list (list value)) (r : Z) (w : World) (rowData : list value)
  (p : Product) :
  at_index data (r - 1) = Some rowData -> is_blank rowData = false ->
  map_row headers rowData = Ok p -> isValidProduct p = false ->
  processRow host headers data r w =
  (Ok tt,
   with_status r ("ERROR: " ++ invalid_message r) (logged (invalid_message r) w)).
Proof.
  intros Hd Hb Hm Hv. unfold is_blank in Hb. step_monad.
  now rewrite Hd, Hb, Hm, Hv.
Qed.

Lemma processRow_valid (headers : option (list value))
  (data : list (list value)) (r : Z) (w w1 : World) (rowData : list value)
  (p : Product) (resp : ApiResult) :
  at_index data (r - 1) = Some rowData -> is_blank rowData = false ->
  map_row headers rowData = Ok p -> isValidProduct p = true ->
  createShopifyProduct host p w = (Ok resp, w1) ->
  processRow host headers data r w =
  (Ok tt,
   match resp with
   | Success id _ =>
       logged ("Successfully created product from row " ++ int_toString r
               ++ " (Shopify ID: " ++ id_ToString id ++ ")")
         (with_status r
            ("Synced: " ++ Date_toLocaleString host (requests w1) ++ " (ID: "
             ++ id_ToString id ++ ")") w1)
   | Failure error =>
       logged ("Failed to create product from row " ++ int_toString r ++ ": "
               ++ error)
         (with_status r ("ERROR: " ++ error) w1)
   end).
Proof.
  intros Hd Hb Hm Hv Hc. unfold is_blank in Hb. step_monad.
  rewrite Hd, Hb, Hm, Hv. cbn [negb]. rewrite Hc.
  destruct resp; reflexivity.
Qed.

Lemma set_row_cell_length (r i : nat) (x : value) (rows : list (list value)) :
  length (set_row_cell r i x rows) = length rows.
Proof.
  revert r. induction rows as [|row t IH]; intros r; [reflexivity|].
  destruct r; simpl; [reflexivity|]. now rewrite IH.
Qed.

(** A status text leaves the number of rows as it is. *)
Lemma getLastRow_with_status (r : Z) (status : string) (w : World) :
  getLastRow (sheet (with_status r status w)) = getLastRow (sheet w).
Proof.
  unfold getLastRow, with_status, write_status. cbn [sheet set_sheet rows].
  destruct (r <? 1); [reflexivity|]. now rewrite set_row_cell_length.
Qed.

(** The loop body never throws on a row of the data range; it leaves the
    properties and the number of rows alone, appends to the requests, and
    appends to the status column texts for its own row only. *)
Lemma processRow_total (headers : option (list value)) (data : list (list value))
  (r : Z) (w : World) (rowData : list value) :
  at_index data (r - 1) = Some rowData ->
  exists w',
    processRow host headers data r w = (Ok tt, w') /\
    properties w' = properties w /\
    getLastRow (sheet w') = getLastRow (sheet w) /\
    (exists new, outcomes w' = List.app (outcomes w) new /\
                 forall e, In e new -> fst e = r) /\
    (exists new, requests w' = requests w ++ new)%list.
Proof.
  intros Hd. destruct (is_blank rowData) eqn:Hb.
  - exists w. rewrite (processRow_blank _ _ _ _ _ Hd Hb).
    repeat split; exists []; rewrite app_nil_r; try split; try reflexivity.
    intros e [].
  - assert (Hone : forall (t : string) e, In e [(r, t)] -> fst e = r).
    { intros t e [<-|[]]. reflexivity. }
    assert (Hrows : forall (t m : string) w0,
              getLastRow (sheet (logged m (with_status r t w0)))
              = getLastRow (sheet w0)).
    { intros t m w0. apply (getLastRow_with_status r t w0). }
    assert (Hrows' : forall (t m : string) w0,
              getLastRow (sheet (with_status r t (logged m w0)))
              = getLastRow (sheet w0)).
    { intros t m w0. apply (getLastRow_with_status r t (logged m w0)). }
    destruct (map_row headers rowData) as [p|e] eqn:Hm.
    + destruct (isValidProduct p) eqn:Hv.
      * destruct (createShopifyProduct_total host p w) as (resp & Hc).
        rewrite (processRow_valid _ _ _ _ _ _ _ _ Hd Hb Hm Hv Hc).
        eexists. split; [reflexivity|].
        destruct resp; (split; [reflexivity|]);
          (split; [apply (Hrows _ _ (sent (request_of host p) w))|]);
          (split; [eexists; split; [reflexivity|apply Hone]|]);
          eexists; reflexivity.
      * rewrite (processRow_invalid _ _ _ _ _ _ Hd Hb Hm Hv).
        eexists. split; [reflexivity|]. split; [reflexivity|].
        split; [apply Hrows'|].
        split; [eexists; split; [reflexivity|apply Hone]|].
        exists []. simpl. now rewrite app_nil_r.
    + rewrite (processRow_mapping_throws _ _ _ _ _ _ Hd Hb Hm).
      eexists. split; [reflexivity|]. split; [reflexivity|].
      split; [apply Hrows'|].
      split; [eexists; split; [reflexivity|apply Hone]|].
      exists []. simpl. now rewrite app_nil_r.
Qed.

(** A row that fails gets one text in the status column, an error. *)
Lemma processRow_failure_recorded (headers : option (list value))
  (data : list (list value)) (r : Z) (w : World) (rowData : list value) :
  at_index data (r - 1) = Some rowData -> is_blank rowData = false ->
  row_fails host headers rowData w = true ->
  exists w' msg,
    processRow host headers data r w = (Ok tt, w') /\
    outcomes w' = List.app (outcomes w) [(r, "ERROR: " ++ msg)].
Proof.
  intros Hd Hb Hf. unfold row_fails in Hf.
  destruct (map_row headers rowData) as [p|e] eqn:Hm.
  - destruct (isValidProduct p) eqn:Hv.
    + destruct (createShopifyProduct_total host p w) as (resp & Hc).
      rewrite (processRow_valid _ _ _ _ _ _ _ _ Hd Hb Hm Hv Hc).
      unfold remote_fails in Hf. rewrite Hc in Hf. simpl in Hf.
      destruct resp as [id d|err]; [discriminate|].
      eexists. exists err. split; reflexivity.
    + rewrite (processRow_invalid _ _ _ _ _ _ Hd Hb Hm Hv).
      eexists. eexists. split; reflexivity.
  - rewrite (processRow_mapping_throws _ _ _ _ _ _ Hd Hb Hm).
    eexists. eexists. split; reflexivity.
Qed.

End Loop.

Section Pass.

Variable host : Host.

Lemma forRows_split (headers : option (list value)) (data : list (list value))
  (a b : nat) (i : Z) (w : World) :
  forRows host headers data (a + b) i w =
  match forRows host headers data a i w with
  | (Ok _, w1) => forRows host headers data b (i + Z.of_nat a) w1
  | (Throw e, w1) => (Throw e, w1)
  end.
Proof.
  revert i w. induction a as [|a IH]; intros i w.
  - simpl. unfold ret. now rewrite Z.add_0_r.
  - cbn [forRows Nat.add]. unfold bind.
    destruct (processRow host headers data i w) as [[u|e] w1]; [|reflexivity].
    rewrite IH. replace (i + 1 + Z.of_nat a) with (i + Z.of_nat (S a)) by lia.
    reflexivity.
Qed.

(** The loop runs to its end when every row it visits is in the data
    range; it leaves the properties and the cells alone, and the texts it
    appends to the status column are for the rows it visits. *)
Lemma forRows_total (headers : option (list value)) (data : list (list value))
  (n : nat) (i : Z) (w : World) :
  (forall k, (k < n)%nat ->
     exists rowData, at_index data (i + Z.of_nat k - 1) = Some rowData) ->
  exists w',
    forRows host headers data n i w = (Ok tt, w') /\
    properties w' = properties w /\
    getLastRow (sheet w') = getLastRow (sheet w) /\
    (exists new, outcomes w' = List.app (outcomes w) new /\
                 forall e, In e new -> i <= fst e < i + Z.of_nat n) /\
    (exists new, requests w' = requests w ++ new)%list.
Proof.
  revert i w. induction n as [|n IH]; intros i w Hin.
  - exists w. simpl. unfold ret.
    repeat split; exists []; rewrite app_nil_r; try split; try reflexivity.
    intros e [].
  - destruct (Hin 0%nat) as [rowData Hd]; [lia|].
    rewrite Z.add_0_r in Hd.
    destruct (processRow_total host headers data i w rowData Hd)
      as (w1 & E1 & P1 & R1 & (o1 & O1 & K1) & (q1 & Q1)).
    destruct (IH (i + 1) w1) as (w2 & E2 & P2 & R2 & (o2 & O2 & K2) & (q2 & Q2)).
    { intros k Hk. destruct (Hin (S k)) as [rd Hrd]; [lia|].
      exists rd. rewrite <- Hrd. f_equal. lia. }
    exists w2. cbn [forRows]. unfold bind. rewrite E1, E2.
    split; [reflexivity|]. split; [congruence|]. split; [congruence|]. split.
    + exists (o1 ++ o2)%list. rewrite O2, O1. split; [now rewrite app_assoc|].
      intros e He. apply in_app_or in He. destruct He as [He|He].
      * rewrite (K1 e He). lia.
      * specialize (K2 e He). lia.
    + exists (q1 ++ q2)%list. rewrite Q2, Q1. now rewrite app_assoc.
Qed.

(** Rows 1 to [getLastRow] are in the data range. *)
Lemma at_index_in_range (s : Sheet) (r : Z) :
  1 <= r <= getLastRow s ->
  exists rowData, at_index (getValues s) (r - 1) = Some rowData.
Proof.
  unfold getLastRow, getValues, at_index. intros Hr.
  assert (Hlt : (r - 1 <? 0) = false) by (apply Z.ltb_ge; lia). rewrite Hlt.
  destruct (rows s) as [|row0 rest] eqn:Er; [simpl in Hr; lia|].
  destruct (nth_error (row0 :: rest) (Z.to_nat (r - 1))) as [rd|] eqn:En; [eauto|].
  apply nth_error_None in En. lia.
Qed.

Lemma loop_rows_in_range (w : World) (wm : Z) (n : nat) :
  0 <= wm -> wm + Z.of_nat n <= getLastRow (sheet w) ->
  forall k, (k < n)%nat ->
    exists rowData,
      at_index (getValues (sheet w)) (wm + 1 + Z.of_nat k - 1) = Some rowData.
Proof.
  intros H0 Hn k Hk. apply at_index_in_range. lia.
Qed.

(** In a pass that found new rows, row [r] is handled in the world the rows
    before it left, and leaves the world the next row starts from. *)
Lemma before_row_step (w : World) (wm r : Z) :
  0 <= wm -> wm < r <= getLastRow (sheet w) ->
  processRow host (at_index (getValues (sheet w)) 0) (getValues (sheet w)) r
    (before_row host w wm r) =
  (Ok tt, before_row host w wm (r + 1)).
Proof.
  intros H0 Hr. unfold before_row.
  replace (Z.to_nat (r + 1 - 1 - wm)) with (Z.to_nat (r - 1 - wm) + 1)%nat by lia.
  rewrite forRows_split.
  destruct (forRows_total (at_index (getValues (sheet w)) 0) (getValues (sheet w))
              (Z.to_nat (r - 1 - wm)) (wm + 1) (loop_start w wm))
    as (w1 & E1 & _).
  { apply loop_rows_in_range; lia. }
  rewrite E1. cbn [snd forRows]. unfold bind, ret.
  replace (wm + 1 + Z.of_nat (Z.to_nat (r - 1 - wm))) with r by lia.
  destruct (at_index_in_range (sheet w) r) as [rd Hd]; [lia|].
  destruct (processRow_total host (at_index (getValues (sheet w)) 0)
              (getValues (sheet w)) r w1 rd Hd) as (w2 & E2 & _).
  rewrite E2. reflexivity.
Qed.

(** What the loop leaves untouched, and what it only appends to: when it
    reaches row [r] the new texts of the status column are for rows before
    [r]. *)
Lemma before_row_frame (w : World) (wm r : Z) :
  0 <= wm -> wm < r <= getLastRow (sheet w) + 1 ->
  properties (before_row host w wm r) = properties w /\
  getLastRow (sheet (before_row host w wm r)) = getLastRow (sheet w) /\
  (exists new, outcomes (before_row host w wm r) = List.app (outcomes w) new /\
               forall e, In e new -> wm < fst e < r) /\
  (exists new, requests (before_row host w wm r) = requests w ++ new)%list.
Proof.
  intros H0 Hr. unfold before_row.
  destruct (forRows_total (at_index (getValues (sheet w)) 0) (getValues (sheet w))
              (Z.to_nat (r - 1 - wm)) (wm + 1) (loop_start w wm))
    as (w1 & E1 & P & R & (o & O & K) & Q).
  { apply loop_rows_in_range; lia. }
  rewrite E1. cbn [snd]. repeat split; auto.
  exists o. split; [exact O|]. intros e He. specialize (K e He). lia.
Qed.

(** The status column only grows along the loop, from row [r] on by texts
    for row [r] and later rows. *)
Lemma before_row_grows (w : World) (wm r r' : Z) :
  0 <= wm -> wm < r <= r' -> r' <= getLastRow (sheet w) + 1 ->
  exists new,
    outcomes (before_row host w wm r')
    = List.app (outcomes (before_row host w wm r)) new /\
    forall e, In e new -> r <= fst e < r'.
Proof.
  intros H0 Hr Hr'. unfold before_row.
  replace (Z.to_nat (r' - 1 - wm))
    with (Z.to_nat (r - 1 - wm) + Z.to_nat (r' - r))%nat by lia.
  rewrite forRows_split.
  destruct (forRows_total (at_index (getValues (sheet w)) 0) (getValues (sheet w))
              (Z.to_nat (r - 1 - wm)) (wm + 1) (loop_start w wm))
    as (w1 & E1 & _ & R1 & _).
  { apply loop_rows_in_range; lia. }
  rewrite E1. cbn [snd].
  destruct (forRows_total (at_index (getValues (sheet w)) 0) (getValues (sheet w))
              (Z.to_nat (r' - r)) (wm + 1 + Z.of_nat (Z.to_nat (r - 1 - wm))) w1)
    as (w2 & E2 & _ & _ & (o & O & K) & _).
  { intros k Hk. apply at_index_in_range. lia. }
  rewrite E2. exists o. split; [exact O|].
  intros e He. specialize (K e He). lia.
Qed.

(** A pass that finds new rows runs the loop over all of them and then
    stores the last row. *)
Lemma checkForNewProducts_advances (w : World) (wm : Z) :
  watermark w = Some wm -> 0 <= wm -> wm < getLastRow (sheet w) ->
  checkForNewProducts host w =
  (Ok tt,
   set_properties
     (put "lastProcessedRow" (int_toString (getLastRow (sheet w)))
        (properties (before_row host w wm (getLastRow (sheet w) + 1))))
     (before_row host w wm (getLastRow (sheet w) + 1))).
Proof.
  intros Hw H0 Hlt. unfold watermark in Hw.
  unfold checkForNewProducts, bind, getProperty, getLastDataRow.
  cbn beta iota zeta. rewrite Hw.
  assert (Hb : (wm <? getLastRow (sheet w)) = true) by (apply Z.ltb_lt; exact Hlt).
  rewrite Hb. unfold Logger_log at 1. cbn beta iota.
  unfold before_row.
  replace (Z.to_nat (getLastRow (sheet w) + 1 - 1 - wm))
    with (Z.to_nat (getLastRow (sheet w) - wm)) by lia.
  destruct (forRows_total (at_index (getValues (sheet w)) 0) (getValues (sheet w))
              (Z.to_nat (getLastRow (sheet w) - wm)) (wm + 1) (loop_start w wm))
    as (w1 & E1 & _).
  { apply loop_rows_in_range; lia. }
  unfold loop_start, getLastDataRow in *. cbn zeta in *.
  rewrite E1. reflexivity.
Qed.

(** A pass that finds no new row only writes a line to the log. *)
Lemma checkForNewProducts_no_new_rows (w : World) :
  match watermark w with
  | Some wm => getLastRow (sheet w) <= wm
  | None => True
  end ->
  checkForNewProducts host w = (Ok tt, logged "No new rows to process" w).
Proof.
  unfold watermark, checkForNewProducts, bind, getProperty, getLastDataRow.
  cbn beta iota zeta.
  destruct (read_lastProcessedRow (lookup "lastProcessedRow" (properties w)))
    as [wm|]; intros H; [|reflexivity].
  assert (Hb : (wm <? getLastRow (sheet w)) = false) by (apply Z.ltb_ge; exact H).
  now rewrite Hb.
Qed.

(** Whether it returns or throws, the loop body leaves the properties and
    the cells alone. *)
Lemma processRow_keeps (headers : option (list value)) (data : list (list value))
  (r : Z) (w : World) :
  properties (snd (processRow host headers data r w)) = properties w /\
  getLastRow (sheet (snd (processRow host headers data r w))) = getLastRow (sheet w).
Proof.
  destruct (at_index data (r - 1)) as [rowData|] eqn:Hd.
  - destruct (processRow_total host headers data r w rowData Hd)
      as (w' & E & P & R & _).
    rewrite E. auto.
  - unfold processRow. rewrite Hd. auto.
Qed.

Lemma forRows_keeps (headers : option (list value)) (data : list (list value))
  (n : nat) (i : Z) (w : World) :
  properties (snd (forRows host headers data n i w)) = properties w /\
  getLastRow (sheet (snd (forRows host headers data n i w))) = getLastRow (sheet w).
Proof.
  revert i w. induction n as [|n IH]; intros i w; [auto|].
  cbn [forRows]. unfold bind.
  destruct (processRow_keeps headers data i w) as [P R].
  destruct (processRow host headers data i w) as [[u|e] w1]; cbn [snd] in *.
  - destruct (IH (i + 1) w1) as [P1 R1]. split; congruence.
  - auto.
Qed.

(** With a negative stored watermark the loop starts at a row number below
    1 and throws there, outside the try block. *)
Lemma checkForNewProducts_aborts (w : World) (wm : Z) :
  watermark w = Some wm -> wm < 0 ->
  exists e, checkForNewProducts host w = (Throw e, loop_start w wm).
Proof.
  intros Hw Hneg. unfold watermark in Hw.
  unfold checkForNewProducts, bind, getProperty, getLastDataRow.
  cbn beta iota zeta. rewrite Hw.
  assert (Hb : (wm <? getLastRow (sheet w)) = true).
  { apply Z.ltb_lt. unfold getLastRow. lia. }
  rewrite Hb. unfold Logger_log at 1. cbn beta iota.
  destruct (Z.to_nat (getLastRow (sheet w) - wm)) as [|n] eqn:En.
  { unfold getLastRow in En. lia. }
  cbn [forRows]. unfold bind, processRow, at_index.
  assert (Hi : (wm + 1 - 1 <? 0) = true) by (apply Z.ltb_lt; lia).
  rewrite Hi. unfold throw. eexists. reflexivity.
Qed.

Lemma getLastRow_nonneg (s : Sheet) : 0 <= getLastRow s.
Proof. unfold getLastRow. lia. Qed.

Lemma watermark_stored (w : World) (z : Z) (ps : list (string * string)) :
  0 <= z ->
  watermark (set_properties (put "lastProcessedRow" (int_toString z) ps) w) = Some z.
Proof.
  intros Hz. unfold watermark. cbn [properties set_properties].
  rewrite lookup_put. unfold read_lastProcessedRow.
  rewrite (int_toString_not_empty z Hz). now apply parseInt_int_toString.
Qed.

End Pass.

(** ** Passes of the sync loop *)

(** C3.  In a pass whose last row exceeds the stored watermark, the pass
    returns without throwing and stores that last row as the new watermark.
    Every row after the old watermark up to the last row goes through the
    loop body, in the world the rows before it left, and the body returns
    normally.  A row that fails there (its mapping throws, its product is
    invalid, or the remote create does not succeed, be it by a refusal or by
    an exception) gets exactly one new text in the status column, for that
    row and starting with "ERROR: ", and that text is still there when the
    pass ends. *)
Theorem failed_rows_do_not_stop_the_pass (host : Host) (w : World) (wm : Z) :
  watermark w = Some wm -> 0 <= wm -> wm < getLastRow (sheet w) ->
  exists w',
    checkForNewProducts host w = (Ok tt, w') /\
    watermark w' = Some (getLastRow (sheet w)) /\
    forall r, wm < r <= getLastRow (sheet w) ->
      exists rowData,
        at_index (getValues (sheet w)) (r - 1) = Some rowData /\
        processRow host (at_index (getValues (sheet w)) 0) (getValues (sheet w)) r
          (before_row host w wm r)
        = (Ok tt, before_row host w wm (r + 1)) /\
        (is_blank rowData = false ->
         row_fails host (at_index (getValues (sheet w)) 0) rowData
           (before_row host w wm r) = true ->
         exists msg,
           outcomes (before_row host w wm (r + 1))
           = List.app (outcomes (before_row host w wm r)) [(r, "ERROR: " ++ msg)] /\
           In (r, "ERROR: " ++ msg) (outcomes w')).
Proof.
  intros Hw H0 Hlt.
  eexists. split; [apply (checkForNewProducts_advances host w wm Hw H0 Hlt)|].
  split; [apply watermark_stored, getLastRow_nonneg|].
  intros r Hr.
  destruct (at_index_in_range (sheet w) r) as [rowData Hd]; [lia|].
  exists rowData. split; [exact Hd|].
  pose proof (before_row_step host w wm r H0 Hr) as Hstep.
  split; [exact Hstep|].
  intros Hb Hf.
  destruct (processRow_failure_recorded host _ _ r _ rowData Hd Hb Hf)
    as (w2 & msg & E2 & O2).
  rewrite Hstep in E2. injection E2 as <-.
  exists msg. split; [exact O2|].
  destruct (before_row_grows host w wm (r + 1) (getLastRow (sheet w) + 1))
    as (later & Hl & _); [lia|lia|lia|].
  unfold outcomes at 1. cbn [sheet set_properties].
  fold (outcomes (before_row host w wm (getLastRow (sheet w) + 1))).
  rewrite Hl, O2. apply in_or_app. left. apply in_or_app. right. now left.
Qed.

(** The pass over the example sheet, whose row 5 has no title. *)
Lemma failed_rows_do_not_stop_the_pass_witness :
  exists w',
    checkForNewProducts Example.host Example.world = (Ok tt, w') /\
    watermark w' = Some 8 /\
    In (5, "ERROR: Row 5: Invalid product data (missing required fields)")
       (outcomes w').
Proof.
  destruct (failed_rows_do_not_stop_the_pass Example.host Example.world 2)
    as (w' & E & Hw & Hrows).
  - reflexivity.
  - lia.
  - reflexivity.
  - exists w'. split; [exact E|]. split; [exact Hw|].
    destruct (Hrows 5) as (rowData & Hd & _ & Hfail).
    + split; [lia|]. vm_compute. discriminate.
    + injection Hd as <-.
      destruct Hfail as (msg & Hm & Hin); [reflexivity|reflexivity|].
      vm_compute in Hm. injection Hm as <-. exact Hin.
Defined.

(** One pass: the cells stay, and the watermark stays or becomes the last
    row, which then lies above it. *)
Lemma checkForNewProducts_watermark (host : Host) (w : World) :
  getLastRow (sheet (snd (checkForNewProducts host w))) = getLastRow (sheet w) /\
  (watermark (snd (checkForNewProducts host w)) = watermark w \/
   exists wm,
     watermark w = Some wm /\ wm < getLastRow (sheet w) /\
     watermark (snd (checkForNewProducts host w)) = Some (getLastRow (sheet w))).
Proof.
  unfold checkForNewProducts, bind, getProperty, getLastDataRow.
  cbn beta iota zeta. fold (watermark w).
  destruct (watermark w) as [wm|] eqn:Hw; [|split; [reflexivity|now left]].
  destruct (wm <? getLastRow (sheet w)) eqn:Hb;
    [|split; [reflexivity|left; exact Hw]].
  apply Z.ltb_lt in Hb. unfold Logger_log. cbn beta iota.
  destruct (forRows_keeps host (at_index (getValues (sheet w)) 0)
              (getValues (sheet w)) (Z.to_nat (getLastRow (sheet w) - wm))
              (wm + 1)
              (logged ("Found " ++ int_toString (getLastRow (sheet w) - wm)
                       ++ " new rows to process") w)) as [P R].
  destruct (forRows host (at_index (getValues (sheet w)) 0) (getValues (sheet w))
              (Z.to_nat (getLastRow (sheet w) - wm)) (wm + 1)
              (logged ("Found " ++ int_toString (getLastRow (sheet w) - wm)
                       ++ " new rows to process") w)) as [[u|e] w1];
    cbn [snd] in *.
  - split; [exact R|]. right. exists wm. split; [reflexivity|]. split; [exact Hb|].
    apply watermark_stored, getLastRow_nonneg.
  - split; [exact R|]. left. unfold watermark in *. now rewrite P.
Qed.

(** Where the watermarks that the passes start from come from: no stored
    property reads as 0, and [initializeTracking] and [resetTracking] store
    the last row. *)
Lemma watermark_unset (w : World) :
  lookup "lastProcessedRow" (properties w) = None -> watermark w = Some 0.
Proof. unfold watermark. intros ->. reflexivity. Qed.

Lemma resetTracking_watermark (w : World) :
  watermark (snd (resetTracking w)) = Some (getLastRow (sheet w)).
Proof.
  unfold resetTracking, bind, setProperty, Logger_log, getLastDataRow.
  cbn beta iota zeta. cbn [snd]. unfold logged.
  apply (watermark_stored (set_log _ _)), getLastRow_nonneg.
Qed.

Lemma initializeTracking_watermark (w : World) :
  lookup "lastProcessedRow" (properties w) = None ->
  watermark (snd (initializeTracking w)) = Some (getLastRow (sheet w)).
Proof.
  intros H.
  unfold initializeTracking, bind, getProperty, setProperty, Logger_log,
    getLastDataRow.
  cbn beta iota zeta. rewrite H. cbn [snd]. unfold logged.
  apply (watermark_stored (set_log _ _)), getLastRow_nonneg.
Qed.

Lemma initializeTracking_keeps (w : World) (s : string) :
  lookup "lastProcessedRow" (properties w) = Some s -> is_empty s = false ->
  initializeTracking w = (Ok tt, w).
Proof.
  intros H E. unfold initializeTracking, bind, getProperty, ret.
  now rewrite H, E.
Qed.

(** Along passes and edits a watermark that reads as a number only grows,
    and one that does not read as a number stays so. *)
Lemma follows_watermark (w w' : World) :
  follows w w' ->
  match watermark w with
  | Some wm => exists wm', watermark w' = Some wm' /\ wm <= wm'
  | None => watermark w' = None
  end.
Proof.
  intros F. induction F as [w|host w w1 w2 r E F IH|s w w2 F IH].
  - destruct (watermark w) as [wm|]; [exists wm; split; [reflexivity|lia]|reflexivity].
  - destruct (checkForNewProducts_watermark host w) as [_ H]. rewrite E in H.
    cbn [snd] in H. destruct H as [H|(wm & Hw & Hlt & H)].
    + now rewrite <- H.
    + rewrite H in IH. rewrite Hw. destruct IH as (wm' & Hw' & Hle).
      exists wm'. split; [exact Hw'|lia].
  - exact IH.
Qed.

Lemma follows_monotone (w w' : World) (wm : Z) :
  follows w w' -> watermark w = Some wm ->
  exists wm', watermark w' = Some wm' /\ wm <= wm'.
Proof.
  intros F Hw. pose proof (follows_watermark w w' F) as H. now rewrite Hw in H.
Qed.

(** After a pass, the next pass on the same sheet finds nothing new or stops
    at the same place: it leaves the watermark and the sheet as they are. *)
Lemma second_pass_idle (host host' : Host) (w : World) :
  watermark (snd (checkForNewProducts host' (snd (checkForNewProducts host w))))
  = watermark (snd (checkForNewProducts host w)) /\
  sheet (snd (checkForNewProducts host' (snd (checkForNewProducts host w))))
  = sheet (snd (checkForNewProducts host w)).
Proof.
  destruct (watermark w) as [wm|] eqn:Hw.
  - destruct (Z.lt_ge_cases wm (getLastRow (sheet w))) as [Hlt|Hge].
    + destruct (Z.lt_ge_cases wm 0) as [Hneg|H0].
      * destruct (checkForNewProducts_aborts host w wm Hw Hneg) as [e E].
        rewrite E. cbn [snd].
        destruct (checkForNewProducts_aborts host' (loop_start w wm) wm Hw Hneg)
          as [e' E'].
        rewrite E'. cbn [snd]. split; reflexivity.
      * rewrite (checkForNewProducts_advances host w wm Hw H0 Hlt). cbn [snd].
        rewrite checkForNewProducts_no_new_rows; [split; reflexivity|].
        rewrite watermark_stored by apply getLastRow_nonneg.
        destruct (before_row_frame host w wm (getLastRow (sheet w) + 1))
          as (_ & R & _); [lia|lia|].
        unfold getLastRow in *. cbn [sheet set_properties]. rewrite R. lia.
    + rewrite (checkForNewProducts_no_new_rows host w)
        by (rewrite Hw; exact Hge).
      cbn [snd]. rewrite checkForNewProducts_no_new_rows; [split; reflexivity|].
      unfold watermark in *. cbn [properties logged set_log]. rewrite Hw. exact Hge.
  - rewrite (checkForNewProducts_no_new_rows host w) by (now rewrite Hw).
    cbn [snd]. rewrite checkForNewProducts_no_new_rows; [split; reflexivity|].
    unfold watermark in *. cbn [properties logged set_log]. now rewrite Hw.
Qed.

(** C4.  Along any sequence of passes of the sync loop, against any remote
    end and with any edits of the sheet in between, the stored watermark never
    decreases.  A pass that starts with a last row not above the watermark
    returns without touching the properties, the sheet or the remote end, so
    the watermark is what it was.  Two passes in a row, with no edit in
    between, end with the same watermark and the same sheet as the first one
    alone. *)
Theorem watermark_never_decreases :
  (forall w w' wm,
      follows w w' -> watermark w = Some wm ->
      exists wm', watermark w' = Some wm' /\ wm <= wm') /\
  (forall host w wm,
      watermark w = Some wm -> getLastRow (sheet w) <= wm ->
      exists w',
        checkForNewProducts host w = (Ok tt, w') /\
        properties w' = properties w /\ sheet w' = sheet w /\
        requests w' = requests w /\ watermark w' = Some wm) /\
  (forall host host' w r1 w1 r2 w2,
      checkForNewProducts host w = (r1, w1) ->
      checkForNewProducts host' w1 = (r2, w2) ->
      watermark w2 = watermark w1 /\ sheet w2 = sheet w1).
Proof.
  split; [|split].
  - intros w w' wm. apply follows_monotone.
  - intros host w wm Hw Hge. eexists.
    split; [apply checkForNewProducts_no_new_rows; rewrite Hw; exact Hge|].
    repeat split. exact Hw.
  - intros host host' w r1 w1 r2 w2 E1 E2.
    pose proof (second_pass_idle host host' w) as H.
    rewrite E1 in H. cbn [snd] in H. rewrite E2 in H. exact H.
Qed.

(** The example sheet: after its pass the watermark went from 2 to 8. *)
Lemma watermark_never_decreases_witness :
  exists wm',
    watermark (snd (checkForNewProducts Example.host Example.world)) = Some wm' /\
    2 <= wm'.
Proof.
  refine (proj1 watermark_never_decreases Example.world _ 2 _ eq_refl).
  eapply follows_pass; [|apply follows_refl].
  apply surjective_pairing.
Defined.

(** C7.  The validator returns true exactly for a product whose title is set
    and truthy.  In a pass, a row of the processed range that is not blank and
    whose mapped product the validator rejects gets the text
    "ERROR: Row r: Invalid product data (missing required fields)" in the
    status column, which is there when the pass ends, and no request is sent
    while the row is handled. *)
Theorem invalid_rows_are_not_sent :
  (forall p,
      isValidProduct p = true <-> exists t, title p = Some t /\ truthy t = true) /\
  (forall host w wm r rowData p,
      watermark w = Some wm -> 0 <= wm -> wm < r <= getLastRow (sheet w) ->
      at_index (getValues (sheet w)) (r - 1) = Some rowData ->
      is_blank rowData = false ->
      map_row (at_index (getValues (sheet w)) 0) rowData = Ok p ->
      isValidProduct p = false ->
      exists w',
        checkForNewProducts host w = (Ok tt, w') /\
        outcomes (before_row host w wm (r + 1))
        = List.app (outcomes (before_row host w wm r))
            [(r, "ERROR: " ++ invalid_message r)] /\
        requests (before_row host w wm (r + 1))
        = requests (before_row host w wm r) /\
        In (r, "ERROR: " ++ invalid_message r) (outcomes w')).
Proof.
  split; [exact isValidProduct_iff|].
  intros host w wm r rowData p Hw H0 Hr Hd Hb Hm Hv.
  eexists. split; [apply (checkForNewProducts_advances host w wm Hw H0); lia|].
  pose proof (before_row_step host w wm r H0 Hr) as Hstep.
  rewrite (processRow_invalid host _ _ r _ rowData p Hd Hb Hm Hv) in Hstep.
  injection Hstep as Hstep. rewrite <- Hstep.
  split; [reflexivity|]. split; [reflexivity|].
  destruct (before_row_grows host w wm (r + 1) (getLastRow (sheet w) + 1))
    as (later & Hl & _); [lia|lia|lia|].
  unfold outcomes at 1. cbn [sheet set_properties].
  fold (outcomes (before_row host w wm (getLastRow (sheet w) + 1))).
  rewrite Hl, <- Hstep. apply in_or_app. left.
  unfold outcomes. cbn. apply in_or_app. right. now left.
Qed.

(** Row 5 of the example sheet has a barcode and no title. *)
Lemma invalid_rows_are_not_sent_witness :
  exists w',
    checkForNewProducts Example.host Example.world = (Ok tt, w') /\
    requests (before_row Example.host Example.world 2 6)
    = requests (before_row Example.host Example.world 2 5) /\
    In (5, "ERROR: Row 5: Invalid product data (missing required fields)")
       (outcomes w').
Proof.
  destruct (proj2 invalid_rows_are_not_sent Example.host Example.world 2 5
              [VStr EmptyString; VStr "012345"]
              (set_variants [set_barcode "012345" empty_variant] initial_product))
    as (w' & E & _ & Hq & Hin).
  - reflexivity.
  - lia.
  - split; [lia|]. vm_compute. discriminate.
  - reflexivity.
  - reflexivity.
  - reflexivity.
  - reflexivity.
  - exists w'. split; [exact E|]. split; [exact Hq|exact Hin].
Defined.

(** C9.  In a pass, a row of the processed range whose cells, joined and
    trimmed, are empty leaves the world exactly as it found it: the pass adds
    no text for that row to the status column and sends no request while the
    row is handled.  The pass still stores the last row as the watermark, so
    the row lies at or below the watermark then and after any later passes
    and edits of the sheet. *)
Theorem blank_rows_are_passed_over (host : Host) (w : World) (wm r : Z)
  (rowData : list value) :
  watermark w = Some wm -> 0 <= wm -> wm < r <= getLastRow (sheet w) ->
  at_index (getValues (sheet w)) (r - 1) = Some rowData ->
  is_blank rowData = true ->
  exists w',
    checkForNewProducts host w = (Ok tt, w') /\
    before_row host w wm (r + 1) = before_row host w wm r /\
    (exists new, outcomes w' = List.app (outcomes w) new /\
                 forall text, ~ In (r, text) new) /\
    watermark w' = Some (getLastRow (sheet w)) /\
    (forall w'', follows w' w'' ->
       exists n, watermark w'' = Some n /\ r <= n).
Proof.
  intros Hw H0 Hr Hd Hb.
  eexists. split; [apply (checkForNewProducts_advances host w wm Hw H0); lia|].
  pose proof (before_row_step host w wm r H0 Hr) as Hstep.
  rewrite (processRow_blank host _ _ r _ rowData Hd Hb) in Hstep.
  injection Hstep as Hstep.
  split; [now rewrite <- Hstep|]. split; [|split].
  - destruct (before_row_frame host w wm r) as (_ & _ & (n1 & O1 & K1) & _);
      [lia|lia|].
    destruct (before_row_grows host w wm (r + 1) (getLastRow (sheet w) + 1))
      as (n3 & O3 & K3); [lia|lia|lia|].
    exists (n1 ++ n3)%list. split.
    + unfold outcomes at 1. cbn [sheet set_properties].
      fold (outcomes (before_row host w wm (getLastRow (sheet w) + 1))).
      rewrite O3, <- Hstep, O1. now rewrite app_assoc.
    + intros text Hin. apply in_app_or in Hin. destruct Hin as [Hin|Hin].
      * specialize (K1 _ Hin). simpl in K1. lia.
      * specialize (K3 _ Hin). simpl in K3. lia.
  - apply watermark_stored, getLastRow_nonneg.
  - intros w'' F.
    destruct (follows_monotone _ w'' (getLastRow (sheet w)) F) as (n & Hn & Hle).
    + apply watermark_stored, getLastRow_nonneg.
    + exists n. split; [exact Hn|lia].
Qed.

(** Row 4 of the example sheet holds an empty cell and a space. *)
Lemma blank_rows_are_passed_over_witness :
  exists w',
    checkForNewProducts Example.host Example.world = (Ok tt, w') /\
    before_row Example.host Example.world 2 5
    = before_row Example.host Example.world 2 4 /\
    watermark w' = Some 8.
Proof.
  destruct (blank_rows_are_passed_over Example.host Example.world 2 4
              [VStr EmptyString; VStr " "])
    as (w' & E & Hsame & _ & Hw & _).
  - reflexivity.
  - lia.
  - split; [lia|]. vm_compute. discriminate.
  - reflexivity.
  - reflexivity.
  - exists w'. split; [exact E|]. split; [exact Hsame|exact Hw].
Defined.

(** The remote end of the example accepts the first product. *)
Lemma createShopifyProduct_never_throws_witness :
  exists r,
    createShopifyProduct Example.host initial_product Example.world
    = (Ok r, sent (request_of Example.host initial_product) Example.world) /\
    r = Success (Some (JNumber (of_Z 42)))
                (JObject [("id", JNumber (of_Z 42))]).
Proof.
  destruct (createShopifyProduct_never_throws Example.host initial_product
              Example.world) as (r & E & Hiff & _).
  exists r. split; [exact E|].
  apply Hiff.
  exists 201, (JObject [("product", JObject [("id", JNumber (of_Z 42))])]).
  split; [reflexivity|]. split; [lia|]. split; [split; reflexivity|reflexivity].
Defined.

(** C8 as stated fails on a body whose [product] member is not an object:
    answered 200 with the member [true], the client returns success, with an
    undefined [id]. *)
Lemma success_without_product_object :
  answer Example.odd_host initial_product Example.world
  = Ok (200, JObject [("product", JBool true)]) /\
  (forall members,
      get (JObject [("product", JBool true)]) "product"
      <> Ok (Some (JObject members))) /\
  fst (createShopifyProduct Example.odd_host initial_product Example.world)
  = Ok (Success None (JBool true)).
Proof.
  split; [reflexivity|]. split; [|reflexivity].
  intros members. discriminate.
Qed.

(** The pass over the example sheet: row 3 is synced, the blank row 4 gets no
    text, row 5 fails validation, row 6 is refused with 422, rows 7 and 8 meet
    a transport exception, and the watermark is 8. *)
Example pass_over_example_sheet :
  let w' := snd (checkForNewProducts Example.host Example.world) in
  outcomes w' =
    [ (3, "Synced: 11/3/2026, 9:00:00 AM (ID: 42)");
      (5, "ERROR: Row 5: Invalid product data (missing required fields)");
      (6, "ERROR: API Error (422): {errors:{title:[can't be blank]}}");
      (7, "ERROR: Exception: Address unavailable");
      (8, "ERROR: Exception: Address unavailable") ] /\
  watermark w' = Some 8 /\
  length (requests w') = 4%nat.
Proof. vm_compute. repeat split. Qed.

(** The scenario of a plain row: texts are kept as they are written. *)
Example widget_row :
  exists p,
    mapRowToProduct [VStr "Title"; VStr "SKU"; VStr "Barcode"; VStr "Price"]
                    [VStr "Widget"; VStr "W-1"; VStr "012345"; VStr "9.99"] = Ok p /\
    title p = Some (VStr "Widget") /\
    of_variant0 sku p = Some "W-1" /\
    of_variant0 barcode p = Some "012345" /\
    of_variant0 price p = Some "9.99" /\
    isValidProduct p = true.
Proof. eexists. split; [reflexivity|]. repeat split. Qed.

(** The no-break space is white space to [trim]: a row of such cells is
    blank, and a header padded with one is matched. *)
Example no_break_space_is_trimmed :
  is_blank [VStr Example.nbsp; VStr EmptyString] = true /\
  header_field (VStr ("Title" ++ Example.nbsp)) = Some FTitle /\
  header_field (VStr (Example.nbsp ++ "SKU")) = Some FSku /\
  parseInt (Example.nbsp ++ "12") = Some 12.
Proof. repeat split. Qed.

(** A row that holds nothing but an earlier status text is not blank: the
    pass maps it, finds no title and writes an error over the text. *)
Example status_text_makes_a_row_not_blank :
  let w' := snd (checkForNewProducts Example.host Example.resync_world) in
  outcomes w' =
    [ (2, "ERROR: Row 2: Invalid product data (missing required fields)") ] /\
  nth_error (rows (sheet w')) 1 =
    Some [VStr EmptyString; VStr EmptyString; VStr EmptyString;
          VStr EmptyString; VStr EmptyString; VStr EmptyString;
          VStr EmptyString; VStr EmptyString; VStr EmptyString;
          VStr EmptyString;
          VStr "ERROR: Row 2: Invalid product data (missing required fields)"].
Proof. vm_compute. split; reflexivity. Qed.

(** * Further properties *)

Import Project Reading.

(** ** Header texts *)

Lemma is_space_lower_char (c : ascii) : is_space (lower_char c) = is_space c.
Proof. destruct c as [[] [] [] [] [] [] [] []]; reflexivity. Qed.

Lemma trimEnd_cons (c : ascii) (r : string) :
  trimEnd (String c r) =
  match trimEnd r with
  | EmptyString => if is_space c then EmptyString else String c EmptyString
  | r' => String c r'
  end.
Proof. reflexivity. Qed.

Lemma trimEnd_idem (s : string) : trimEnd (trimEnd s) = trimEnd s.
Proof.
  induction s as [|c r IH]; [reflexivity|].
  rewrite trimEnd_cons.
  destruct (trimEnd r) as [|c2 r2] eqn:E.
  - destruct (is_space c) eqn:Ec; [reflexivity|].
    rewrite trimEnd_cons. cbn [trimEnd]. now rewrite Ec.
  - rewrite trimEnd_cons, IH. reflexivity.
Qed.

Lemma trimStart_clean (s : string) : starts_clean (trimStart s).
Proof.
  induction s as [|c r IH]; simpl; [exact I|].
  destruct (is_space c) eqn:E; [exact IH|exact E].
Qed.

Lemma trimStart_of_clean (s : string) : starts_clean s -> trimStart s = s.
Proof. destruct s as [|c r]; simpl; [reflexivity|]. now intros ->. Qed.

Lemma trimEnd_clean (s : string) : starts_clean s -> starts_clean (trimEnd s).
Proof.
  destruct s as [|c r]; simpl; [auto|]. intros Hc.
  destruct (trimEnd r); simpl; [now rewrite Hc|exact Hc].
Qed.

Lemma trim_idem (s : string) : trim (trim s) = trim s.
Proof.
  unfold trim.
  rewrite (trimStart_of_clean (trimEnd (trimStart s)))
    by apply trimEnd_clean, trimStart_clean.
  apply trimEnd_idem.
Qed.

(** ** More on the field mapper *)

(** Opens [mapColumn p h v = Ok p'] into the cases of the guard, the header
    and the switch, each with the product the case returns. *)
Ltac open_mapColumn E Hs Ht Hc :=
  unfold mapColumn in E;
  destruct (skipped _) eqn:Hs in E;
  [ injection E as <-
  | destruct (toString _) as [?s|?e] eqn:Ht in E; cbn [rbind] in E;
    [ destruct (canonical _) as [?f|] eqn:Hc in E;
      [ | injection E as <- ]
    | discriminate ] ].

Ltac open_assign E :=
  match type of E with
  | assign ?f ?v ?p = Ok _ =>
      destruct p as [?t ?b ?ve ?pt ?tg ?pu vs os im];
      destruct vs as [|?v0 ?vs]; destruct f;
      unfold assign, on_variant0 in E; simpl in E;
      destruct (toString v) as [?sv|?ev] eqn:?Hv; simpl in E; try discriminate;
      repeat match type of E with
             | context [match ?c with _ => _ end] => destruct c eqn:?; simpl in E
             end;
      try discriminate;
      injection E as <-
  end.

Lemma mapColumn_variants_length (p p' : Product) (h v : value) :
  mapColumn p h v = Ok p' -> length (variants p') = length (variants p).
Proof.
  intros E. open_mapColumn E Hs Ht Hc; try reflexivity.
  open_assign E; reflexivity.
Qed.

(** X2.  A mapped product has exactly one variant, whatever the headers and
    the row. *)
Theorem mapped_product_has_one_variant (hs row : list value) (p : Product) :
  mapRowToProduct hs row = Ok p -> length (variants p) = 1%nat.
Proof.
  unfold mapRowToProduct.
  change 1%nat with (length (variants initial_product)).
  generalize initial_product, 0%nat. revert p.
  induction hs as [|h hs IH]; intros p q i E; simpl in E.
  - now injection E as <-.
  - destruct (mapColumn q h (index VUndefined row i)) as [q1|e] eqn:E1;
      simpl in E; [|discriminate].
    rewrite (IH _ _ _ E). eapply mapColumn_variants_length; eauto.
Qed.

Lemma mapped_product_has_one_variant_witness :
  length (variants (set_variants [set_sku "W-1" empty_variant]
                      (set_title (VStr "Widget") initial_product))) = 1%nat.
Proof.
  apply (mapped_product_has_one_variant [VStr "Title"; VStr "SKU"]
           [VStr "Widget"; VStr "W-1"]).
  reflexivity.
Defined.

Lemma mapColumn_options_shape (p p' : Product) (h v : value) :
  options_shape p -> mapColumn p h v = Ok p' -> options_shape p'.
Proof.
  intros I E. open_mapColumn E Hs Ht Hc; try exact I.
  unfold options_shape, of_variant0, variant0, size_group, color_group in *.
  open_assign E; simpl in *;
    try exact I;
    try (destruct I as [(Ho & _)|[(s1 & Ho & _)|(s1 & c1 & Ho & _)]]; discriminate).
  all: destruct I as [(Ho & H1 & H2)|[(s1 & Ho & H1 & H2)|(s1 & c1 & Ho & H2)]];
    try discriminate;
    try (injection Ho as ->); simpl in *; try discriminate.
  all: repeat match goal with
              | H : Some _ = Some _ |- _ => injection H; clear H; intros; subst
              end;
    simpl in *; try discriminate.
  all: try (left; repeat split; congruence).
  all: try (right; left; eexists; repeat split; congruence).
  all: try (right; right; eexists; eexists; split; [reflexivity|congruence]).
Qed.

(** X3.  In a mapped product, [options] is unset exactly when neither option
    property of the variant is set; otherwise it holds the group Size alone,
    with [option1] set and [option2] unset, or the groups Size and Color, with
    [option2] set.  It never holds more than two groups, and each group has
    one value. *)
Theorem options_follow_the_option_columns (hs row : list value) (p : Product) :
  mapRowToProduct hs row = Ok p -> options_shape p.
Proof.
  unfold mapRowToProduct.
  assert (I : options_shape initial_product) by (left; repeat split).
  revert I. generalize initial_product, 0%nat. revert p.
  induction hs as [|h hs IH]; intros p q i I E; simpl in E.
  - now injection E as <-.
  - destruct (mapColumn q h (index VUndefined row i)) as [q1|e] eqn:E1;
      simpl in E; [|discriminate].
    eapply IH; [|exact E]. eapply mapColumn_options_shape; eauto.
Qed.

(** A row with a color and no size: two groups, the first a placeholder. *)
Lemma options_follow_the_option_columns_witness :
  exists s c,
    options (set_options [size_group "Default"; color_group "Red"]
               (set_variants [set_option2 "Red" empty_variant] initial_product))
    = Some [size_group s; color_group c].
Proof.
  destruct (options_follow_the_option_columns [VStr "Color"] [VStr "Red"]
              (set_options [size_group "Default"; color_group "Red"]
                 (set_variants [set_option2 "Red" empty_variant] initial_product))
              eq_refl)
    as [(H & _)|[(s & H & _)|(s & c & H & _)]].
  - discriminate.
  - discriminate.
  - exists s, c. exact H.
Defined.

Ltac settle_writes W Hs Ht Hc :=
  unfold writes, header_field in W; rewrite ?Hs, ?Ht in W; simpl in W;
  rewrite ?Hc in W; simpl in W.

(** A column that runs neither option case leaves [options] alone. *)
Lemma mapColumn_options_untouched (p p' : Product) (h v : value) :
  writes FOption1 h v = false -> writes FOption2 h v = false ->
  mapColumn p h v = Ok p' -> options p' = options p.
Proof.
  intros W1 W2 E. open_mapColumn E Hs Ht Hc; try reflexivity.
  settle_writes W1 Hs Ht Hc. settle_writes W2 Hs Ht Hc.
  open_assign E; try discriminate; reflexivity.
Qed.

(** Without a color column, [options] that are set stay as they are. *)
Lemma mapColumn_options_kept (p p' : Product) (h v : value)
  (o : list OptionGroup) :
  options p = Some o -> writes FOption2 h v = false ->
  mapColumn p h v = Ok p' -> options p' = Some o.
Proof.
  intros Ho W2 E. open_mapColumn E Hs Ht Hc; try exact Ho.
  settle_writes W2 Hs Ht Hc.
  open_assign E; simpl in *; try discriminate; congruence.
Qed.

(** Two groups are final. *)
Lemma mapColumn_options_full (p p' : Product) (h v : value)
  (o : list OptionGroup) :
  options p = Some o -> (2 <= length o)%nat ->
  mapColumn p h v = Ok p' -> options p' = Some o.
Proof.
  intros Ho Hl E. open_mapColumn E Hs Ht Hc; try exact Ho.
  open_assign E; simpl in *; try discriminate; try congruence.
  all: repeat match goal with
              | H : Some _ = Some _ |- _ => injection H; clear H; intros; subst
              end;
    try discriminate;
    match goal with
    | H : (length ?l <? 2)%nat = true |- _ => apply Nat.ltb_lt in H; lia
    end.
Qed.

Lemma forEach_options_untouched (hs : list value) (i : nat) (row : list value)
  (p p' : Product) :
  (forall k h, nth_error hs k = Some h ->
     writes FOption1 h (cell row (i + k)) = false /\
     writes FOption2 h (cell row (i + k)) = false) ->
  forEach hs i row p = Ok p' -> options p' = options p.
Proof.
  revert i p. induction hs as [|h hs IH]; intros i p Hno E; simpl in E.
  - now injection E as <-.
  - destruct (mapColumn p h (index VUndefined row i)) as [q|e] eqn:Eq;
      simpl in E; [|discriminate].
    destruct (Hno 0%nat h eq_refl) as [W1 W2]. rewrite Nat.add_0_r in W1, W2.
    rewrite <- (mapColumn_options_untouched p q h _ W1 W2 Eq).
    eapply IH; [|exact E].
    intros k h' Hk. specialize (Hno (S k) h' Hk).
    now rewrite Nat.add_succ_r in Hno.
Qed.

Lemma forEach_options_kept (hs : list value) (i : nat) (row : list value)
  (p p' : Product) (o : list OptionGroup) :
  options p = Some o ->
  (forall k h, nth_error hs k = Some h ->
     writes FOption2 h (cell row (i + k)) = false) ->
  forEach hs i row p = Ok p' -> options p' = Some o.
Proof.
  revert i p. induction hs as [|h hs IH]; intros i p Ho Hno E; simpl in E.
  - now injection E as <-.
  - destruct (mapColumn p h (index VUndefined row i)) as [q|e] eqn:Eq;
      simpl in E; [|discriminate].
    pose proof (Hno 0%nat h eq_refl) as W2. rewrite Nat.add_0_r in W2.
    eapply IH; [|exact (fun k h' Hk => eq_trans (f_equal _ (f_equal _
                  (Nat.add_succ_comm i k))) (Hno (S k) h' Hk))|exact E].
    eapply mapColumn_options_kept; eauto.
Qed.

Lemma forEach_options_full (hs : list value) (i : nat) (row : list value)
  (p p' : Product) (o : list OptionGroup) :
  options p = Some o -> (2 <= length o)%nat ->
  forEach hs i row p = Ok p' -> options p' = Some o.
Proof.
  revert i p. induction hs as [|h hs IH]; intros i p Ho Hl E; simpl in E.
  - now injection E as <-.
  - destruct (mapColumn p h (index VUndefined row i)) as [q|e] eqn:Eq;
      simpl in E; [|discriminate].
    eapply IH; [|exact Hl|exact E].
    eapply mapColumn_options_full; eauto.
Qed.

(** The columns before a column, the column, and the columns after it. *)
Lemma forEach_middle (l1 l2 : list value) (h : value) (i : nat)
  (row : list value) (p p' : Product) :
  forEach (l1 ++ h :: l2) i row p = Ok p' ->
  exists q q1,
    forEach l1 i row p = Ok q /\
    mapColumn q h (cell row (i + length l1)) = Ok q1 /\
    forEach l2 (S (i + length l1)) row q1 = Ok p'.
Proof.
  intros E. rewrite forEach_app in E.
  destruct (forEach l1 i row p) as [q|e]; cbn [rbind] in E; [|discriminate].
  cbn [forEach] in E. fold (cell row (i + length l1)) in E.
  destruct (mapColumn q h (cell row (i + length l1))) as [q1|e] eqn:E1;
    cbn [rbind] in E; [|discriminate].
  exists q, q1. auto.
Qed.

Lemma nth_error_before {A} (l1 l2 : list A) (x : A) (k : nat) (y : A) :
  nth_error l1 k = Some y -> nth_error (l1 ++ x :: l2) k = Some y.
Proof.
  intros H. rewrite nth_error_app1; [exact H|].
  apply nth_error_Some. congruence.
Qed.

Lemma nth_error_after {A} (l1 l2 : list A) (x : A) (k : nat) (y : A) :
  nth_error l2 k = Some y ->
  nth_error (l1 ++ x :: l2) (S (length l1 + k)) = Some y.
Proof.
  intros H. rewrite nth_error_app2 by lia.
  replace (S (length l1 + k) - length l1)%nat with (S k) by lia. exact H.
Qed.

(** X4.  When the first column that runs an option case is a color column,
    [options] ends as the placeholder group Size of "Default" followed by the
    group Color of that cell, also when a size column follows later and sets
    [option1]. *)
Theorem color_first_keeps_default_size (hs row : list value) (i : nat)
  (h : value) (p : Product) :
  nth_error hs i = Some h ->
  writes FOption2 h (cell row i) = true ->
  (forall k h', (k < i)%nat -> nth_error hs k = Some h' ->
     writes FOption1 h' (cell row k) = false /\
     writes FOption2 h' (cell row k) = false) ->
  mapRowToProduct hs row = Ok p ->
  options p = Some [size_group "Default"; color_group (ToString (cell row i))].
Proof.
  intros Hi W Hno E.
  destruct (nth_error_split hs i Hi) as (l1 & l2 & -> & Hlen). subst i.
  destruct (forEach_middle l1 l2 h 0 row _ p E) as (q & q1 & E0 & E1 & E2).
  cbn [Nat.add] in E1, E2.
  assert (Hq : options q = None).
  { change None with (options initial_product).
    eapply forEach_options_untouched; [|exact E0].
    intros k h' Hk. cbn [Nat.add]. apply Hno.
    - apply nth_error_Some. congruence.
    - now apply nth_error_before. }
  apply writes_true in W. destruct W as [Hs Hf].
  rewrite (mapColumn_field q h _ FOption2 Hs Hf) in E1.
  destruct (assign_option2 (cell row (length l1)) q Hs) as (q' & Ea & _ & Ho).
  { eapply forEach_variants; [|exact E0]. simpl. discriminate. }
  rewrite Ea in E1. injection E1 as <-. rewrite Hq in Ho.
  eapply forEach_options_full; [exact Ho|simpl; lia|exact E2].
Qed.

(** Color before size: the size M reaches [option1] but not [options]. *)
Lemma color_first_keeps_default_size_witness :
  exists p,
    mapRowToProduct [VStr "Color"; VStr "Size"] [VStr "Red"; VStr "M"] = Ok p /\
    of_variant0 option1 p = Some "M" /\
    options p = Some [size_group "Default"; color_group "Red"].
Proof.
  eexists. split; [reflexivity|]. split; [reflexivity|].
  apply (color_first_keeps_default_size [VStr "Color"; VStr "Size"]
           [VStr "Red"; VStr "M"] 0 (VStr "Color")).
  - reflexivity.
  - reflexivity.
  - intros k h' Hk. lia.
  - reflexivity.
Defined.

(** X5.  When the first column that runs an option case is a size column,
    the group Size holds that cell for good: [options] ends as that group
    alone when no color column follows, and as that group followed by the
    group Color of the first color column after it otherwise.  Later size and
    color columns change [option1] and [option2] but not the groups. *)
Theorem groups_hold_first_size_and_color (hs row : list value) (i : nat)
  (h : value) (p : Product) :
  nth_error hs i = Some h ->
  writes FOption1 h (cell row i) = true ->
  (forall k h', (k < i)%nat -> nth_error hs k = Some h' ->
     writes FOption1 h' (cell row k) = false /\
     writes FOption2 h' (cell row k) = false) ->
  mapRowToProduct hs row = Ok p ->
  ((forall k h', (i < k)%nat -> nth_error hs k = Some h' ->
      writes FOption2 h' (cell row k) = false) ->
   options p = Some [size_group (ToString (cell row i))]) /\
  (forall j hj,
      (i < j)%nat -> nth_error hs j = Some hj ->
      writes FOption2 hj (cell row j) = true ->
      (forall k h', (i < k < j)%nat -> nth_error hs k = Some h' ->
         writes FOption2 h' (cell row k) = false) ->
      options p = Some [size_group (ToString (cell row i));
                        color_group (ToString (cell row j))]).
Proof.
  intros Hi W Hno E.
  destruct (nth_error_split hs i Hi) as (l1 & l2 & -> & Hlen). subst i.
  destruct (forEach_middle l1 l2 h 0 row _ p E) as (q & q1 & E0 & E1 & E2).
  cbn [Nat.add] in E1, E2.
  assert (Hq : options q = None).
  { change None with (options initial_product).
    eapply forEach_options_untouched; [|exact E0].
    intros k h' Hk. cbn [Nat.add]. apply Hno.
    - apply nth_error_Some. congruence.
    - now apply nth_error_before. }
  apply writes_true in W. destruct W as [Hs Hf].
  rewrite (mapColumn_field q h _ FOption1 Hs Hf) in E1.
  destruct (assign_option1 (cell row (length l1)) q Hs) as (q' & Ea & _ & Ho).
  { eapply forEach_variants; [|exact E0]. simpl. discriminate. }
  rewrite Ea in E1. injection E1 as E1. subst q'.
  rewrite Hq in Ho. cbn [seed_size] in Ho.
  assert (Hv1 : variants q1 <> []).
  { destruct (mapColumn_spec FTitle q q1 h (cell row (length l1))) as [Hv _];
      [eapply forEach_variants; [|exact E0]; simpl; discriminate| |exact Hv].
    now rewrite (mapColumn_field q h _ FOption1 Hs Hf). }
  split.
  - intros Hnc. eapply forEach_options_kept; [exact Ho| |exact E2].
    intros k h' Hk. apply (Hnc (S (length l1 + k))); [lia|].
    now apply nth_error_after.
  - intros j hj Hij Hj Wj Hmid.
    assert (Hj2 : nth_error l2 (j - S (length l1)) = Some hj).
    { rewrite nth_error_app2 in Hj by lia.
      replace (j - length l1)%nat with (S (j - S (length l1))) in Hj by lia.
      exact Hj. }
    destruct (nth_error_split l2 _ Hj2) as (m1 & m2 & -> & Hm).
    destruct (forEach_middle m1 m2 hj (S (length l1)) row q1 p E2)
      as (r & r1 & F0 & F1 & F2).
    replace (S (length l1) + length m1)%nat with j in F1, F2 by lia.
    assert (Hr : options r = Some [size_group (ToString (cell row (length l1)))]).
    { eapply forEach_options_kept; [exact Ho| |exact F0].
      intros k h' Hk. apply (Hmid (S (length l1) + k)%nat).
      - assert (k < length m1)%nat by (apply nth_error_Some; congruence). lia.
      - cbn [Nat.add]. apply nth_error_after. now apply nth_error_before. }
    apply writes_true in Wj. destruct Wj as [Hsj Hfj].
    rewrite (mapColumn_field r hj _ FOption2 Hsj Hfj) in F1.
    destruct (assign_option2 (cell row j) r Hsj) as (r' & Eb & _ & Hob).
    { eapply forEach_variants; [exact Hv1|exact F0]. }
    rewrite Eb in F1. injection F1 as <-. rewrite Hr in Hob.
    eapply forEach_options_full; [exact Hob|simpl; lia|exact F2].
Qed.

(** Two sizes and two colors: the groups hold the first of each. *)
Lemma groups_hold_first_size_and_color_witness :
  exists p,
    mapRowToProduct [VStr "Size"; VStr "Color"; VStr "Option1"; VStr "Option2"]
                    [VStr "M"; VStr "Red"; VStr "L"; VStr "Blue"] = Ok p /\
    of_variant0 option1 p = Some "L" /\
    of_variant0 option2 p = Some "Blue" /\
    options p = Some [size_group "M"; color_group "Red"].
Proof.
  eexists. split; [reflexivity|]. split; [reflexivity|]. split; [reflexivity|].
  refine (proj2 (groups_hold_first_size_and_color
                   [VStr "Size"; VStr "Color"; VStr "Option1"; VStr "Option2"]
                   [VStr "M"; VStr "Red"; VStr "L"; VStr "Blue"]
                   0 (VStr "Size") _ eq_refl eq_refl _ eq_refl)
            1%nat (VStr "Color") _ eq_refl eq_refl _).
  - intros k h' Hk. lia.
  - lia.
  - intros k h' Hk. lia.
Defined.

Lemma passes_guard_truthy (v : value) :
  skipped v = false -> truthy v = negb (is_number_zero v).
Proof.
  unfold skipped.
  destruct v as [| |[|]|[|neg|neg c e]|[|c s]|s]; cbn;
    try discriminate; try reflexivity.
Qed.

(** X6.  The title decides validity.  A mapped product is invalid when no
    column runs the title case; otherwise its title is the raw cell of the
    last column that does, and it is valid exactly when that cell is truthy:
    the number 0 is mapped as a title and then rejected. *)
Theorem title_decides_validity (hs row : list value) (p : Product) :
  mapRowToProduct hs row = Ok p ->
  ((forall k h, nth_error hs k = Some h ->
      writes FTitle h (cell row k) = false) ->
   title p = None /\ isValidProduct p = false) /\
  (forall j h,
      nth_error hs j = Some h -> writes FTitle h (cell row j) = true ->
      (forall k h', (j < k)%nat -> nth_error hs k = Some h' ->
         writes FTitle h' (cell row k) = false) ->
      title p = Some (cell row j) /\
      isValidProduct p = truthy (cell row j) /\
      isValidProduct p = negb (is_number_zero (cell row j))).
Proof.
  intros E. split.
  - intros Hno.
    assert (Hr : read_field FTitle p = None).
    { rewrite <- after_columns_all in E.
      eapply after_columns_unset; [|exact E]. intros k h _. apply Hno. }
    simpl in Hr. unfold isValidProduct.
    destruct (title p); [discriminate|auto].
  - intros j h Hj W Hno.
    destruct (last_writer FTitle hs row j h p Hj Hno E) as (q & _ & Hr).
    rewrite W in Hr. simpl in Hr. unfold isValidProduct.
    destruct (title p) as [t|]; simpl in Hr; [|discriminate].
    injection Hr as ->. split; [reflexivity|]. split; [reflexivity|].
    apply passes_guard_truthy. now apply writes_true in W.
Qed.

(** A row whose Name cell is the number 0: mapped, and invalid. *)
Lemma title_decides_validity_witness :
  exists p,
    mapRowToProduct [VStr "Name"; VStr "SKU"] [VNum zero; VStr "W-1"] = Ok p /\
    title p = Some (VNum zero) /\ isValidProduct p = false.
Proof.
  eexists. split; [reflexivity|].
  destruct (proj2 (title_decides_validity [VStr "Name"; VStr "SKU"]
                     [VNum zero; VStr "W-1"] _ eq_refl)
              0%nat (VStr "Name") eq_refl eq_refl) as (Ht & Hv & _).
  - intros [|[|k]] h' Hk Hn; [lia| |destruct k; discriminate].
    now injection Hn as <-.
  - split; [exact Ht|exact Hv].
Defined.

Lemma header_undefined_throws (p : Product) (h v : value) :
  header_defined h = false -> skipped v = false ->
  exists e, mapColumn p h v = Throw e.
Proof.
  intros Hh Hs. unfold mapColumn. rewrite Hs.
  destruct h; simpl in Hh; try discriminate; simpl; eauto.
Qed.

Lemma forEach_throws_iff (hs : list value) (i : nat) (row : list value)
  (p : Product) :
  variants p <> [] ->
  (exists e, forEach hs i row p = Throw e) <->
  (exists k h, nth_error hs k = Some h /\ header_defined h = false /\
               skipped (cell row (i + k)) = false).
Proof.
  revert i p. induction hs as [|h hs IH]; intros i p Hv.
  - simpl. split; [intros [e H]; discriminate|].
    intros (k & h & Hk & _). destruct k; discriminate.
  - cbn [forEach]. fold (cell row i).
    assert (Hok : skipped (cell row i) = true \/ header_defined h = true ->
                  ((exists e, rbind (mapColumn p h (cell row i))
                                (fun q => forEach hs (S i) row q) = Throw e) <->
                   (exists k h', nth_error hs k = Some h' /\
                                 header_defined h' = false /\
                                 skipped (cell row (S i + k)) = false))).
    { intros Hc. destruct (mapColumn_total p h (cell row i) Hv Hc) as [q Eq].
      rewrite Eq. cbn [rbind]. apply IH.
      now destruct (mapColumn_spec FTitle p q h _ Hv Eq). }
    destruct (header_defined h) eqn:Hh; [|destruct (skipped (cell row i)) eqn:Hs].
    + rewrite (Hok (or_intror eq_refl)). split.
      * intros (k & h' & Hk & Hd & Hs). exists (S k), h'.
        rewrite Nat.add_succ_r. auto.
      * intros ([|k] & h' & Hk & Hd & Hs).
        -- injection Hk as <-. congruence.
        -- exists k, h'. rewrite Nat.add_succ_r in Hs. auto.
    + rewrite (Hok (or_introl eq_refl)). split.
      * intros (k & h' & Hk & Hd & Hs'). exists (S k), h'.
        rewrite Nat.add_succ_r. auto.
      * intros ([|k] & h' & Hk & Hd & Hs').
        -- injection Hk as <-. rewrite Nat.add_0_r in Hs'. congruence.
        -- exists k, h'. rewrite Nat.add_succ_r in Hs'. auto.
    + destruct (header_undefined_throws p h _ Hh Hs) as [e He].
      rewrite He. cbn [rbind]. split; [|eauto].
      intros _. exists 0%nat, h. rewrite Nat.add_0_r. auto.
Qed.

(** X7.  [mapRowToProduct] throws exactly when some cell that passes the
    guard sits under a header that is [null] or [undefined]; under such a
    header an empty cell does no harm. *)
Theorem mapping_throws_iff (hs row : list value) :
  (exists e, mapRowToProduct hs row = Throw e) <->
  (exists k h, nth_error hs k = Some h /\ header_defined h = false /\
               skipped (cell row k) = false).
Proof.
  unfold mapRowToProduct. rewrite forEach_throws_iff by (simpl; discriminate).
  reflexivity.
Qed.

(** A missing header over a filled cell. *)
Lemma mapping_throws_iff_witness :
  exists e, mapRowToProduct [VStr "Title"; VNull] [VStr "Shirt"; VStr "x"] = Throw e.
Proof.
  apply (proj2 (mapping_throws_iff [VStr "Title"; VNull] [VStr "Shirt"; VStr "x"])).
  exists 1%nat, VNull. repeat split.
Defined.

Lemma mapColumn_same_cell (p : Product) (h a b : value) :
  same_cell a b -> mapColumn p h a = mapColumn p h b.
Proof.
  intros [->|[Ha Hb]]; [reflexivity|].
  now rewrite !skipped_true_mapColumn.
Qed.

(** The columns read the row through its cells only, wherever they start. *)
Lemma forEach_same_cells (hs : list value) (i i' : nat) (row row' : list value)
  (p : Product) :
  (forall k, (k < length hs)%nat -> same_cell (cell row (i + k)) (cell row' (i' + k))) ->
  forEach hs i row p = forEach hs i' row' p.
Proof.
  revert i i' p. induction hs as [|h hs IH]; intros i i' p H; [reflexivity|].
  cbn [forEach]. fold (cell row i) (cell row' i').
  rewrite (mapColumn_same_cell p h (cell row i) (cell row' i')).
  - destruct (mapColumn p h (cell row' i')); cbn [rbind]; [|reflexivity].
    apply IH. intros k Hk. specialize (H (S k)).
    rewrite !Nat.add_succ_r in H. apply H. simpl. lia.
  - specialize (H 0%nat). rewrite !Nat.add_0_r in H. apply H. simpl. lia.
Qed.

(** X8.  Only the cells under the headers matter, and cells that the guard
    drops are all alike: two rows whose cells under each header are equal, or
    both dropped, map to the same result.  So cells beyond the last header are
    ignored, and a row shorter than the headers maps as if it were filled up
    with empty cells. *)
Theorem only_cells_under_headers_matter :
  (forall hs row row',
      (forall k, (k < length hs)%nat -> same_cell (cell row k) (cell row' k)) ->
      mapRowToProduct hs row = mapRowToProduct hs row') /\
  (forall hs row extra,
      (length hs <= length row)%nat ->
      mapRowToProduct hs (row ++ extra) = mapRowToProduct hs row) /\
  (forall hs row n,
      mapRowToProduct hs (row ++ repeat (VStr EmptyString) n)
      = mapRowToProduct hs row).
Proof.
  split; [|split].
  - intros hs row row' H. now apply forEach_same_cells.
  - intros hs row extra Hl. apply forEach_same_cells. intros k Hk. left.
    unfold cell, index. cbn [Nat.add]. apply app_nth1. lia.
  - intros hs row n. apply forEach_same_cells. intros k Hk.
    unfold cell, index. cbn [Nat.add].
    destruct (Nat.lt_ge_cases k (length row)) as [L|G].
    + left. now apply app_nth1.
    + right. rewrite app_nth2 by exact G. rewrite (nth_overflow row) by exact G.
      split; [|reflexivity].
      destruct (Nat.lt_ge_cases (k - length row) n) as [L2|G2].
      * rewrite nth_repeat_lt by exact L2. reflexivity.
      * rewrite nth_overflow by (rewrite repeat_length; exact G2). reflexivity.
Qed.

(** A row with a cell beyond its two headers. *)
Lemma only_cells_under_headers_matter_witness :
  mapRowToProduct [VStr "Title"; VStr "SKU"]
                  ([VStr "Shirt"; VStr "S-1"] ++ [VStr "stray"])
  = mapRowToProduct [VStr "Title"; VStr "SKU"] [VStr "Shirt"; VStr "S-1"].
Proof.
  apply (proj1 (proj2 only_cells_under_headers_matter)). simpl. lia.
Defined.

(** X9.  A column that is not recognized, or whose cell the guard drops, can
    be put into the sheet anywhere, or taken out, without changing the mapped
    product: the other columns do not depend on their positions. *)
Theorem idle_column_changes_nothing (hs1 hs2 r1 r2 : list value) (h v : value) :
  length hs1 = length r1 ->
  skipped v = true \/ (header_defined h = true /\ header_field h = None) ->
  mapRowToProduct (hs1 ++ h :: hs2) (r1 ++ v :: r2)
  = mapRowToProduct (hs1 ++ hs2) (r1 ++ r2).
Proof.
  intros Hl Hidle. unfold mapRowToProduct. rewrite !forEach_app.
  rewrite (forEach_same_cells hs1 0 0 (r1 ++ v :: r2) (r1 ++ r2)).
  2:{ intros k Hk. left. unfold cell, index. cbn [Nat.add].
      rewrite !app_nth1 by lia. reflexivity. }
  destruct (forEach hs1 0 (r1 ++ r2) initial_product) as [q|e]; cbn [rbind];
    [|reflexivity].
  cbn [forEach Nat.add].
  assert (Hv : index VUndefined (r1 ++ v :: r2) (length hs1) = v).
  { unfold index. rewrite app_nth2 by lia.
    replace (length hs1 - length r1)%nat with 0%nat by lia. reflexivity. }
  rewrite Hv.
  assert (Eq : mapColumn q h v = Ok q).
  { destruct Hidle as [Hs|[Hd Hf]].
    - now apply skipped_true_mapColumn.
    - eapply mapColumn_no_field; [|exact Hf]. now apply header_defined_toString. }
  rewrite Eq. cbn [rbind].
  apply forEach_same_cells. intros k Hk. left. unfold cell, index.
  rewrite !app_nth2 by lia.
  replace (S (length hs1) + k - length r1)%nat with (S k) by lia.
  replace (length hs1 + k - length r1)%nat with k by lia. reflexivity.
Qed.

(** A Notes column between Title and Price. *)
Lemma idle_column_changes_nothing_witness :
  mapRowToProduct [VStr "Title"; VStr "Notes"; VStr "Price"]
                  [VStr "Shirt"; VStr "fragile"; VStr "9.99"]
  = mapRowToProduct [VStr "Title"; VStr "Price"] [VStr "Shirt"; VStr "9.99"].
Proof.
  apply (idle_column_changes_nothing [VStr "Title"] [VStr "Price"]
           [VStr "Shirt"] [VStr "9.99"] (VStr "Notes") (VStr "fragile")).
  - reflexivity.
  - right. split; reflexivity.
Defined.

Lemma mapColumn_images_shape (p p' : Product) (h v : value) :
  images_shape p -> mapColumn p h v = Ok p' -> images_shape p'.
Proof.
  intros I E. open_mapColumn E Hs Ht Hc; try exact I.
  unfold images_shape in *.
  open_assign E; simpl in *; try exact I.
  all: right; eexists; split; [reflexivity|]; split; [|apply trim_idem].
  all: match goal with
       | H : negb (is_empty ?t) = true |- ?t <> EmptyString =>
           destruct t; [discriminate H|discriminate]
       end.
Qed.

(** X10.  In a mapped product [images] is unset or holds exactly one image,
    whose source is not empty and carries no white space around it; image
    columns replace the image, they never add one. *)
Theorem images_hold_one_trimmed_source (hs row : list value) (p : Product) :
  mapRowToProduct hs row = Ok p -> images_shape p.
Proof.
  unfold mapRowToProduct.
  assert (I : images_shape initial_product) by (left; reflexivity).
  revert I. generalize initial_product, 0%nat. revert p.
  induction hs as [|h hs IH]; intros p q i I E; simpl in E.
  - now injection E as <-.
  - destruct (mapColumn q h (index VUndefined row i)) as [q1|e] eqn:E1;
      simpl in E; [|discriminate].
    eapply IH; [|exact E]. eapply mapColumn_images_shape; eauto.
Qed.

(** Two image columns, the second padded: one image, trimmed. *)
Lemma images_hold_one_trimmed_source_witness :
  exists p,
    mapRowToProduct [VStr "Image"; VStr "Image URL"]
                    [VStr "http://a"; VStr "  http://b "] = Ok p /\
    images p = Some [ {| src := "http://b" |} ] /\
    images_shape p.
Proof.
  eexists. split; [reflexivity|]. split; [reflexivity|].
  apply (images_hold_one_trimmed_source [VStr "Image"; VStr "Image URL"]
           [VStr "http://a"; VStr "  http://b "]).
  reflexivity.
Defined.

(** ** More on the sync loop *)

Section Effects.

Variable host : Host.

(** What the loop body adds for one row: a request when the row is sent, a
    text for the row when it is not blank, and lines to the log. *)
Lemma processRow_effect (headers : option (list value)) (data : list (list value))
  (r : Z) (w : World) (rowData : list value) :
  at_index data (r - 1) = Some rowData ->
  exists w',
    processRow host headers data r w = (Ok tt, w') /\
    requests w' = (requests w ++
                   match product_to_send headers rowData with
                   | Some p => [request_of host p]
                   | None => []
                   end)%list /\
    (exists new, outcomes w' = (outcomes w ++ new)%list /\
                 map fst new = if is_blank rowData then [] else [r]) /\
    (exists new, log w' = (log w ++ new)%list).
Proof.
  intros Hd. unfold product_to_send. destruct (is_blank rowData) eqn:Hb.
  - exists w. rewrite (processRow_blank _ _ _ _ _ _ Hd Hb).
    split; [reflexivity|]. rewrite !app_nil_r. split; [reflexivity|].
    split; exists []; rewrite app_nil_r; auto.
  - destruct (map_row headers rowData) as [p|e] eqn:Hm.
    + destruct (isValidProduct p) eqn:Hv.
      * destruct (createShopifyProduct_total host p w) as (resp & Hc).
        rewrite (processRow_valid _ _ _ _ _ _ _ _ _ Hd Hb Hm Hv Hc).
        eexists. split; [reflexivity|].
        destruct resp; (split; [reflexivity|]);
          (split; eexists; [split|]; reflexivity).
      * rewrite (processRow_invalid _ _ _ _ _ _ _ Hd Hb Hm Hv).
        eexists. split; [reflexivity|]. split; [cbn; now rewrite app_nil_r|].
        split; eexists; [split|]; reflexivity.
    + rewrite (processRow_mapping_throws _ _ _ _ _ _ _ Hd Hb Hm).
      eexists. split; [reflexivity|]. split; [cbn; now rewrite app_nil_r|].
      split; eexists; [split|]; reflexivity.
Qed.

(** The loop over the rows [l], which are the rows of the data range from
    row [i] on. *)
Lemma forRows_list (headers : option (list value)) (data : list (list value))
  (l : list (list value)) (i : Z) (w : World) :
  (forall k, (k < length l)%nat ->
     at_index data (i + Z.of_nat k - 1) = nth_error l k) ->
  exists w',
    forRows host headers data (length l) i w = (Ok tt, w') /\
    requests w' = (requests w ++ requests_for host headers (numbered i l))%list /\
    (exists new, outcomes w' = (outcomes w ++ new)%list /\
                 map fst new = rows_with_outcome (numbered i l)) /\
    (exists new, log w' = (log w ++ new)%list).
Proof.
  revert i w. induction l as [|rowData l IH]; intros i w Hin.
  - exists w. cbn. unfold ret. rewrite app_nil_r. split; [reflexivity|].
    split; [reflexivity|]. split; exists []; rewrite app_nil_r; auto.
  - pose proof (Hin 0%nat) as H0. cbn in H0. rewrite Z.add_0_r in H0.
    specialize (H0 ltac:(lia)).
    destruct (processRow_effect headers data i w rowData H0)
      as (w1 & E1 & Q1 & (o1 & O1 & K1) & (g1 & G1)).
    destruct (IH (i + 1) w1) as (w2 & E2 & Q2 & (o2 & O2 & K2) & (g2 & G2)).
    { intros k Hk. pose proof (Hin (S k) ltac:(simpl; lia)) as Hs.
      cbn [nth_error] in Hs. rewrite <- Hs. f_equal. lia. }
    exists w2. cbn [length forRows]. unfold bind. rewrite E1, E2.
    split; [reflexivity|]. split; [|split].
    + rewrite Q2, Q1. unfold requests_for. cbn [numbered flat_map snd].
      now rewrite app_assoc.
    + exists (o1 ++ o2)%list. rewrite O2, O1. split; [now rewrite app_assoc|].
      rewrite map_app, K1, K2. unfold rows_with_outcome.
      cbn [numbered filter snd]. destruct (is_blank rowData); reflexivity.
    + exists (g1 ++ g2)%list. rewrite G2, G1. now rewrite app_assoc.
Qed.

(** A pass from a stored watermark that is not negative: it returns, and
    what it adds is read off the rows after the watermark. *)
Lemma pass_effects (w : World) (wm : Z) :
  watermark w = Some wm -> 0 <= wm ->
  exists w',
    checkForNewProducts host w = (Ok tt, w') /\
    requests w' = (requests w ++
                   requests_for host (at_index (getValues (sheet w)) 0)
                     (new_rows (sheet w) wm))%list /\
    (exists new, outcomes w' = (outcomes w ++ new)%list /\
                 map fst new = rows_with_outcome (new_rows (sheet w) wm)).
Proof.
  intros Hw H0.
  destruct (Z.lt_ge_cases wm (getLastRow (sheet w))) as [Hlt|Hge].
  - rewrite (checkForNewProducts_advances host w wm Hw H0 Hlt).
    eexists. split; [reflexivity|].
    unfold outcomes at 1. cbn [requests sheet set_properties].
    fold (outcomes (before_row host w wm (getLastRow (sheet w) + 1))).
    unfold before_row, new_rows.
    assert (Hlen : Z.to_nat (getLastRow (sheet w) + 1 - 1 - wm)
                   = length (skipn (Z.to_nat wm) (getValues (sheet w)))).
    { rewrite length_skipn. unfold getLastRow, getValues in *.
      destruct (rows (sheet w)); [simpl in Hlt; lia|]. lia. }
    rewrite Hlen.
    destruct (forRows_list (at_index (getValues (sheet w)) 0) (getValues (sheet w))
                (skipn (Z.to_nat wm) (getValues (sheet w))) (wm + 1)
                (loop_start w wm)) as (w1 & E1 & Q & O & _).
    { intros k Hk. unfold at_index.
      assert (Hn : (wm + 1 + Z.of_nat k - 1 <? 0) = false)
        by (apply Z.ltb_ge; lia).
      rewrite Hn, nth_error_skipn. f_equal. lia. }
    rewrite E1. cbn [snd]. split; [exact Q|exact O].
  - rewrite (checkForNewProducts_no_new_rows host w) by (rewrite Hw; exact Hge).
    eexists. split; [reflexivity|]. cbn [requests logged set_log].
    unfold outcomes. cbn [sheet logged set_log]. unfold new_rows.
    assert (Hrows : skipn (Z.to_nat wm) (getValues (sheet w)) = []
                    \/ skipn (Z.to_nat wm) (getValues (sheet w))
                       = [[VStr EmptyString]]).
    { unfold getLastRow, getValues in *. destruct (rows (sheet w)) as [|x l] eqn:Er.
      - destruct (Z.to_nat wm) as [|n]; [now right|left].
        simpl. now destruct n.
      - left. apply skipn_all2. simpl in *. lia. }
    destruct Hrows as [-> | ->]; cbn; rewrite app_nil_r;
      (split; [reflexivity|]); exists []; now rewrite app_nil_r.
Qed.

End Effects.

(** The requests name the remote end through the payload alone. *)
Lemma requests_for_payload (host host' : Host) (headers : option (list value))
  (l : list (Z * list value)) :
  JSON_stringify_product host' = JSON_stringify_product host ->
  requests_for host' headers l = requests_for host headers l.
Proof.
  intros H. unfold requests_for. apply flat_map_ext. intros x.
  destruct (product_to_send headers (snd x)); [|reflexivity].
  unfold request_of. now rewrite H.
Qed.

(** X11.  A pass from a stored watermark that is not negative sends one
    request for each row after the watermark that is not blank, maps without
    exception and has a title, in row order, and nothing else; which requests
    are sent does not depend on what the remote end answers. *)
Theorem pass_sends_the_valid_new_rows (host : Host) (w : World) (wm : Z) :
  watermark w = Some wm -> 0 <= wm ->
  requests (snd (checkForNewProducts host w)) =
    (requests w ++
     requests_for host (at_index (getValues (sheet w)) 0)
       (new_rows (sheet w) wm))%list /\
  forall host',
    JSON_stringify_product host' = JSON_stringify_product host ->
    requests (snd (checkForNewProducts host' w)) =
    requests (snd (checkForNewProducts host w)).
Proof.
  intros Hw H0.
  destruct (pass_effects host w wm Hw H0) as (w1 & E1 & Q1 & _).
  rewrite E1. cbn [snd]. split; [exact Q1|].
  intros host' Hp.
  destruct (pass_effects host' w wm Hw H0) as (w2 & E2 & Q2 & _).
  rewrite E2. cbn [snd]. rewrite Q1, Q2. f_equal.
  now apply requests_for_payload.
Qed.

(** The example sheet from watermark 2: rows 3, 6, 7 and 8 are sent, the
    blank row 4 and the untitled row 5 are not, also when the remote end is
    another one. *)
Lemma pass_sends_the_valid_new_rows_witness :
  length (requests (snd (checkForNewProducts Example.host Example.world))) = 4%nat /\
  requests (snd (checkForNewProducts Example.odd_host Example.world)) =
  requests (snd (checkForNewProducts Example.host Example.world)).
Proof.
  destruct (pass_sends_the_valid_new_rows Example.host Example.world 2)
    as (Q & Hany).
  - reflexivity.
  - lia.
  - split; [rewrite Q; reflexivity|]. apply Hany. reflexivity.
Defined.

(** X12.  A pass from a stored watermark that is not negative writes exactly
    one status text for each row after the watermark that is not blank, in
    row order, and none for any other row. *)
Theorem pass_writes_one_status_per_row (host : Host) (w : World) (wm : Z) :
  watermark w = Some wm -> 0 <= wm ->
  exists new,
    outcomes (snd (checkForNewProducts host w)) = (outcomes w ++ new)%list /\
    map fst new = rows_with_outcome (new_rows (sheet w) wm).
Proof.
  intros Hw H0.
  destruct (pass_effects host w wm Hw H0) as (w1 & E1 & _ & O1).
  rewrite E1. exact O1.
Qed.

(** The example sheet from watermark 2: texts for rows 3, 5, 6, 7 and 8. *)
Lemma pass_writes_one_status_per_row_witness :
  exists new,
    outcomes (snd (checkForNewProducts Example.host Example.world)) = new /\
    map fst new = [3; 5; 6; 7; 8].
Proof.
  destruct (pass_writes_one_status_per_row Example.host Example.world 2)
    as (new & O & K).
  - reflexivity.
  - lia.
  - exists new. split; [exact O|exact K].
Defined.

(** The text the loop body writes for a row that is not blank. *)
Lemma processRow_status (host : Host) (headers : option (list value))
  (data : list (list value)) (r : Z) (w : World) (rowData : list value) :
  at_index data (r - 1) = Some rowData -> is_blank rowData = false ->
  exists w' text,
    processRow host headers data r w = (Ok tt, w') /\
    outcomes w' = (outcomes w ++ [(r, text)])%list /\
    starts_with "Synced: " text = negb (row_fails host headers rowData w) /\
    starts_with "ERROR: " text = row_fails host headers rowData w.
Proof.
  intros Hd Hb. unfold row_fails.
  destruct (map_row headers rowData) as [p|e] eqn:Hm.
  - destruct (isValidProduct p) eqn:Hv.
    + destruct (createShopifyProduct_total host p w) as (resp & Hc).
      rewrite (processRow_valid _ _ _ _ _ _ _ _ _ Hd Hb Hm Hv Hc).
      unfold remote_fails. rewrite Hc. cbn [fst negb orb].
      destruct resp as [id d|err]; eexists; eexists;
        (split; [reflexivity|]); (split; [reflexivity|]); split; reflexivity.
    + rewrite (processRow_invalid _ _ _ _ _ _ _ Hd Hb Hm Hv).
      eexists. eexists. split; [reflexivity|]. split; [reflexivity|].
      split; reflexivity.
  - rewrite (processRow_mapping_throws _ _ _ _ _ _ _ Hd Hb Hm).
    eexists. eexists. split; [reflexivity|]. split; [reflexivity|].
    split; reflexivity.
Qed.

(** X13.  In a pass, a row of the processed range that is not blank gets one
    status text: it starts with Synced when the row maps, has a title and the
    remote create succeeds, and with ERROR in every other case. *)
Theorem status_text_tells_the_outcome (host : Host) (w : World) (wm r : Z)
  (rowData : list value) :
  0 <= wm -> wm < r <= getLastRow (sheet w) ->
  at_index (getValues (sheet w)) (r - 1) = Some rowData ->
  is_blank rowData = false ->
  exists text,
    outcomes (before_row host w wm (r + 1)) =
      (outcomes (before_row host w wm r) ++ [(r, text)])%list /\
    starts_with "Synced: " text =
      negb (row_fails host (at_index (getValues (sheet w)) 0) rowData
              (before_row host w wm r)) /\
    starts_with "ERROR: " text =
      row_fails host (at_index (getValues (sheet w)) 0) rowData
        (before_row host w wm r).
Proof.
  intros H0 Hr Hd Hb.
  destruct (processRow_status host (at_index (getValues (sheet w)) 0)
              (getValues (sheet w)) r (before_row host w wm r) rowData Hd Hb)
    as (w' & text & E & O & S & F).
  rewrite (before_row_step host w wm r H0 Hr) in E. injection E as <-.
  exists text. split; [exact O|]. split; [exact S|exact F].
Qed.

(** Rows 3 and 5 of the example sheet: created, and without a title. *)
Lemma status_text_tells_the_outcome_witness :
  (exists text,
     outcomes (before_row Example.host Example.world 2 4) = [(3, text)] /\
     starts_with "Synced: " text = true) /\
  (exists text,
     outcomes (before_row Example.host Example.world 2 6) =
       (outcomes (before_row Example.host Example.world 2 5) ++ [(5, text)])%list /\
     starts_with "ERROR: " text = true).
Proof.
  split.
  - destruct (status_text_tells_the_outcome Example.host Example.world 2 3
                [VStr "Widget"; VNum (of_Z 12345)])
      as (text & O & S & _).
    + lia.
    + split; [lia|]. vm_compute. discriminate.
    + reflexivity.
    + reflexivity.
    + exists text. split; [exact O|exact S].
  - destruct (status_text_tells_the_outcome Example.host Example.world 2 5
                [VStr EmptyString; VStr "012345"])
      as (text & O & _ & F).
    + lia.
    + split; [lia|]. vm_compute. discriminate.
    + reflexivity.
    + reflexivity.
    + exists text. split; [exact O|exact F].
Defined.

(** ** What a pass leaves alone *)

Lemma lookup_put_other (key k v : string) (ps : list (string * string)) :
  key <> k -> lookup key (put k v ps) = lookup key ps.
Proof.
  intros Hne. induction ps as [|[k0 x] r IH]; simpl.
  - destruct (String.eqb k key) eqn:E; [|reflexivity].
    apply String.eqb_eq in E. congruence.
  - destruct (String.eqb k0 k) eqn:E; simpl.
    + apply String.eqb_eq in E. subst k0.
      destruct (String.eqb k key) eqn:E2; [|reflexivity].
      apply String.eqb_eq in E2. congruence.
    + destruct (String.eqb k0 key); [reflexivity|exact IH].
Qed.

Lemma grew_refl (w : World) : grew w w.
Proof.
  unfold grew. split; [reflexivity|].
  repeat split; exists []; now rewrite app_nil_r.
Qed.

Lemma grew_trans (a b c : World) : grew a b -> grew b c -> grew a c.
Proof.
  intros (P1 & (o1 & O1) & (q1 & Q1) & (g1 & G1))
         (P2 & (o2 & O2) & (q2 & Q2) & (g2 & G2)).
  split; [congruence|]. split; [|split].
  - exists (o1 ++ o2)%list. now rewrite O2, O1, app_assoc.
  - exists (q1 ++ q2)%list. now rewrite Q2, Q1, app_assoc.
  - exists (g1 ++ g2)%list. now rewrite G2, G1, app_assoc.
Qed.

Lemma processRow_grew (host : Host) (headers : option (list value))
  (data : list (list value)) (r : Z) (w : World) :
  grew w (snd (processRow host headers data r w)).
Proof.
  destruct (at_index data (r - 1)) as [rowData|] eqn:Hd.
  - destruct (processRow_effect host headers data r w rowData Hd)
      as (w' & E & Q & (o & O & _) & G).
    pose proof (processRow_keeps host headers data r w) as [P _].
    rewrite E in *. cbn [snd] in *. split; [exact P|].
    split; [eauto|]. split; [eauto|exact G].
  - unfold processRow. rewrite Hd. apply grew_refl.
Qed.

Lemma forRows_grew (host : Host) (headers : option (list value))
  (data : list (list value)) (n : nat) (i : Z) (w : World) :
  grew w (snd (forRows host headers data n i w)).
Proof.
  revert i w. induction n as [|n IH]; intros i w; [apply grew_refl|].
  cbn [forRows]. unfold bind.
  pose proof (processRow_grew host headers data i w) as G1.
  destruct (processRow host headers data i w) as [[u|e] w1]; cbn [snd] in *.
  - eapply grew_trans; [exact G1|apply IH].
  - exact G1.
Qed.

(** X14.  A pass, whether it finishes or throws, changes no script property
    other than [lastProcessedRow], and only appends to the status texts, to
    the requests sent and to the log. *)
Theorem pass_only_appends (host : Host) (w : World) (key : string) :
  key <> "lastProcessedRow" ->
  lookup key (properties (snd (checkForNewProducts host w))) =
    lookup key (properties w) /\
  (exists new,
     outcomes (snd (checkForNewProducts host w)) = (outcomes w ++ new)%list) /\
  (exists new,
     requests (snd (checkForNewProducts host w)) = (requests w ++ new)%list) /\
  (exists new, log (snd (checkForNewProducts host w)) = (log w ++ new)%list).
Proof.
  intros Hkey.
  assert (Hlog : forall msg, grew w (logged msg w)).
  { intros msg. split; [reflexivity|]. split; [|split].
    - exists []. now rewrite app_nil_r.
    - exists []. now rewrite app_nil_r.
    - exists [msg]. reflexivity. }
  assert (Hfin : forall w', grew w w' ->
            lookup key (properties w') = lookup key (properties w) /\
            (exists new, outcomes w' = (outcomes w ++ new)%list) /\
            (exists new, requests w' = (requests w ++ new)%list) /\
            (exists new, log w' = (log w ++ new)%list)).
  { intros w' (P & O & Q & G). rewrite P. auto. }
  unfold checkForNewProducts, bind, getProperty, getLastDataRow.
  cbn beta iota zeta.
  destruct (read_lastProcessedRow (lookup "lastProcessedRow" (properties w)))
    as [wm|]; [|apply Hfin, Hlog].
  destruct (wm <? getLastRow (sheet w)); [|apply Hfin, Hlog].
  unfold Logger_log. cbn beta iota.
  match goal with
  | |- context [forRows host ?hs ?d ?n ?i ?w0] =>
      pose proof (forRows_grew host hs d n i w0) as G;
      destruct (forRows host hs d n i w0) as [[u|e] w1]
  end; cbn [snd] in *.
  - unfold setProperty. cbn [snd].
    destruct (grew_trans _ _ _ (Hlog _) G) as (P & O & Q & L).
    cbn [properties set_properties]. rewrite lookup_put_other by exact Hkey.
    rewrite P. split; [reflexivity|]. split; [exact O|]. split; [exact Q|exact L].
  - apply Hfin. eapply grew_trans; [apply Hlog|exact G].
Qed.

(** A property of another script is kept by the pass over the example
    sheet. *)
Lemma pass_only_appends_witness :
  lookup "owner"
    (properties
       (snd (checkForNewProducts Example.host
               (set_properties [("owner", "ops"); ("lastProcessedRow", "2")]
                  Example.world)))) = Some "ops".
Proof.
  destruct (pass_only_appends Example.host
              (set_properties [("owner", "ops"); ("lastProcessedRow", "2")]
                 Example.world) "owner") as (P & _).
  - discriminate.
  - rewrite P. reflexivity.
Defined.

(** ** The header row as a data row *)

Lemma all_space_app (a b : string) :
  all_space (a ++ b) = all_space a && all_space b.
Proof.
  induction a as [|c a IH]; simpl; [reflexivity|].
  now rewrite IH, andb_assoc.
Qed.

Lemma all_space_toLowerCase (s : string) :
  all_space (toLowerCase s) = all_space s.
Proof.
  induction s as [|c r IH]; simpl; [reflexivity|].
  now rewrite is_space_lower_char, IH.
Qed.

Lemma all_space_trim (s : string) : all_space s = true -> trim s = EmptyString.
Proof.
  unfold trim. induction s as [|c r IH]; simpl; [reflexivity|].
  intros H. apply andb_true_iff in H as [Hc Hr]. rewrite Hc. now apply IH.
Qed.

Lemma trimEnd_empty (s : string) : trimEnd s = EmptyString -> all_space s = true.
Proof.
  induction s as [|c r IH]; simpl; [reflexivity|].
  destruct (trimEnd r) as [|x t]; [|discriminate].
  destruct (is_space c); [|discriminate].
  intros _. now rewrite IH.
Qed.

Lemma trimStart_all_space (s : string) :
  all_space (trimStart s) = true -> all_space s = true.
Proof.
  induction s as [|c r IH]; simpl; [reflexivity|].
  destruct (is_space c) eqn:Hc; simpl.
  - exact IH.
  - now rewrite Hc.
Qed.

Lemma trim_empty (s : string) : trim s = EmptyString -> all_space s = true.
Proof.
  unfold trim. intros H. apply trimStart_all_space. now apply trimEnd_empty.
Qed.

Lemma join_app (l1 l2 : list value) :
  join (l1 ++ l2)%list = (join l1 ++ join l2)%string.
Proof.
  induction l1 as [|v l1 IH]; simpl; [reflexivity|].
  now rewrite IH, append_assoc.
Qed.

(** A row with a text that is not all white space is not blank. *)
Lemma text_cell_not_blank (row : list value) (j : nat) (s : string) :
  nth_error row j = Some (VStr s) -> all_space s = false -> is_blank row = false.
Proof.
  intros Hj Hs. unfold is_blank.
  destruct (trim (join row)) eqn:E; [|reflexivity].
  apply trim_empty in E.
  apply nth_error_split in Hj as (l1 & l2 & -> & _).
  rewrite join_app in E. cbn [join ToString] in E.
  rewrite !all_space_app in E.
  apply andb_true_iff in E as [_ E]. apply andb_true_iff in E as [E _].
  congruence.
Qed.

(** A text header that selects a case is not all white space. *)
Lemma header_field_text (s : string) (f : field) :
  header_field (VStr s) = Some f -> all_space s = false.
Proof.
  unfold header_field. cbn [toString ToString]. intros H.
  destruct (all_space s) eqn:E; [|reflexivity].
  rewrite all_space_trim in H by (now rewrite all_space_toLowerCase).
  discriminate H.
Qed.

Lemma cell_nth_error (row : list value) (k : nat) (v : value) :
  nth_error row k = Some v -> cell row k = v.
Proof.
  intros H. unfold cell, index. now apply nth_error_nth.
Qed.

(** The header row, mapped under itself: its title is the text of its last
    title header. *)
Lemma header_row_maps_to_its_title (hs : list value) (j : nat) (s : string) :
  forallb header_defined hs = true ->
  nth_error hs j = Some (VStr s) ->
  header_field (VStr s) = Some FTitle ->
  (forall k h', (j < k)%nat -> nth_error hs k = Some h' ->
     header_field h' <> Some FTitle) ->
  exists p,
    mapRowToProduct hs hs = Ok p /\ title p = Some (VStr s) /\
    product_to_send (Some hs) hs = Some p.
Proof.
  intros Hdef Hj Hf Hlast.
  pose proof (header_field_text s FTitle Hf) as Hs.
  assert (Ht : truthy (VStr s) = true) by (destruct s; [discriminate|reflexivity]).
  destruct (mapRowToProduct_total hs hs Hdef) as [p E].
  exists p. split; [exact E|].
  destruct (last_writer FTitle hs hs j (VStr s) p Hj) as (q & _ & Hr).
  { intros k h' Hk Hn. destruct (writes FTitle h' (cell hs k)) eqn:W; [|reflexivity].
    apply writes_true in W as [_ W]. exfalso. exact (Hlast k h' Hk Hn W). }
  { exact E. }
  rewrite (cell_nth_error hs j _ Hj) in Hr.
  assert (W : writes FTitle (VStr s) (VStr s) = true).
  { apply writes_true. split; [|exact Hf]. unfold skipped. now rewrite Ht. }
  rewrite W in Hr. simpl in Hr.
  destruct (title p) as [t|] eqn:Et; simpl in Hr; [|discriminate].
  injection Hr as ->. split; [reflexivity|].
  unfold product_to_send. rewrite (text_cell_not_blank hs j s Hj Hs).
  cbn [map_row]. rewrite E. unfold isValidProduct. now rewrite Et, Ht.
Qed.

(** X15.  A pass that reads the watermark 0, as it does when no watermark was
    ever stored, starts at row 1: the header row is mapped under itself and,
    when it has a title header, sent to the catalog as a product whose title
    is that header's text; row 1 gets a status text. *)
Theorem untracked_pass_sends_the_header_row (host : Host) (w : World)
  (hs : list value) (rest : list (list value)) (j : nat) (s : string) :
  watermark w = Some 0 ->
  rows (sheet w) = hs :: rest ->
  forallb header_defined hs = true ->
  nth_error hs j = Some (VStr s) ->
  header_field (VStr s) = Some FTitle ->
  (forall k h', (j < k)%nat -> nth_error hs k = Some h' ->
     header_field h' <> Some FTitle) ->
  exists p,
    mapRowToProduct hs hs = Ok p /\ title p = Some (VStr s) /\
    (exists later,
       requests (snd (checkForNewProducts host w)) =
       (requests w ++ request_of host p :: later)%list) /\
    (exists text later,
       outcomes (snd (checkForNewProducts host w)) =
       (outcomes w ++ (1, text) :: later)%list).
Proof.
  intros Hw Hrows Hdef Hj Hf Hlast.
  destruct (header_row_maps_to_its_title hs j s Hdef Hj Hf Hlast)
    as (p & E & Ht & Hsend).
  exists p. split; [exact E|]. split; [exact Ht|].
  destruct (pass_effects host w 0 Hw ltac:(lia)) as (w1 & E1 & Q & (new & O & K)).
  rewrite E1. cbn [snd].
  assert (Hb : is_blank hs = false).
  { unfold product_to_send in Hsend. now destruct (is_blank hs). }
  unfold new_rows, getValues in Q, K. rewrite Hrows in Q, K.
  cbn [Z.to_nat skipn numbered Z.add] in Q, K.
  unfold requests_for in Q. cbn [flat_map snd] in Q.
  unfold rows_with_outcome in K. cbn [filter snd] in K.
  unfold at_index in Q. cbn in Q. rewrite Hsend in Q.
  rewrite Hb in K. cbn [negb map fst] in K.
  split.
  - eexists. rewrite Q. reflexivity.
  - destruct new as [|[k text] later]; [discriminate|].
    cbn [map fst] in K. injection K as -> _.
    exists text, later. exact O.
Qed.

(** A sheet with a header row and one product, never set up. *)
Lemma untracked_pass_sends_the_header_row_witness :
  exists p,
    title p = Some (VStr "Title") /\
    exists later,
      requests
        (snd (checkForNewProducts Example.host
                (set_properties [] Example.world))) =
      request_of Example.host p :: later.
Proof.
  destruct (untracked_pass_sends_the_header_row Example.host
              (set_properties [] Example.world)
              [VStr "Title"; VStr "Barcode"]
              (tl (rows (sheet Example.world))) 0 "Title")
    as (p & _ & Ht & (later & Q) & _).
  - reflexivity.
  - reflexivity.
  - reflexivity.
  - reflexivity.
  - reflexivity.
  - intros [|[|k]] h' Hk Hn; [lia| |destruct k; discriminate].
    injection Hn as <-. discriminate.
  - exists p. split; [exact Ht|]. exists later. exact Q.
Defined.

(** ** Tracking *)

Lemma no_hex_prefix (s : string) :
  all_decimal s -> starts_with "0x" s || starts_with "0X" s = false.
Proof.
  destruct s as [|c [|c2 r]]; cbn [starts_with all_decimal].
  - reflexivity.
  - intros _. now rewrite !andb_false_r.
  - intros (_ & Hc2 & _).
    destruct (decimal_char_facts c2 Hc2) as (_ & _ & _ & Hx & HX).
    rewrite Hx, HX. cbn [andb]. now rewrite !andb_false_r.
Qed.

(** X16.  The text [int_toString] writes for an integer, negative or not,
    which is its [toString] below 1e21 in absolute value, reads back through
    [parseInt] as that integer, and so does a stored row number when a pass
    reads the watermark. *)
Theorem row_number_text_round_trip (z : Z) :
  parseInt (int_toString z) = Some z /\
  read_lastProcessedRow (Some (int_toString z)) = Some z.
Proof.
  assert (Hp : parseInt (int_toString z) = Some z).
  { destruct (Z.lt_ge_cases z 0) as [Hneg|Hpos];
      [|now apply parseInt_int_toString].
    unfold int_toString.
    assert (Hn : (z <? 0) = true) by (apply Z.ltb_lt; exact Hneg). rewrite Hn.
    destruct (digits_spec (Z.abs_N z)) as (Ha & Hne & Hd).
    unfold parseInt. cbn [append trimStart]. 
    change (is_space "-") with false. cbv iota.
    unfold read_sign. change (Ascii.eqb "-" "-") with true. cbv iota.
    rewrite (no_hex_prefix _ Ha), Hd. f_equal. lia. }
  split; [exact Hp|].
  unfold read_lastProcessedRow.
  assert (He : is_empty (int_toString z) = false).
  { destruct (Z.lt_ge_cases z 0) as [Hneg|Hpos];
      [|now apply int_toString_not_empty].
    unfold int_toString.
    assert (Hn : (z <? 0) = true) by (apply Z.ltb_lt; exact Hneg).
    now rewrite Hn. }
  now rewrite He.
Qed.

Lemma row_number_text_round_trip_witness :
  parseInt (int_toString (-7)) = Some (-7) /\
  read_lastProcessedRow (Some (int_toString 128)) = Some 128.
Proof.
  split.
  - apply (row_number_text_round_trip (-7)).
  - apply (row_number_text_round_trip 128).
Defined.

Lemma initializeTracking_fresh (w : World) :
  (forall s, lookup "lastProcessedRow" (properties w) = Some s -> s = EmptyString) ->
  initializeTracking w =
  (Ok tt,
   logged ("Initialized tracking at row " ++ int_toString (getLastRow (sheet w)))
     (set_properties
        (put "lastProcessedRow" (int_toString (getLastRow (sheet w)))
           (properties w)) w)).
Proof.
  intros H. unfold initializeTracking, bind, getProperty.
  destruct (lookup "lastProcessedRow" (properties w)) as [s|] eqn:E.
  - rewrite (H s eq_refl). reflexivity.
  - reflexivity.
Qed.

Lemma watermark_stored_logged (msg : string) (w : World) (z : Z) :
  0 <= z ->
  watermark
    (logged msg
       (set_properties (put "lastProcessedRow" (int_toString z) (properties w)) w))
  = Some z.
Proof.
  intros Hz. unfold logged.
  apply (watermark_stored (set_log _ _)), Hz.
Qed.

(** X17.  When no watermark is stored, or an empty one, [initializeTracking]
    stores the current last row, and the pass that follows finds nothing to
    do: the rows present at that time are never sent. *)
Theorem fresh_tracking_skips_existing_rows (host : Host) (w : World) :
  (forall s, lookup "lastProcessedRow" (properties w) = Some s -> s = EmptyString) ->
  watermark (snd (initializeTracking w)) = Some (getLastRow (sheet w)) /\
  checkForNewProducts host (snd (initializeTracking w)) =
    (Ok tt, logged "No new rows to process" (snd (initializeTracking w))) /\
  requests (snd (checkForNewProducts host (snd (initializeTracking w)))) =
    requests w.
Proof.
  intros H. rewrite (initializeTracking_fresh w H). cbn [snd].
  pose proof (watermark_stored_logged
                ("Initialized tracking at row " ++ int_toString (getLastRow (sheet w)))
                w _ (getLastRow_nonneg (sheet w))) as Hw.
  split; [exact Hw|].
  assert (E : forall w1, watermark w1 = Some (getLastRow (sheet w)) ->
              sheet w1 = sheet w ->
              checkForNewProducts host w1 = (Ok tt, logged "No new rows to process" w1)).
  { intros w1 H1 S1. apply checkForNewProducts_no_new_rows.
    rewrite H1, S1. lia. }
  rewrite (E _ Hw eq_refl). split; reflexivity.
Qed.

(** The example sheet with nothing stored: tracking starts at row 8. *)
Lemma fresh_tracking_skips_existing_rows_witness :
  watermark (snd (initializeTracking (set_properties [] Example.world))) = Some 8 /\
  requests
    (snd (checkForNewProducts Example.host
            (snd (initializeTracking (set_properties [] Example.world))))) = [].
Proof.
  destruct (fresh_tracking_skips_existing_rows Example.host
              (set_properties [] Example.world)) as (Hw & _ & Q).
  - intros s Hs. discriminate Hs.
  - split; [exact Hw|exact Q].
Defined.

(** X18.  [initializeTracking] writes at most once: a stored value that is
    not empty is never overwritten, and a second call right after the first
    changes nothing. *)
Theorem initializeTracking_runs_once (w : World) :
  (forall s, lookup "lastProcessedRow" (properties w) = Some s ->
     s <> EmptyString -> initializeTracking w = (Ok tt, w)) /\
  initializeTracking (snd (initializeTracking w)) =
    (Ok tt, snd (initializeTracking w)).
Proof.
  assert (Hkeep : forall w0 s, lookup "lastProcessedRow" (properties w0) = Some s ->
            s <> EmptyString -> initializeTracking w0 = (Ok tt, w0)).
  { intros w0 s Hs Hne. apply (initializeTracking_keeps w0 s Hs).
    destruct s; [congruence|reflexivity]. }
  split; [apply Hkeep|].
  destruct (lookup "lastProcessedRow" (properties w)) as [s|] eqn:E.
  - destruct s as [|c r] eqn:Es.
    + rewrite (initializeTracking_fresh w).
      2:{ intros s' Hs'. congruence. }
      cbn [snd]. eapply Hkeep.
      * cbn [properties logged set_log set_properties]. apply lookup_put.
      * intros Hemp.
        pose proof (int_toString_not_empty _ (getLastRow_nonneg (sheet w))) as Hn.
        rewrite Hemp in Hn. discriminate Hn.
    + rewrite (Hkeep w (String c r) E); [|discriminate].
      cbn [snd]. apply (Hkeep w (String c r) E). discriminate.
  - rewrite (initializeTracking_fresh w).
    2:{ intros s' Hs'. congruence. }
    cbn [snd]. eapply Hkeep.
    + cbn [properties logged set_log set_properties]. apply lookup_put.
    + intros Hemp.
      pose proof (int_toString_not_empty _ (getLastRow_nonneg (sheet w))) as Hn.
      rewrite Hemp in Hn. discriminate Hn.
Qed.

(** The example world, tracked at row 2 with eight rows: left as it is. *)
Lemma initializeTracking_runs_once_witness :
  initializeTracking Example.world = (Ok tt, Example.world).
Proof.
  apply (proj1 (initializeTracking_runs_once Example.world) "2").
  - reflexivity.
  - discriminate.
Defined.

(** X19.  [resetTracking] replaces whatever is stored, readable or not, by
    the current last row, touches neither the sheet nor the requests, and the
    pass that follows finds nothing to do: the backlog is dropped. *)
Theorem resetTracking_drops_the_backlog (host : Host) (w : World) :
  fst (resetTracking w) = Ok tt /\
  watermark (snd (resetTracking w)) = Some (getLastRow (sheet w)) /\
  sheet (snd (resetTracking w)) = sheet w /\
  requests (snd (resetTracking w)) = requests w /\
  checkForNewProducts host (snd (resetTracking w)) =
    (Ok tt, logged "No new rows to process" (snd (resetTracking w))).
Proof.
  pose proof (resetTracking_watermark w) as Hw.
  assert (S : sheet (snd (resetTracking w)) = sheet w) by reflexivity.
  split; [reflexivity|]. split; [exact Hw|]. split; [exact S|].
  split; [reflexivity|].
  apply checkForNewProducts_no_new_rows. rewrite Hw, S. lia.
Qed.

Lemma watermark_none_stored (w : World) :
  watermark w = None ->
  exists s, lookup "lastProcessedRow" (properties w) = Some s /\ s <> EmptyString.
Proof.
  unfold watermark, read_lastProcessedRow.
  destruct (lookup "lastProcessedRow" (properties w)) as [[|c r]|];
    try (vm_compute; discriminate).
  intros _. eexists. split; [reflexivity|discriminate].
Qed.

(** X20.  A stored watermark that starts with no numeral stalls the sync:
    every pass finds nothing to do, [initializeTracking] keeps the value, and
    so no sequence of passes and edits of the sheet sends a request or makes
    the watermark readable. *)
Theorem unreadable_watermark_stalls_the_sync (w w' : World) :
  watermark w = None -> follows w w' ->
  watermark w' = None /\ requests w' = requests w /\
  properties w' = properties w /\
  initializeTracking w' = (Ok tt, w').
Proof.
  intros Hw F. induction F as [w|host w w1 w2 r E F IH|s w w2 F IH].
  - split; [exact Hw|]. split; [reflexivity|]. split; [reflexivity|].
    destruct (watermark_none_stored w Hw) as (s & Hs & Hne).
    apply (initializeTracking_keeps w s Hs). destruct s; [congruence|reflexivity].
  - rewrite (checkForNewProducts_no_new_rows host w) in E by (now rewrite Hw).
    injection E as _ <-.
    destruct (IH Hw) as (W2 & Q2 & P2 & I2). auto.
  - destruct (IH Hw) as (W2 & Q2 & P2 & I2). auto.
Qed.

(** The example sheet with the stored text abc: the pass sends nothing. *)
Lemma unreadable_watermark_stalls_the_sync_witness :
  requests
    (snd (checkForNewProducts Example.host
            (set_properties [("lastProcessedRow", "abc")] Example.world))) = [].
Proof.
  destruct (unreadable_watermark_stalls_the_sync
              (set_properties [("lastProcessedRow", "abc")] Example.world)
              (snd (checkForNewProducts Example.host
                      (set_properties [("lastProcessedRow", "abc")] Example.world))))
    as (_ & Q & _).
  - reflexivity.
  - eapply follows_pass; [|apply follows_refl].
    apply surjective_pairing.
  - exact Q.
Defined.

(** ** Setup and triggers *)

Lemma trigger_eqb_refl (t : Trigger) : trigger_eqb t t = true.
Proof. unfold trigger_eqb. now rewrite String.eqb_refl, Z.eqb_refl. Qed.

(** Deleting each trigger of the snapshot empties the project of them. *)
Lemma deleteEach_prefix (l r : list Trigger) : deleteEach l (l ++ r)%list = r.
Proof.
  induction l as [|t l IH]; simpl; [reflexivity|].
  now rewrite trigger_eqb_refl.
Qed.

Lemma initializeTracking_total (w : World) :
  fst (initializeTracking w) = Ok tt /\
  sheet (snd (initializeTracking w)) = sheet w /\
  requests (snd (initializeTracking w)) = requests w.
Proof.
  unfold initializeTracking, bind, getProperty.
  destruct (lookup "lastProcessedRow" (properties w)) as [[|c r]|];
    repeat split.
Qed.

(** What [setup] leaves: the sync trigger alone, and the world of
    [initializeTracking] with one more line in the log. *)
Lemma setup_spec (pr : Project) :
  setup pr =
  (Ok tt,
   {| world :=
        logged ("Setup complete. Script will check for new products every "
                ++ int_toString CHECK_FREQUENCY ++ " minutes.")
          (snd (initializeTracking (world pr)));
      triggers := [ {| handlerFunction := "checkForNewProducts";
                       everyMinutes := CHECK_FREQUENCY |} ] |}).
Proof.
  unfold setup, in_world, clearTriggers, newTrigger. cbn [world triggers].
  pose proof (deleteEach_prefix (triggers pr) []) as D.
  rewrite app_nil_r in D. rewrite D. cbn [app].
  unfold bind.
  destruct (initializeTracking_total (world pr)) as (R & _).
  destruct (initializeTracking (world pr)) as [r w1]. cbn [fst snd] in *.
  subst r. reflexivity.
Qed.

(** X21.  [setup] returns normally and leaves exactly one trigger, the one
    that runs [checkForNewProducts] every five minutes, whatever triggers the
    project had before: triggers of earlier setups do not pile up. *)
Theorem setup_installs_one_trigger (pr : Project) :
  fst (setup pr) = Ok tt /\
  triggers (snd (setup pr)) =
    [ {| handlerFunction := "checkForNewProducts"; everyMinutes := 5 |} ] /\
  sheet (world (snd (setup pr))) = sheet (world pr) /\
  requests (world (snd (setup pr))) = requests (world pr).
Proof.
  rewrite setup_spec. cbn [fst snd world triggers].
  destruct (initializeTracking_total (world pr)) as (_ & S & Q).
  split; [reflexivity|]. split; [reflexivity|]. split; [exact S|exact Q].
Qed.

(** X22.  Running [setup] again changes neither the triggers nor the script
    properties, and a [setup] of a project that has a watermark stored keeps
    it: setting up anew never moves the watermark. *)
Theorem setup_again_keeps_tracking (pr : Project) :
  triggers (snd (setup (snd (setup pr)))) = triggers (snd (setup pr)) /\
  properties (world (snd (setup (snd (setup pr))))) =
    properties (world (snd (setup pr))) /\
  (forall s, lookup "lastProcessedRow" (properties (world pr)) = Some s ->
     s <> EmptyString ->
     properties (world (snd (setup pr))) = properties (world pr)).
Proof.
  assert (Hkeep : forall w s, lookup "lastProcessedRow" (properties w) = Some s ->
            s <> EmptyString -> initializeTracking w = (Ok tt, w)).
  { intros w s Hs Hne. apply (initializeTracking_keeps w s Hs).
    destruct s; [congruence|reflexivity]. }
  assert (Honce : forall w msg,
            properties (snd (initializeTracking (logged msg (snd (initializeTracking w)))))
            = properties (snd (initializeTracking w))).
  { intros w msg.
    assert (Hst : exists s, lookup "lastProcessedRow"
                              (properties (snd (initializeTracking w))) = Some s
                            /\ s <> EmptyString).
    { destruct (lookup "lastProcessedRow" (properties w)) as [s|] eqn:E.
      - destruct s as [|c r].
        + rewrite (initializeTracking_fresh w) by (intros s' Hs'; congruence).
          cbn [snd properties logged set_log set_properties].
          rewrite lookup_put. eexists. split; [reflexivity|].
          intros Hemp.
          pose proof (int_toString_not_empty _ (getLastRow_nonneg (sheet w))) as Hn.
          rewrite Hemp in Hn. discriminate Hn.
        + rewrite (Hkeep w (String c r) E) by discriminate.
          exists (String c r). split; [exact E|discriminate].
      - rewrite (initializeTracking_fresh w) by (intros s' Hs'; congruence).
        cbn [snd properties logged set_log set_properties].
        rewrite lookup_put. eexists. split; [reflexivity|].
        intros Hemp.
        pose proof (int_toString_not_empty _ (getLastRow_nonneg (sheet w))) as Hn.
        rewrite Hemp in Hn. discriminate Hn. }
    destruct Hst as (s & Hs & Hne).
    rewrite (Hkeep (logged msg (snd (initializeTracking w))) s Hs Hne).
    reflexivity. }
  rewrite !setup_spec. cbn [snd world triggers].
  split; [reflexivity|]. split.
  - cbn [properties logged set_log]. apply Honce.
  - intros s Hs Hne. rewrite (Hkeep (world pr) s Hs Hne). reflexivity.
Qed.

(** A project with two stale triggers, tracked at row 2. *)
Lemma setup_again_keeps_tracking_witness :
  properties
    (world
       (snd (setup
               {| world := Example.world;
                  triggers :=
                    [ {| handlerFunction := "checkForNewProducts"; everyMinutes := 5 |};
                      {| handlerFunction := "checkForNewProducts"; everyMinutes := 1 |} ]
               |}))) = [("lastProcessedRow", "2")].
Proof.
  apply (proj2 (proj2 (setup_again_keeps_tracking
           {| world := Example.world;
              triggers :=
                [ {| handlerFunction := "checkForNewProducts"; everyMinutes := 5 |};
                  {| handlerFunction := "checkForNewProducts"; everyMinutes := 1 |} ]
           |})) "2").
  - reflexivity.
  - discriminate.
Defined.

(** ** Status cells *)

Lemma status_of_absent (r : Z) (new : list (Z * string)) :
  ~ In r (map fst new) -> status_of r new = None.
Proof.
  induction new as [|[k text] rest IH]; simpl; [reflexivity|].
  intros H. rewrite IH by tauto.
  destruct (k =? r) eqn:E; [|reflexivity].
  apply Z.eqb_eq in E. tauto.
Qed.

Lemma status_of_app (r : Z) (old new : list (Z * string)) :
  status_of r (old ++ new)%list =
  match status_of r new with
  | Some text => Some text
  | None => status_of r old
  end.
Proof.
  induction old as [|[k text] rest IH]; simpl.
  - now destruct (status_of r new).
  - rewrite IH. destruct (status_of r new); reflexivity.
Qed.

(** The rows that get a text are rows of the data range, not blank, with
    their own numbers. *)
Lemma rows_with_outcome_numbered (l : list (list value)) (i r : Z) :
  In r (rows_with_outcome (numbered i l)) ->
  exists n rowData,
    nth_error l n = Some rowData /\ r = i + Z.of_nat n /\
    is_blank rowData = false.
Proof.
  revert i. induction l as [|row l IH]; intros i; unfold rows_with_outcome;
    cbn [numbered filter snd map]; [intros []|].
  destruct (is_blank row) eqn:Hb; cbn [negb map fst].
  - intros H. destruct (IH (i + 1) H) as (n & rd & Hn & Hr & Hd).
    exists (S n), rd. split; [exact Hn|]. split; [lia|exact Hd].
  - intros [<-|H].
    + exists 0%nat, row. split; [reflexivity|]. split; [lia|exact Hb].
    + destruct (IH (i + 1) H) as (n & rd & Hn & Hr & Hd).
      exists (S n), rd. split; [exact Hn|]. split; [lia|exact Hd].
Qed.

Lemma new_rows_in_range (s : Sheet) (wm r : Z) :
  0 <= wm -> In r (rows_with_outcome (new_rows s wm)) ->
  wm < r <= getLastRow s /\
  exists rowData,
    at_index (getValues s) (r - 1) = Some rowData /\ is_blank rowData = false.
Proof.
  intros H0 H. unfold new_rows in H.
  apply rows_with_outcome_numbered in H as (n & rd & Hn & Hr & Hb).
  rewrite nth_error_skipn in Hn.
  assert (Hat : at_index (getValues s) (r - 1) = Some rd).
  { unfold at_index.
    assert (Hlt : (r - 1 <? 0) = false) by (apply Z.ltb_ge; lia).
    rewrite Hlt, <- Hn. f_equal. lia. }
  split; [|eauto].
  split; [lia|].
  assert (Hlen : (Z.to_nat wm + n < length (getValues s))%nat).
  { apply nth_error_Some. congruence. }
  unfold getValues, getLastRow in *.
  destruct (rows s) as [|x l]; [|lia].
  simpl in Hlen.
  assert (Z.to_nat wm + n = 0)%nat by lia.
  replace (Z.to_nat wm + n)%nat with 0%nat in Hn by lia.
  injection Hn as <-. discriminate Hb.
Qed.

(** ** Cells of the data range *)

Lemma nth_nil_empty (j : nat) : nth j [] (VStr EmptyString) = VStr EmptyString.
Proof. now destruct j. Qed.

Lemma nth_set_cell (i : nat) (x : value) (row : list value) (j : nat) :
  nth j (set_cell i x row) (VStr EmptyString) =
  if (j =? i)%nat then x else nth j row (VStr EmptyString).
Proof.
  revert row j. induction i as [|i IH]; intros row j.
  - destruct row as [|c t], j as [|j]; simpl; try reflexivity.
    now destruct j.
  - destruct row as [|c t], j as [|j]; cbn [set_cell nth Nat.eqb];
      try reflexivity.
    + rewrite IH, nth_nil_empty. reflexivity.
    + apply IH.
Qed.

Lemma nth_error_set_row_cell (n i : nat) (x : value) (rows : list (list value))
  (m : nat) :
  nth_error (set_row_cell n i x rows) m =
  if (m =? n)%nat then option_map (set_cell i x) (nth_error rows m)
  else nth_error rows m.
Proof.
  revert n m. induction rows as [|row t IH]; intros n m.
  - cbn [set_row_cell].
    destruct m; simpl;
      match goal with |- context [if ?b then _ else _] => now destruct b end.
  - destruct n as [|n], m as [|m]; cbn [set_row_cell nth_error Nat.eqb option_map];
      try reflexivity.
    apply IH.
Qed.

(** The cells after one status text: the text shows in its cell, when the
    row is one of the data range, and every other cell is as before. *)
Lemma sheet_cell_write (r : Z) (t : string) (rows : list (list value))
  (r' : Z) (i : nat) :
  sheet_cell (write_status r t rows) r' i =
  if (r' =? r) && (i =? column_index TIMESTAMP_COLUMN)%nat
     && (1 <=? r) && (r <=? Z.of_nat (length rows))
  then VStr t else sheet_cell rows r' i.
Proof.
  unfold write_status, sheet_cell, at_index.
  destruct (Z.ltb_spec r 1) as [Hr|Hr].
  - assert (E : (1 <=? r) = false) by (apply Z.leb_gt; lia).
    rewrite E, andb_false_r. reflexivity.
  - assert (E : (1 <=? r) = true) by (apply Z.leb_le; lia).
    rewrite E, andb_true_r.
    destruct (Z.ltb_spec (r' - 1) 0) as [Hr'|Hr'].
    + assert (N : (r' =? r) = false) by (apply Z.eqb_neq; lia).
      now rewrite N.
    + rewrite nth_error_set_row_cell.
      destruct (Z.eqb_spec r' r) as [->|N].
      * rewrite Nat.eqb_refl. cbn [andb].
        destruct (nth_error rows (Z.to_nat (r - 1))) as [row|] eqn:E1;
          cbn [option_map].
        -- assert (Hlen : (Z.to_nat (r - 1) < length rows)%nat)
             by (apply nth_error_Some; congruence).
           assert (E2 : (r <=? Z.of_nat (length rows)) = true)
             by (apply Z.leb_le; lia).
           rewrite E2, andb_true_r, nth_set_cell. reflexivity.
        -- assert (Hlen : (length rows <= Z.to_nat (r - 1))%nat)
             by (now apply nth_error_None).
           assert (E2 : (r <=? Z.of_nat (length rows)) = false)
             by (apply Z.leb_gt; lia).
           now rewrite E2, andb_false_r.
      * assert (M : (Z.to_nat (r' - 1) =? Z.to_nat (r - 1))%nat = false)
          by (apply Nat.eqb_neq; lia).
        rewrite M. reflexivity.
Qed.

Lemma write_status_length (r : Z) (t : string) (rows : list (list value)) :
  length (write_status r t rows) = length rows.
Proof.
  unfold write_status. destruct (r <? 1); [reflexivity|].
  apply set_row_cell_length.
Qed.

Lemma replay_length (new : list (Z * string)) (rows : list (list value)) :
  length (replay new rows) = length rows.
Proof.
  revert rows. induction new as [|[k t] rest IH]; intros rows; [reflexivity|].
  unfold replay in *. cbn [fold_left fst snd]. rewrite IH.
  apply write_status_length.
Qed.

(** The cells after a trace of status texts: a status cell of the data range
    shows the last text written to it, and every other cell is as before. *)
Lemma sheet_cell_replay (new : list (Z * string)) (rows : list (list value))
  (r : Z) (i : nat) :
  sheet_cell (replay new rows) r i =
  if (i =? column_index TIMESTAMP_COLUMN)%nat
     && (1 <=? r) && (r <=? Z.of_nat (length rows))
  then match status_of r new with
       | Some t => VStr t
       | None => sheet_cell rows r i
       end
  else sheet_cell rows r i.
Proof.
  revert rows. induction new as [|[k t] rest IH]; intros rows.
  - cbn. now destruct (_ && _).
  - unfold replay in *. cbn [fold_left fst snd status_of].
    rewrite IH, write_status_length, sheet_cell_write.
    destruct ((i =? column_index TIMESTAMP_COLUMN)%nat) eqn:Ei;
      [|now rewrite andb_false_r].
    destruct (1 <=? r) eqn:E1; cbn [andb].
    + destruct (r <=? Z.of_nat (length rows)) eqn:E2; cbn [andb].
      * destruct (status_of r rest) as [later|]; [reflexivity|].
        rewrite (Z.eqb_sym r k).
        destruct (Z.eqb_spec k r) as [->|N]; cbn [andb].
        -- now rewrite E1, E2.
        -- reflexivity.
      * destruct (Z.eqb_spec r k) as [->|N]; cbn [andb]; [|reflexivity].
        now rewrite E1, E2.
    + destruct (Z.eqb_spec r k) as [->|N]; cbn [andb]; [|reflexivity].
      now rewrite E1.
Qed.

Lemma replay_app (a b : list (Z * string)) (rows : list (list value)) :
  replay (a ++ b) rows = replay b (replay a rows).
Proof. unfold replay. apply fold_left_app. Qed.

Lemma traced_refl (w : World) : traced w w.
Proof. exists []. split; [now rewrite app_nil_r|reflexivity]. Qed.

Lemma traced_trans (a b c : World) : traced a b -> traced b c -> traced a c.
Proof.
  intros (n1 & O1 & R1) (n2 & O2 & R2). exists (n1 ++ n2)%list.
  split; [now rewrite O2, O1, app_assoc|].
  now rewrite R2, R1, replay_app.
Qed.

(** The loop body writes to the sheet through [updateSyncStatus] alone. *)
Lemma processRow_traced (host : Host) (headers : option (list value))
  (data : list (list value)) (r : Z) (w : World) :
  traced w (snd (processRow host headers data r w)).
Proof.
  destruct (at_index data (r - 1)) as [rowData|] eqn:Hd.
  - destruct (is_blank rowData) eqn:Hb.
    + rewrite (processRow_blank host _ _ _ _ _ Hd Hb). apply traced_refl.
    + destruct (map_row headers rowData) as [p|e] eqn:Hm.
      * destruct (isValidProduct p) eqn:Hv.
        -- destruct (createShopifyProduct_total host p w) as (resp & Hc).
           rewrite (processRow_valid host _ _ _ _ _ _ _ _ Hd Hb Hm Hv Hc).
           destruct resp; eexists [_]; split; reflexivity.
        -- rewrite (processRow_invalid host _ _ _ _ _ _ Hd Hb Hm Hv).
           eexists [_]. split; reflexivity.
      * rewrite (processRow_mapping_throws host _ _ _ _ _ _ Hd Hb Hm).
        eexists [_]. split; reflexivity.
  - unfold processRow. rewrite Hd. apply traced_refl.
Qed.

Lemma forRows_traced (host : Host) (headers : option (list value))
  (data : list (list value)) (n : nat) (i : Z) (w : World) :
  traced w (snd (forRows host headers data n i w)).
Proof.
  revert i w. induction n as [|n IH]; intros i w; [apply traced_refl|].
  cbn [forRows]. unfold bind.
  pose proof (processRow_traced host headers data i w) as T1.
  destruct (processRow host headers data i w) as [[u|e] w1]; cbn [snd] in *.
  - eapply traced_trans; [exact T1|apply IH].
  - exact T1.
Qed.

Lemma checkForNewProducts_traced (host : Host) (w : World) :
  traced w (snd (checkForNewProducts host w)).
Proof.
  assert (Hlog : forall msg, traced w (logged msg w)).
  { intros msg. exists []. split; [now rewrite app_nil_r|reflexivity]. }
  unfold checkForNewProducts, bind, getProperty, getLastDataRow.
  cbn beta iota zeta.
  destruct (read_lastProcessedRow (lookup "lastProcessedRow" (properties w)))
    as [wm|]; [|apply Hlog].
  destruct (wm <? getLastRow (sheet w)); [|apply Hlog].
  unfold Logger_log. cbn beta iota.
  match goal with
  | |- context [forRows host ?hs ?d ?n ?i ?w0] =>
      pose proof (forRows_traced host hs d n i w0) as T;
      destruct (forRows host hs d n i w0) as [[u|e] w1]
  end; cbn [snd] in *; exact T.
Qed.

(** A row of the data range that is not blank is a row of the sheet. *)
Lemma getValues_in_range (s : Sheet) (r : Z) (rowData : list value) :
  at_index (getValues s) (r - 1) = Some rowData -> is_blank rowData = false ->
  1 <= r <= getLastRow s.
Proof.
  unfold at_index, getValues, getLastRow. intros Hd Hb.
  destruct (Z.ltb_spec (r - 1) 0) as [Hn|Hn]; [discriminate|].
  destruct (rows s) as [|x l] eqn:Er.
  - destruct (Z.to_nat (r - 1)) as [|n]; simpl in Hd.
    + injection Hd as <-. discriminate Hb.
    + now destruct n.
  - assert (Hlen : (Z.to_nat (r - 1) < length (x :: l))%nat)
      by (apply nth_error_Some; congruence).
    lia.
Qed.

(** The loop writes status texts to rows of the data range only. *)
Lemma forRows_writes_in_range (host : Host) (headers : option (list value))
  (data : list (list value)) (last : Z) (n : nat) (i : Z) (w : World) :
  (forall r rowData, at_index data (r - 1) = Some rowData ->
     is_blank rowData = false -> 1 <= r <= last) ->
  exists new,
    outcomes (snd (forRows host headers data n i w)) = (outcomes w ++ new)%list /\
    forall e, In e new -> 1 <= fst e <= last.
Proof.
  intros Hin. revert i w. induction n as [|n IH]; intros i w.
  - exists []. split; [now rewrite app_nil_r|intros e []].
  - cbn [forRows]. unfold bind.
    destruct (at_index data (i - 1)) as [rowData|] eqn:Hd.
    + destruct (processRow_effect host headers data i w rowData Hd)
        as (w1 & E1 & _ & (o1 & O1 & K1) & _).
      rewrite E1. destruct (IH (i + 1) w1) as (o2 & O2 & K2).
      exists (o1 ++ o2)%list. split; [now rewrite O2, O1, app_assoc|].
      intros e He. apply in_app_or in He as [He|He]; [|now apply K2].
      assert (Hk : In (fst e) (map fst o1)) by (now apply in_map).
      rewrite K1 in Hk. destruct (is_blank rowData) eqn:Hb; [destruct Hk|].
      destruct Hk as [<-|[]]. now apply (Hin i rowData).
    + unfold processRow. rewrite Hd. cbn [throw snd].
      exists []. split; [now rewrite app_nil_r|intros e []].
Qed.

Lemma pass_writes_in_range (host : Host) (w : World) :
  exists new,
    outcomes (snd (checkForNewProducts host w)) = (outcomes w ++ new)%list /\
    forall e, In e new -> 1 <= fst e <= getLastRow (sheet w).
Proof.
  assert (Hnone : forall msg,
            exists new, outcomes (logged msg w) = (outcomes w ++ new)%list /\
                        forall e, In e new -> 1 <= fst e <= getLastRow (sheet w)).
  { intros msg. exists []. split; [now rewrite app_nil_r|intros e []]. }
  unfold checkForNewProducts, bind, getProperty, getLastDataRow.
  cbn beta iota zeta.
  destruct (read_lastProcessedRow (lookup "lastProcessedRow" (properties w)))
    as [wm|]; [|apply Hnone].
  destruct (wm <? getLastRow (sheet w)); [|apply Hnone].
  unfold Logger_log. cbn beta iota.
  match goal with
  | |- context [forRows host ?hs ?d ?n ?i ?w0] =>
      destruct (forRows_writes_in_range host hs d (getLastRow (sheet w)) n i w0
                  (getValues_in_range (sheet w))) as (new & O & K);
      destruct (forRows host hs d n i w0) as [[u|e] w1]
  end; cbn [snd] in *; exists new; split; auto.
Qed.

(** X23.  A pass writes status texts to rows of the data range only; it
    changes no cell of the sheet but status cells, and adds no row, whatever
    is stored and whether it finishes or throws.  From a stored watermark
    that is not negative it also leaves the status cell of every row it does
    not process as it was: the rows up to the watermark, the rows after the
    last row, and the blank rows. *)
Theorem pass_changes_status_cells_only (host : Host) (w : World) :
  (exists new,
     outcomes (snd (checkForNewProducts host w)) = (outcomes w ++ new)%list /\
     forall e, In e new -> 1 <= fst e <= getLastRow (sheet w)) /\
  getLastRow (sheet (snd (checkForNewProducts host w))) = getLastRow (sheet w) /\
  (forall r i,
      i <> column_index TIMESTAMP_COLUMN ->
      sheet_cell (rows (sheet (snd (checkForNewProducts host w)))) r i
      = sheet_cell (rows (sheet w)) r i) /\
  (forall wm r,
      watermark w = Some wm -> 0 <= wm ->
      (r <= wm \/ getLastRow (sheet w) < r \/
       exists rowData,
         at_index (getValues (sheet w)) (r - 1) = Some rowData /\
         is_blank rowData = true) ->
      status_cell (sheet (snd (checkForNewProducts host w))) r
      = status_cell (sheet w) r).
Proof.
  split; [apply pass_writes_in_range|].
  destruct (checkForNewProducts_traced host w) as (new & O & R).
  split; [|split].
  - unfold getLastRow. now rewrite R, replay_length.
  - intros r i Hi. rewrite R, sheet_cell_replay.
    apply Nat.eqb_neq in Hi. now rewrite Hi.
  - intros wm r Hw H0 Hout. unfold status_cell.
    rewrite R, sheet_cell_replay.
    destruct (pass_effects host w wm Hw H0) as (w1 & E1 & _ & (new' & O' & K)).
    rewrite E1 in O. cbn [snd] in O. rewrite O' in O.
    apply app_inv_head in O. subst new'.
    rewrite status_of_absent; [now destruct (_ && _)|].
    rewrite K. intros Hin.
    apply (new_rows_in_range (sheet w) wm r H0) in Hin
      as (Hr & rd & Hat & Hb).
    destruct Hout as [H|[H|(rd' & Hat' & Hb')]]; [lia|lia|].
    congruence.
Qed.

(** The example sheet after its pass: the title of row 3 is as it was, the
    blank row 4 has an empty status cell, and the status cell of row 2, which
    an earlier pass synced, is as that pass left it. *)
Lemma pass_changes_status_cells_only_witness :
  sheet_cell
    (rows (sheet (snd (checkForNewProducts Example.host Example.world)))) 3 0
  = VStr "Widget" /\
  status_cell (sheet (snd (checkForNewProducts Example.host Example.world))) 4
  = VStr EmptyString /\
  status_cell
    (sheet (snd (checkForNewProducts Example.host
                   (with_status 2 "Synced: earlier" Example.world)))) 2
  = VStr "Synced: earlier".
Proof.
  split; [|split].
  - rewrite (proj1 (proj2 (proj2 (pass_changes_status_cells_only Example.host
                                    Example.world))) 3 0%nat); [reflexivity|].
    vm_compute. discriminate.
  - rewrite (proj2 (proj2 (proj2 (pass_changes_status_cells_only Example.host
                                    Example.world))) 2 4).
    + reflexivity.
    + reflexivity.
    + lia.
    + right. right. eexists. split; reflexivity.
  - rewrite (proj2 (proj2 (proj2 (pass_changes_status_cells_only Example.host
                             (with_status 2 "Synced: earlier" Example.world))))
               2 2).
    + reflexivity.
    + reflexivity.
    + lia.
    + left. lia.
Defined.

(** X24.  After a pass, the status cell of a processed row that is not blank
    shows the text of this pass, whatever it showed before: a text that
    starts with Synced when the row was created remotely, and with ERROR when
    it failed.  It is the last text written for the row. *)
Theorem status_cell_shows_this_pass (host : Host) (w : World) (wm r : Z)
  (rowData : list value) :
  watermark w = Some wm -> 0 <= wm -> wm < r <= getLastRow (sheet w) ->
  at_index (getValues (sheet w)) (r - 1) = Some rowData ->
  is_blank rowData = false ->
  exists text,
    status_cell (sheet (snd (checkForNewProducts host w))) r = VStr text /\
    status_of r (outcomes (snd (checkForNewProducts host w))) = Some text /\
    starts_with "Synced: " text =
      negb (row_fails host (at_index (getValues (sheet w)) 0) rowData
              (before_row host w wm r)) /\
    starts_with "ERROR: " text =
      row_fails host (at_index (getValues (sheet w)) 0) rowData
        (before_row host w wm r).
Proof.
  intros Hw H0 Hr Hd Hb.
  destruct (checkForNewProducts_traced host w) as (new & O & R).
  unfold status_cell. rewrite R, sheet_cell_replay. clear R.
  rewrite (checkForNewProducts_advances host w wm Hw H0) in * by lia.
  cbn [snd] in *. unfold outcomes at 1 in O. unfold outcomes at 1.
  cbn [sheet set_properties] in *.
  fold (outcomes (before_row host w wm (getLastRow (sheet w) + 1))) in *.
  destruct (processRow_status host (at_index (getValues (sheet w)) 0)
              (getValues (sheet w)) r (before_row host w wm r) rowData Hd Hb)
    as (w' & text & E & O1 & S & F).
  rewrite (before_row_step host w wm r H0 Hr) in E. injection E as <-.
  destruct (before_row_grows host w wm (r + 1) (getLastRow (sheet w) + 1))
    as (later & Hl & Hk); [lia|lia|lia|].
  destruct (before_row_frame host w wm r) as (_ & _ & (n1 & O0 & _) & _);
    [lia|lia|].
  assert (Hnot : ~ In r (map fst later)).
  { intros Hin. apply in_map_iff in Hin as (e & He & Hin).
    specialize (Hk e Hin). lia. }
  assert (Hnew : new = (n1 ++ [(r, text)] ++ later)%list).
  { rewrite Hl, O1, O0 in O. rewrite <- !app_assoc in O.
    apply app_inv_head in O. now symmetry. }
  assert (Hst : status_of r new = Some text).
  { rewrite Hnew, status_of_app, status_of_app, status_of_absent by exact Hnot.
    simpl. now rewrite Z.eqb_refl. }
  exists text. split; [|split; [|split; [exact S|exact F]]].
  - rewrite Hst, Nat.eqb_refl. cbn [andb].
    assert (E1 : (1 <=? r) = true) by (apply Z.leb_le; lia).
    assert (E2 : (r <=? Z.of_nat (length (rows (sheet w)))) = true).
    { apply Z.leb_le. unfold getLastRow in Hr. lia. }
    now rewrite E1, E2.
  - rewrite Hl, O1, status_of_app, status_of_absent by exact Hnot.
    rewrite status_of_app. simpl. now rewrite Z.eqb_refl.
Qed.

(** Row 5 of the example sheet, which has no title. *)
Lemma status_cell_shows_this_pass_witness :
  exists text,
    status_cell (sheet (snd (checkForNewProducts Example.host Example.world))) 5
    = VStr text /\
    starts_with "ERROR: " text = true.
Proof.
  destruct (status_cell_shows_this_pass Example.host Example.world 2 5
              [VStr EmptyString; VStr "012345"])
    as (text & C & _ & _ & F).
  - reflexivity.
  - lia.
  - split; [lia|]. vm_compute. discriminate.
  - reflexivity.
  - reflexivity.
  - exists text. split; [exact C|exact F].
Defined.
